(** * swift_cells.py: cell index, read planner, handle cache and read tasks

    A shallow embedding of [src/swift_cells.py].  NumPy structured arrays are
    lists of records held in a store (arrays are objects: a view writes
    through to the array it was taken from, an indexing expression with a
    mask or an index array allocates a new one), Python dicts are finite
    maps, exceptions are the [Raise] results of a state-and-error monad, and
    the HDF5 library is a small world of files, handles and a call log. *)

From Stdlib Require Import ZArith List Bool Lia Permutation Sorted.
From stdpp Require Import base option list sorting gmap strings pretty.

Local Open Scope Z_scope.

(** ** Exceptions and the state-and-error monad *)

Inductive exn : Type :=
| KeyError
| IndexError
| OSError
| ValueError
| TypeError
| AttributeError
| AssertionError
| ZeroDivisionError.

Inductive result (A : Type) : Type :=
| Ok (a : A)
| Raise (e : exn).

Arguments Ok {A} a.
Arguments Raise {A} e.

Definition result_bind {A B : Type} (r : result A) (k : A -> result B) : result B :=
  match r with
  | Ok a => k a
  | Raise e => Raise e
  end.

(** A computation over a state [S]: it returns a value and the new state,
    or raises (the state at the raise is dropped with the call stack). *)
Definition M (S A : Type) : Type := S -> result (A * S).

Definition ret {S A : Type} (a : A) : M S A := fun s => Ok (a, s).

Definition bind {S A B : Type} (m : M S A) (k : A -> M S B) : M S B :=
  fun s => match m s with
           | Ok (a, s') => k a s'
           | Raise e => Raise e
           end.

Definition raise {S A : Type} (e : exn) : M S A := fun _ => Raise e.

Definition lift_result {S A : Type} (r : result A) : M S A :=
  fun s => match r with
           | Ok a => Ok (a, s)
           | Raise e => Raise e
           end.

Declare Scope py_scope.
Delimit Scope py_scope with py.
Notation "'let*' x ':=' m 'in' k" := (bind m (fun x => k))
  (at level 10, x name, m at level 100, k at level 200) : py_scope.
Notation "'do*' m 'in' k" := (bind m (fun _ => k))
  (at level 10, m at level 100, k at level 200) : py_scope.
Notation "'let+' x ':=' r 'in' k" := (result_bind r (fun x => k))
  (at level 10, x name, r at level 100, k at level 200) : py_scope.

Local Open Scope py_scope.

(** [for x in xs: body x] *)
Fixpoint for_each {S A : Type} (xs : list A) (body : A -> M S unit) : M S unit :=
  match xs with
  | [] => ret tt
  | x :: rest => do* body x in for_each rest body
  end.

(** A loop that threads an accumulator and may raise. *)
Fixpoint fold_result {A B : Type} (f : B -> A -> result B) (xs : list A) (b : B) : result B :=
  match xs with
  | [] => Ok b
  | x :: rest => let+ b' := f b x in fold_result f rest b'
  end.

(** [range(lo, hi)] over integers. *)
Definition range (lo hi : Z) : list Z :=
  map (fun n => lo + Z.of_nat n) (seq 0 (Z.to_nat (hi - lo))).

(** ** Fixed-width integers *)

(** np.int64 and np.int32 arithmetic wraps around (two's complement). *)
Definition wrap64 (z : Z) : Z := (z + 2 ^ 63) mod 2 ^ 64 - 2 ^ 63.
Definition wrap32 (z : Z) : Z := (z + 2 ^ 31) mod 2 ^ 32 - 2 ^ 31.

Definition int64_ok (z : Z) : Prop := - 2 ^ 63 <= z < 2 ^ 63.
Definition int32_ok (z : Z) : Prop := - 2 ^ 31 <= z < 2 ^ 31.

(** ** swift_cell_t *)

(** One record of the structured dtype [swift_cell_t].  The three float64
    coordinates of [centre] are kept as their 64-bit patterns: the code
    below only stores and copies them. *)
Record swift_cell_t : Type := mk_cell {
  centre : Z * Z * Z;
  count : Z;
  offset : Z;
  file : Z;
  order : Z
}.

Definition set_count (c : swift_cell_t) (v : Z) : swift_cell_t :=
  mk_cell (centre c) v (offset c) (file c) (order c).
Definition set_offset (c : swift_cell_t) (v : Z) : swift_cell_t :=
  mk_cell (centre c) (count c) v (file c) (order c).
Definition set_order (c : swift_cell_t) (v : Z) : swift_cell_t :=
  mk_cell (centre c) (count c) (offset c) (file c) v.

(** ** NumPy helpers *)

(** The comparison [np.lexsort((offset, file))] sorts by: [file] first, then
    [offset]. *)
Definition key_lt (a b : swift_cell_t) : bool :=
  (file a <? file b) || ((file a =? file b) && (offset a <? offset b)).

(** Insert index [i] into the sorted index list [sorted], before the first
    index whose key is not smaller: every index already there is larger than
    [i], so equal keys keep their original order (the sort is stable). *)
Fixpoint lexsort_insert (cells : list swift_cell_t) (i : nat) (sorted : list nat) : list nat :=
  match sorted with
  | [] => [i]
  | j :: rest =>
      match cells !! i, cells !! j with
      | Some ci, Some cj =>
          if key_lt cj ci then j :: lexsort_insert cells i rest else i :: j :: rest
      | _, _ => i :: j :: rest
      end
  end.

(** [np.lexsort((cells["offset"], cells["file"]))]: the indices of [cells] in
    ascending (file, offset) order, as the stable sort gives them. *)
Definition lexsort (cells : list swift_cell_t) : list nat :=
  foldr (lexsort_insert cells) [] (seq 0 (length cells)).

(** [a[idx]] for an index array: a new array. *)
Definition take_indices (cells : list swift_cell_t) (idx : list nat) : list swift_cell_t :=
  omap (fun i => cells !! i) idx.

(** [a[a["count"] > 0]] *)
Definition count_positive (c : swift_cell_t) : bool := 0 <? count c.
Definition discard_empty (cells : list swift_cell_t) : list swift_cell_t :=
  List.filter count_positive cells.

(** [np.unique] of a list of integers: the distinct values, ascending. *)
Fixpoint unique_insert (z : Z) (l : list Z) : list Z :=
  match l with
  | [] => [z]
  | y :: rest =>
      if z <? y then z :: y :: rest
      else if z =? y then y :: rest
      else y :: unique_insert z rest
  end.

Definition np_unique (l : list Z) : list Z := foldr unique_insert [] l.

(** ** The store of arrays *)

(** NumPy arrays are objects.  The store maps a location to the records of
    the array that lives there; a location is an index into the store. *)
Abbreviation store := (list (list swift_cell_t)) (only parsing).

(** Any expression that builds a new array (mask or index-array indexing,
    [flatten]) allocates. *)
Definition new_array (arr : list swift_cell_t) : M store nat :=
  fun h => Ok (length h, h ++ [arr]).

Definition read_array (a : nat) : M store (list swift_cell_t) :=
  fun h => match h !! a with
           | Some arr => Ok (arr, h)
           | None => Raise ValueError
           end.

(** [a[i][field]]: [a[i]] is a view of record [i], read when the field is. *)
Definition getfield (a i : nat) (field : swift_cell_t -> Z) : M store Z :=
  let* arr := read_array a in
  match arr !! i with
  | Some c => ret (field c)
  | None => raise IndexError
  end.

(** [a[i][field] = v]: the write goes through the view into array [a]. *)
Definition setfield (a i : nat) (upd : swift_cell_t -> Z -> swift_cell_t) (v : Z) : M store unit :=
  fun h => match h !! a with
           | Some arr =>
               match arr !! i with
               | Some c => Ok (tt, <[a := <[i := upd c v]> arr]> h)
               | None => Raise IndexError
               end
           | None => Raise ValueError
           end.

(** ** SWIFTCellGrid.__init__: the ordering of the cells (lines 201-206) *)

(** [for cell_order, cell_index in enumerate(idx): cellgrid[cell_index]["order"] = cell_order]
    The Python integer is cast to the int32 field. *)
Definition write_order (cellgrid : nat) (entry : nat * nat) : M store unit :=
  let '(cell_order, cell_index) := entry in
  setfield cellgrid cell_index set_order (wrap32 (Z.of_nat cell_order)).

Definition enumerate {A : Type} (l : list A) : list (nat * A) :=
  combine (seq 0 (length l)) l.

Definition determine_ordering (cellgrid : nat) : M store unit :=
  let* cells := read_array cellgrid in
  let idx := lexsort cells in
  for_each (enumerate idx) (write_order cellgrid).

(** ** The read planner: SWIFTCellGrid.prepare_read *)

(** A mask is a 3D boolean array. *)
Abbreviation mask_t := (list (list (list bool))) (only parsing).

Definition shape_is (dimension : Z * Z * Z) (mask : mask_t) : bool :=
  let '(d0, d1, d2) := dimension in
  (Z.of_nat (length mask) =? d0)
  && forallb (fun plane : list (list bool) =>
                (Z.of_nat (length plane) =? d1)
                && forallb (fun row : list bool => Z.of_nat (length row) =? d2) plane)
             mask.

(** The mask in C order, the order the reshaped cell array is stored in. *)
Definition ravel (mask : mask_t) : list bool := concat (concat mask).

Definition select (cells : list swift_cell_t) (flags : list bool) : list swift_cell_t :=
  map fst (List.filter snd (combine cells flags)).

(** [grid[mask]] for a boolean mask of the grid's shape: a new 1D array of
    the selected records, in C order. *)
Definition boolean_index (grid : nat) (dimension : Z * Z * Z) (mask : mask_t) : M store nat :=
  let* cells := read_array grid in
  if shape_is dimension mask && (length cells =? length (ravel mask))%nat
  then new_array (select cells (ravel mask))
  else raise IndexError.

Definition flatten (a : nat) : M store nat :=
  let* cells := read_array a in new_array cells.

(** [a[a["count"] > 0]] *)
Definition nonempty_cells (a : nat) : M store nat :=
  let* cells := read_array a in new_array (discard_empty cells).

(** [idx = np.lexsort((a["offset"], a["file"])); a[idx]] *)
Definition sorted_cells (a : nat) : M store nat :=
  let* cells := read_array a in new_array (take_indices cells (lexsort cells)).

Definition max_size : Z := 20 * 1024 ^ 2.

(** One iteration of the merge loop (lines 249-255).  [cell1] and [cell2]
    are views of records [cell_nr] and [cell_nr + 1] of [cells_to_read]. *)
Definition merge_cells (cap : Z) (cells_to_read : nat) (cell_nr : nat) : M store unit :=
  let cell1 := cell_nr in
  let cell2 := S cell_nr in
  let* file1 := getfield cells_to_read cell1 file in
  let* file2 := getfield cells_to_read cell2 file in
  let* offset1 := getfield cells_to_read cell1 offset in
  let* count1 := getfield cells_to_read cell1 count in
  let* offset2 := getfield cells_to_read cell2 offset in
  let* count2 := getfield cells_to_read cell2 count in
  if (file1 =? file2) && (wrap64 (offset1 + count1) =? offset2)
     && (wrap64 (count1 + count2) <=? cap)
  then
    let* c2 := getfield cells_to_read cell2 count in
    let* c1 := getfield cells_to_read cell1 count in
    do* setfield cells_to_read cell2 set_count (wrap64 (c2 + c1)) in
    let* o1 := getfield cells_to_read cell1 offset in
    do* setfield cells_to_read cell2 set_offset o1 in
    setfield cells_to_read cell1 set_count 0
  else ret tt.

(** [for cell_nr in range(nr_to_read-1): ...] with the cap as a parameter;
    [prepare_read] runs it with [max_size]. *)
Definition merge_adjacent (cap : Z) (cells_to_read : nat) : M store unit :=
  let* cells := read_array cells_to_read in
  let nr_to_read := length cells in
  for_each (seq 0 (nr_to_read - 1)) (merge_cells cap cells_to_read).

(** A read is a [(file_offset, memory_offset, count)] tuple. *)
Abbreviation read_t := (Z * Z * Z)%type (only parsing).

Definition append_read (acc : Z * gmap Z (list read_t)) (cell : swift_cell_t)
  : result (Z * gmap Z (list read_t)) :=
  let '(mem_offset, reads) := acc in
  match reads !! file cell with
  | Some l =>
      Ok (wrap64 (mem_offset + count cell),
          <[file cell := l ++ [(offset cell, mem_offset, count cell)]]> reads)
  | None => Raise KeyError
  end.

(** Lines 260-271: the dict of reads per file of the merged cells. *)
Definition make_reads (cells_to_read : list swift_cell_t) : result (gmap Z (list read_t)) :=
  let unique_file_nrs := np_unique (map file cells_to_read) in
  let reads : gmap Z (list read_t) :=
    list_to_map (map (fun file_nr => (file_nr, [])) unique_file_nrs) in
  let+ final := fold_result append_read cells_to_read (0, reads) in
  Ok (snd final).

(** ** SWIFTCellGrid *)

(** Metadata of one dataset: [(shape, dtype, units)]. *)
Record dataset_meta : Type := mk_meta {
  meta_shape : list Z;
  meta_dtype : string;
  meta_units : string
}.

(** ** ReadTask: the fields *)
Record ReadTask : Type := mk_task {
  task_file_name : string;
  task_ptype : string;
  task_dataset : string;
  task_file_offset : Z;
  task_mem_offset : Z;
  task_count : Z
}.

(** [property_names] is a dict from particle type to the list of dataset
    names to read; iterating it gives its keys in insertion order, so it is
    kept as the list of its items. *)
Abbreviation property_names_t := (list (string * list string)) (only parsing).

Abbreviation reads_for_type_t := (gmap string (gmap Z (list read_t))) (only parsing).

Section Grid.

(** Positions and cell sizes are unit-carrying float arrays; the code only
    forms [np.floor(pos / cell_size)] cast to an int64, per axis, which is
    [floor_ratio pos cell_size].  [format_file_nr pattern n] is
    [pattern % {"file_nr": n}]. *)
Context {quantity : Type}.
Context (floor_ratio : quantity -> quantity -> Z).
Context (format_file_nr : string -> Z -> string).

(** The attributes of a grid object that the methods below use.
    [cell] maps a particle type to the location of its cell array (stored
    flat, in C order; [dimension] is its shape after the reshape).
    [extra_metadata] exists only when [extra_filename] was given. *)
Record SWIFTCellGrid : Type := mk_grid {
  snap_filename : string;
  extra_filename : option string;
  dimension : Z * Z * Z;
  cell_size : quantity * quantity * quantity;
  cell : gmap string nat;
  snap_metadata : gmap string (gmap string dataset_meta);
  extra_metadata : option (gmap string (gmap string dataset_meta))
}.

Definition prepare_read (self : SWIFTCellGrid) (ptype : string) (mask : mask_t)
  : M store (gmap Z (list read_t)) :=
  match cell self !! ptype with
  | None => raise KeyError
  | Some grid =>
      (* Make an array of the selected cells *)
      let* selected := boolean_index grid (dimension self) mask in
      let* cells_to_read := flatten selected in
      (* Discard any empty cells *)
      let* cells_to_read := nonempty_cells cells_to_read in
      (* Sort the selected cells by file, and then by offset within the file *)
      let* cells_to_read := sorted_cells cells_to_read in
      (* Merge adjacent cells *)
      do* merge_adjacent max_size cells_to_read in
      (* Discard any cells which are now empty due to the merging *)
      let* cells_to_read := nonempty_cells cells_to_read in
      let* cells := read_array cells_to_read in
      lift_result (make_reads cells)
  end.

(** [np.zeros(self.dimension, dtype=np.bool)] *)
Definition empty_mask (self : SWIFTCellGrid) : mask_t :=
  let '(d0, d1, d2) := dimension self in
  replicate (Z.to_nat d0) (replicate (Z.to_nat d1) (replicate (Z.to_nat d2) false)).

(** NumPy indexing of one axis of length [len] by an integer: negative
    indices count from the end, anything else out of range raises. *)
Definition axis_index (len : nat) (i : Z) : result nat :=
  if (0 <=? i) && (i <? Z.of_nat len) then Ok (Z.to_nat i)
  else if (- Z.of_nat len <=? i) && (i <? 0) then Ok (Z.to_nat (Z.of_nat len + i))
  else Raise IndexError.

(** [i % d] for NumPy integers: the sign of the divisor, and 0 (with a
    warning) when the divisor is 0. *)
Definition np_mod (i d : Z) : Z := if d =? 0 then 0 else i mod d.

(** [mask[ii,jj,kk] = True] *)
Definition mask_set (mask : mask_t) (ii jj kk : Z) : result mask_t :=
  let+ i := axis_index (length mask) ii in
  match mask !! i with
  | None => Raise IndexError
  | Some plane =>
      let+ j := axis_index (length plane) jj in
      match plane !! j with
      | None => Raise IndexError
      | Some row =>
          let+ k := axis_index (length row) kk in
          Ok (<[i := <[j := <[k := true]> row]> plane]> mask)
      end
  end.

Definition mask_region (self : SWIFTCellGrid) (mask : mask_t)
    (pos_min pos_max : quantity * quantity * quantity) : result mask_t :=
  let '(d0, d1, d2) := dimension self in
  let '(s0, s1, s2) := cell_size self in
  let '(min0, min1, min2) := pos_min in
  let '(max0, max1, max2) := pos_max in
  let imin := (floor_ratio min0 s0, floor_ratio min1 s1, floor_ratio min2 s2) in
  let imax := (floor_ratio max0 s0, floor_ratio max1 s1, floor_ratio max2 s2) in
  fold_result (fun mask i =>
    let ii := np_mod i d0 in
    fold_result (fun mask j =>
      let jj := np_mod j d1 in
      fold_result (fun mask k =>
        let kk := np_mod k d2 in
        mask_set mask ii jj kk)
      (range (imin.2) (wrap64 (imax.2 + 1))) mask)
    (range (imin.1.2) (wrap64 (imax.1.2 + 1))) mask)
  (range (imin.1.1) (wrap64 (imax.1.1 + 1))) mask.

(** ** The orchestrator: read_masked_cells_to_shared_memory *)

Definition dict_get {K V : Type} `{Countable K} (d : gmap K V) (k : K) : result V :=
  match d !! k with
  | Some v => Ok v
  | None => Raise KeyError
  end.

(** [list(d)]: the keys of a dict. *)
Definition keys {V : Type} (d : gmap Z V) : list Z := (map_to_list d).*1.

Fixpoint fold_M {S A B : Type} (f : B -> A -> M S B) (xs : list A) (b : B) : M S B :=
  match xs with
  | [] => ret b
  | x :: rest => let* b' := f b x in fold_M f rest b'
  end.

(** Lines 296-299. *)
Definition plan_reads (self : SWIFTCellGrid) (property_names : property_names_t)
    (mask : mask_t) : M store reads_for_type_t :=
  fold_M (fun (reads_for_type : reads_for_type_t) (item : string * list string) =>
            let ptype := item.1 in
            let* reads := prepare_read self ptype mask in
            ret (<[ptype := reads]> reads_for_type))
         property_names ∅.

(** Lines 301-305. *)
Definition union_of_file_nrs (property_names : property_names_t)
    (reads_for_type : reads_for_type_t) : result (list Z) :=
  let+ all_file_nrs :=
    fold_result (fun (all_file_nrs : list Z) (item : string * list string) =>
                   let+ reads := dict_get reads_for_type item.1 in
                   Ok (all_file_nrs ++ keys reads))
                property_names [] in
  Ok (np_unique all_file_nrs).

(** Lines 307-312. *)
Definition count_particles (property_names : property_names_t)
    (reads_for_type : reads_for_type_t) (all_file_nrs : list Z) : result (gmap string Z) :=
  let nr_parts : gmap string Z :=
    list_to_map (map (fun item : string * list string => (item.1, 0)) property_names) in
  fold_result (fun nr_parts file_nr =>
    fold_result (fun nr_parts (item : string * list string) =>
      let ptype := item.1 in
      let+ reads := dict_get reads_for_type ptype in
      let+ ranges := dict_get reads file_nr in
      fold_result (fun (nr_parts : gmap string Z) (r : read_t) =>
        let+ n := dict_get nr_parts ptype in
        Ok (<[ptype := wrap64 (n + r.2)]> nr_parts))
      ranges nr_parts)
    property_names nr_parts)
  all_file_nrs nr_parts.

(** Lines 317-323 and 327-333: one pass of task creation over the files of
    [filename], testing [dataset in metadata]. *)
Definition create_tasks (filename : string) (metadata : gmap string (gmap string dataset_meta))
    (property_names : property_names_t) (reads_for_type : reads_for_type_t)
    (all_file_nrs : list Z) (all_tasks : list ReadTask) : result (list ReadTask) :=
  fold_result (fun all_tasks file_nr =>
    let filename := format_file_nr filename file_nr in
    fold_result (fun all_tasks (item : string * list string) =>
      let ptype := item.1 in
      fold_result (fun all_tasks dataset =>
        if bool_decide (is_Some (metadata !! dataset)) then
          let+ reads := dict_get reads_for_type ptype in
          let+ ranges := dict_get reads file_nr in
          Ok (all_tasks ++
              map (fun r : read_t => mk_task filename ptype dataset r.1.1 r.1.2 r.2) ranges)
        else Ok all_tasks)
      item.2 all_tasks)
    property_names all_tasks)
  all_file_nrs all_tasks.

(** [all_tasks.popleft()] *)
Definition popleft {A : Type} (q : list A) : result (A * list A) :=
  match q with
  | [] => Raise IndexError
  | x :: rest => Ok (x, rest)
  end.

(** [for _ in range(n): queue.append(all_tasks.popleft())] *)
Fixpoint move_tasks {A : Type} (n : nat) (all_tasks queue : list A) : result (list A * list A) :=
  match n with
  | O => Ok (all_tasks, queue)
  | S n' =>
      let+ popped := popleft all_tasks in
      move_tasks n' popped.2 (queue ++ [popped.1])
  end.

(** Lines 335-346: one queue per rank, filled from the front of [all_tasks]. *)
Definition share_tasks {A : Type} (all_tasks : list A) (comm_size : Z) : result (list (list A)) :=
  let nr_tasks := Z.of_nat (length all_tasks) in
  if comm_size =? 0 then Raise ZeroDivisionError else
  let tasks_per_rank := nr_tasks / comm_size in
  let+ final :=
    fold_result (fun (st : list A * list (list A)) rank =>
      let '(all_tasks, tasks) := st in
      let+ moved := move_tasks (Z.to_nat tasks_per_rank) all_tasks [] in
      let+ moved :=
        if rank <? nr_tasks mod comm_size
        then move_tasks 1 moved.1 moved.2
        else Ok moved in
      Ok (moved.1, tasks ++ [moved.2]))
    (range 0 comm_size) (all_tasks, []) in
  match final.1 with
  | [] => Ok final.2
  | _ :: _ => Raise AssertionError
  end.

(** Lines 358-360: the size of the local section of a shared array. *)
Definition nr_local (nr_parts comm_size comm_rank : Z) : result Z :=
  if comm_size =? 0 then Raise ZeroDivisionError else
  let nr_local := nr_parts / comm_size in
  Ok (if comm_rank <? nr_parts mod comm_size then nr_local + 1 else nr_local).

(** Lines 296-346 of [read_masked_cells_to_shared_memory]: everything up to
    the task queues, with the particle counts the shared arrays are sized
    from.  The allocation of the shared arrays, the execution of the queues
    and the barriers are the work of [shared_array], [task_queue] and MPI. *)
Definition read_masked_cells_to_shared_memory (self : SWIFTCellGrid)
    (property_names : property_names_t) (mask : mask_t) (comm_size : Z)
  : M store (list (list ReadTask) * gmap string Z) :=
  (* Make a list of all reads to execute for each particle type *)
  let* reads_for_type := plan_reads self property_names mask in
  lift_result (
    (* Find union of file numbers to read for all particle types *)
    let+ all_file_nrs := union_of_file_nrs property_names reads_for_type in
    (* Count particles to read in *)
    let+ nr_parts := count_particles property_names reads_for_type all_file_nrs in
    (* Create read tasks in the required order *)
    let+ all_tasks :=
      create_tasks (snap_filename self) (snap_metadata self)
                   property_names reads_for_type all_file_nrs [] in
    (* Create additional read tasks for the extra data files *)
    let+ all_tasks :=
      match extra_filename self with
      | None => Ok all_tasks
      | Some extra =>
          match extra_metadata self with
          | Some metadata =>
              create_tasks extra metadata property_names reads_for_type all_file_nrs all_tasks
          | None => Raise AttributeError
          end
      end in
    (* Share tasks over the task queues roughly equally by number *)
    let+ tasks := share_tasks all_tasks comm_size in
    Ok (tasks, nr_parts)).

End Grid.

(** ** The HDF5 library, as the cache and the tasks use it *)

(** One row of a dataset (its trailing dimensions flattened). *)
Abbreviation row := (list Z) (only parsing).

(** An h5py Dataset object: the file handle it was resolved from and its
    path in that file. *)
Record dataset_handle : Type := mk_dataset {
  ds_file : nat;
  ds_path : string
}.

(** What happens to the library: the calls [h5py.File], [close] and
    [infile[path]], and the release of a File object nothing refers to any
    more. *)
Inductive h5_event : Type :=
| EvOpen (fid : nat) (name : string)
| EvClose (fid : nat)
| EvLookup (fid : nat) (path : string)
| EvRelease (fid : nat).

(** The files on disk (read-only: a file is a map from dataset path to
    rows), the File objects that are open, the next handle, and the log of
    the events.  A File object leaves [h5_open] when [close] is called on
    it, or when its last reference is dropped: CPython frees an object with
    its last reference, and h5py closes a file once the File object and the
    objects resolved from it are freed. *)
Record h5_world : Type := mk_world {
  h5_files : gmap string (gmap string (list row));
  h5_open : gmap nat string;
  h5_next : nat;
  h5_log : list h5_event
}.

Module DatasetCache.

Record t : Type := mk {
  file_name : option string;
  infile : option nat;
  dataset_name : option string;
  dataset : option dataset_handle
}.

(** [__init__] *)
Definition init : t := mk None None None None.

End DatasetCache.

(** The state of one worker process: the destination arrays
    [data[ptype][name].full.value], its cache, and the HDF5 world. *)
Record proc : Type := mk_proc {
  p_data : gmap string (gmap string (list row));
  p_cache : DatasetCache.t;
  p_world : h5_world
}.

Definition get_cache : M proc DatasetCache.t := fun p => Ok (p_cache p, p).
Definition set_cache (c : DatasetCache.t) : M proc unit :=
  fun p => Ok (tt, mk_proc (p_data p) c (p_world p)).
Definition set_world (w : h5_world) : M proc unit :=
  fun p => Ok (tt, mk_proc (p_data p) (p_cache p) w).

(** [h5py.File(file_name, "r", ...)] *)
Definition h5py_File (name : string) : M proc nat :=
  fun p =>
    let w := p_world p in
    match h5_files w !! name with
    | None => Raise OSError
    | Some _ =>
        let fid := h5_next w in
        Ok (fid, mk_proc (p_data p) (p_cache p)
                   (mk_world (h5_files w) (<[fid := name]> (h5_open w)) (S fid)
                             (h5_log w ++ [EvOpen fid name])))
    end.

(** [infile.close()] *)
Definition h5_close (fid : nat) : M proc unit :=
  fun p =>
    let w := p_world p in
    Ok (tt, mk_proc (p_data p) (p_cache p)
              (mk_world (h5_files w) (delete fid (h5_open w)) (h5_next w)
                        (h5_log w ++ [EvClose fid]))).

(** [infile[dataset_name]] *)
Definition h5_getitem (fid : nat) (path : string) : M proc dataset_handle :=
  fun p =>
    let w := p_world p in
    match h5_open w !! fid with
    | None => Raise ValueError
    | Some name =>
        match h5_files w !! name ≫= (fun f => f !! path) with
        | None => Raise KeyError
        | Some _ =>
            Ok (mk_dataset fid path,
                mk_proc (p_data p) (p_cache p)
                  (mk_world (h5_files w) (h5_open w) (h5_next w)
                            (h5_log w ++ [EvLookup fid path])))
        end
    end.

(** The rows behind a dataset handle (its file must still be open). *)
Definition h5_rows (w : h5_world) (d : dataset_handle) : result (list row) :=
  match h5_open w !! ds_file d with
  | None => Raise ValueError
  | Some name =>
      match h5_files w !! name ≫= (fun f => f !! ds_path d) with
      | None => Raise KeyError
      | Some rows => Ok rows
      end
  end.

(** [slice(start, stop).indices(length)], one bound: a bound below zero
    counts from the end, and every bound is clipped to the array. *)
Definition slice_bound (length x : Z) : Z :=
  if x <? 0 then Z.max 0 (x + length) else Z.min x length.

(** The rows [np.s_[start:stop, ...]] selects in an array of [length] rows,
    as h5py resolves the slice: the first row and the number of rows; a stop
    before the start selects nothing. *)
Definition select_rows (length start stop : Z) : Z * Z :=
  let start := slice_bound length start in
  let stop := slice_bound length stop in
  if stop <? start then (0, 0) else (start, stop - start).

(** The rows read, as the destination selection of [count] rows takes them:
    as many rows as it has, or one row for all of them; other numbers of
    rows cannot be broadcast. *)
Definition broadcast_rows (rows : list row) (count : nat) : result (list row) :=
  if (length rows =? count)%nat then Ok rows
  else match rows with
       | [r] => Ok (replicate count r)
       | _ => Raise TypeError
       end.

(** [dataset.read_direct(dest, np.s_[file_start:file_end,...], np.s_[mem_start:mem_end,...])]:
    the rows of the source selection are written to the rows of the
    destination selection.  The two arrays have the same trailing
    dimensions (the destination is allocated with the shape of the dataset),
    so that a row is copied whole. *)
Definition read_direct (source dest : list row) (file_start file_end mem_start mem_end : Z)
  : result (list row) :=
  let source_sel := select_rows (Z.of_nat (length source)) file_start file_end in
  let dest_sel := select_rows (Z.of_nat (length dest)) mem_start mem_end in
  let rows := take (Z.to_nat source_sel.2) (drop (Z.to_nat source_sel.1) source) in
  let+ rows := broadcast_rows rows (Z.to_nat dest_sel.2) in
  Ok (take (Z.to_nat dest_sel.1) dest ++ rows
      ++ drop (Z.to_nat (dest_sel.1 + dest_sel.2)) dest).

(** ** DatasetCache.open_dataset and close *)

(** The File object [fid] is freed: its file is closed, unless [close] has
    closed it before. *)
Definition h5_release (fid : nat) : M proc unit :=
  fun p =>
    let w := p_world p in
    match h5_open w !! fid with
    | Some _ =>
        Ok (tt, mk_proc (p_data p) (p_cache p)
                  (mk_world (h5_files w) (delete fid (h5_open w)) (h5_next w)
                            (h5_log w ++ [EvRelease fid])))
    | None => Ok (tt, p)
    end.

(** Lines 44 and 47 bind [self.infile] to the File object [infile] and
    [self.dataset] to None.  The cache holds the only references to the File
    object and to the Dataset object it had ([ReadTask.__call__], its only
    caller, keeps the dataset in a local variable that is gone when it
    returns), so both are freed, unless the File object is [infile]
    itself. *)
Definition drop_file (held : option nat) (infile : nat) : M proc unit :=
  match held with
  | Some old => if bool_decide (old ≠ infile) then h5_release old else ret tt
  | None => ret tt
  end.

Definition open_dataset (file_name dataset_name : string) : M proc (option dataset_handle) :=
  let* self := get_cache in
  do* (if bool_decide (Some file_name ≠ DatasetCache.file_name self) then
         let* infile := h5py_File file_name in
         do* set_cache (DatasetCache.mk (Some file_name) (Some infile) None None) in
         drop_file (DatasetCache.infile self) infile
       else ret tt) in
  let* self := get_cache in
  do* (if bool_decide (Some dataset_name ≠ DatasetCache.dataset_name self) then
         match DatasetCache.infile self with
         | None => raise TypeError
         | Some infile =>
             let* dataset := h5_getitem infile dataset_name in
             set_cache (DatasetCache.mk (DatasetCache.file_name self) (Some infile)
                                        (Some dataset_name) (Some dataset))
         end
       else ret tt) in
  let* self := get_cache in
  ret (DatasetCache.dataset self).

Definition close : M proc unit :=
  let* self := get_cache in
  do* (match DatasetCache.infile self with
       | Some infile => h5_close infile
       | None => ret tt
       end) in
  set_cache (DatasetCache.mk None (DatasetCache.infile self) None None).

(** ** ReadTask.__call__ *)

Definition ReadTask_call (self : ReadTask) : M proc unit :=
  (* Find the dataset *)
  let dataset_name := (task_ptype self ++ "/" ++ task_dataset self)%string in
  let* dataset := open_dataset (task_file_name self) dataset_name in
  (* Read the data *)
  let mem_start := task_mem_offset self in
  let mem_end := wrap64 (task_mem_offset self + task_count self) in
  let file_start := task_file_offset self in
  let file_end := wrap64 (task_file_offset self + task_count self) in
  fun p =>
    match dataset with
    | None => Raise AttributeError
    | Some dataset =>
        let+ arrays := dict_get (p_data p) (task_ptype self) in
        let+ dest := dict_get arrays (task_dataset self) in
        let+ source := h5_rows (p_world p) dataset in
        let+ dest' := read_direct source dest file_start file_end mem_start mem_end in
        Ok (tt, mk_proc (<[task_ptype self := <[task_dataset self := dest']> arrays]> (p_data p))
                        (p_cache p) (p_world p))
    end.

(** ** Vocabulary of the statements *)

(** The number of tasks rank [rank] receives. *)
Definition share_size (nr_tasks comm_size rank : Z) : Z :=
  nr_tasks / comm_size + (if rank <? nr_tasks mod comm_size then 1 else 0).

Fixpoint sum_Z (l : list Z) : Z :=
  match l with
  | [] => 0
  | x :: rest => x + sum_Z rest
  end.


(** [mask[a, b, c]], false outside the array. *)
Definition mask_at (mask : mask_t) (a b c : nat) : bool :=
  match mask !! a with
  | Some plane =>
      match plane !! b with
      | Some row => default false (row !! c)
      | None => false
      end
  | None => false
  end.

(** A mask of shape [dimension], as a proposition. *)
Definition rect (dimension : Z * Z * Z) (mask : mask_t) : Prop :=
  Z.of_nat (length mask) = dimension.1.1
  /\ Forall (fun plane : list (list bool) =>
               Z.of_nat (length plane) = dimension.1.2
               /\ Forall (fun row : list bool => Z.of_nat (length row) = dimension.2) plane)
            mask.

(** Grid index [(a, b, c)] is the image of an index triple in the inclusive
    box [imin .. imax], each axis reduced modulo the grid dimension. *)
Definition covered (dimension imin imax : Z * Z * Z) (a b c : nat) : Prop :=
  exists i j k,
    (imin.1.1 <= i <= imax.1.1 /\ imin.1.2 <= j <= imax.1.2 /\ imin.2 <= k <= imax.2)
    /\ Z.of_nat a = i mod dimension.1.1
    /\ Z.of_nat b = j mod dimension.1.2
    /\ Z.of_nat c = k mod dimension.2.

(** [np.floor(pos / cell_size)] cast to integers, axis by axis. *)
Definition floor_index {quantity : Type} (floor_ratio : quantity -> quantity -> Z)
    (cell_size pos : quantity * quantity * quantity) : Z * Z * Z :=
  (floor_ratio pos.1.1 cell_size.1.1,
   floor_ratio pos.1.2 cell_size.1.2,
   floor_ratio pos.2 cell_size.2).

(** The end [imax + 1] of each index range is an int64 value. *)
Definition index_ok (imax : Z * Z * Z) : Prop :=
  int64_ok (imax.1.1 + 1) /\ int64_ok (imax.1.2 + 1) /\ int64_ok (imax.2 + 1).

(** A 2 x 2 x 2 grid of cells of size 10, with no particle data attached. *)
Definition small_grid : @SWIFTCellGrid Z :=
  mk_grid "snap_%(file_nr)d.hdf5" None (2, 2, 2) (10, 10, 10) ∅ ∅ None.

(** Two snapshot files with the masses of four particles each; the second
    one has their positions too. *)
Definition two_files : gmap string (gmap string (list row)) :=
  {[ "snap_0.hdf5" := {[ "PartType0/Masses" := [[10]; [11]; [12]; [13]] ]};
     "snap_1.hdf5" := {[ "PartType0/Masses" := [[20]; [21]; [22]; [23]];
                         "PartType0/Coordinates" :=
                           [[0; 0; 1]; [0; 1; 0]; [1; 0; 0]; [1; 1; 1]] ]} ]}.

(** A worker that has opened nothing yet, with one destination array of
    three rows. *)
Definition fresh_proc : proc :=
  mk_proc {[ "PartType0" := {[ "Masses" := [[0]; [0]; [0]] ]} ]}
          DatasetCache.init
          (mk_world two_files ∅ 0 []).

(** [data[ptype][name].full.value] *)
Definition buffer (p : proc) (ptype name : string) : option (list row) :=
  p_data p !! ptype ≫= (fun arrays => arrays !! name).

(** A worker whose cache holds the masses of file 0, in handle 0. *)
Definition warm_proc : proc :=
  mk_proc {[ "PartType0" := {[ "Masses" := [[0]; [0]; [0]] ]} ]}
          (DatasetCache.mk (Some "snap_0.hdf5") (Some 0%nat) (Some "PartType0/Masses")
                           (Some (mk_dataset 0 "PartType0/Masses")))
          (mk_world two_files {[ 0%nat := "snap_0.hdf5" ]} 1
                    [EvOpen 0 "snap_0.hdf5"; EvLookup 0 "PartType0/Masses"]).

(** The File object that is freed when the cache, in state [c], takes the
    handle [fid]: the one it holds, if it is another one and still open. *)
Definition dropped (c : DatasetCache.t) (w : h5_world) (fid : nat) : list nat :=
  match DatasetCache.infile c with
  | Some old =>
      if bool_decide (old ≠ fid) && bool_decide (is_Some (h5_open w !! old))
      then [old] else []
  | None => []
  end.

(** Among the events of a request, handle [old] is closed, by [close] or by
    its release, before any file is opened. *)
Definition closes_before_opening (old : nat) (events : list h5_event) : Prop :=
  exists before after,
    events = before ++ after
    /\ (EvClose old ∈ before \/ EvRelease old ∈ before)
    /\ forall fid name, EvOpen fid name ∉ before.

(** Row [i] is one of the rows [np.s_[start:stop]] selects in an array of
    [length] rows. *)
Definition in_slice (length start stop : Z) (i : nat) : Prop :=
  let sel := select_rows length start stop in
  sel.1 <= Z.of_nat i < sel.1 + sel.2.

(** The ranges of task [t] lie within the dataset [source] and the
    destination array [dest], arrays of fewer than 2^63 rows. *)
Definition task_in_range (t : ReadTask) (source dest : list row) : Prop :=
  0 <= task_count t /\ 0 <= task_file_offset t /\ 0 <= task_mem_offset t
  /\ task_file_offset t + task_count t <= Z.of_nat (length source)
  /\ task_mem_offset t + task_count t <= Z.of_nat (length dest)
  /\ Z.of_nat (length source) < 2 ^ 63 /\ Z.of_nat (length dest) < 2 ^ 63.

(** Copy rows 1 and 2 of the masses in file 0 to rows 0 and 1 of the
    destination array. *)
Definition masses_task : ReadTask :=
  mk_task "snap_0.hdf5" "PartType0" "Masses" 1 0 2.

(** The test of the merge loop (line 251). *)
Definition mergeable (cap : Z) (cell1 cell2 : swift_cell_t) : bool :=
  (file cell1 =? file cell2)
  && (wrap64 (offset cell1 + count cell1) =? offset cell2)
  && (wrap64 (count cell1 + count cell2) <=? cap).

(** [cell2] after it took the particles of [cell1] (lines 253-254). *)
Definition absorb (cell1 cell2 : swift_cell_t) : swift_cell_t :=
  set_offset (set_count cell2 (wrap64 (count cell2 + count cell1))) (offset cell1).

(** One iteration of the merge loop, on the array the views point into. *)
Definition merge_step (cap : Z) (arr : list swift_cell_t) (cell_nr : nat) : list swift_cell_t :=
  match arr !! cell_nr, arr !! S cell_nr with
  | Some cell1, Some cell2 =>
      if mergeable cap cell1 cell2
      then <[cell_nr := set_count cell1 0]> (<[S cell_nr := absorb cell1 cell2]> arr)
      else arr
  | _, _ => arr
  end.

(** The array after the whole loop. *)
Definition merge_array (cap : Z) (arr : list swift_cell_t) : list swift_cell_t :=
  fold_left (merge_step cap) (seq 0 (length arr - 1)) arr.

(** The same pass read from left to right: [cell1] is the cell the loop is
    at, already holding what it absorbed from its left. *)
Fixpoint merge_from (cap : Z) (cell1 : swift_cell_t) (rest : list swift_cell_t)
  : list swift_cell_t :=
  match rest with
  | [] => [cell1]
  | cell2 :: rest' =>
      if mergeable cap cell1 cell2
      then set_count cell1 0 :: merge_from cap (absorb cell1 cell2) rest'
      else cell1 :: merge_from cap cell2 rest'
  end.

(** Three cells of one file, five particles each, stored one after the
    other. *)
Definition adjacent_fives (cell1 cell2 cell3 : swift_cell_t) : Prop :=
  file cell2 = file cell1 /\ file cell3 = file cell1
  /\ count cell1 = 5 /\ count cell2 = 5 /\ count cell3 = 5
  /\ offset cell2 = offset cell1 + 5 /\ offset cell3 = offset cell1 + 10
  /\ int64_ok (offset cell1) /\ int64_ok (offset cell3).

(** Three such cells, in file 2 from offset 100 on. *)
Definition five_at (o : Z) : swift_cell_t := mk_cell (0, 0, 0) 5 o 2 0.

(** Cell [i] comes before cell [j] in the snapshot: its file is smaller, or
    the files agree and its offset is smaller, or both agree and [i] is the
    smaller index (the order a stable sort by (file, offset) lists them in). *)
Definition before (cells : list swift_cell_t) (i j : nat) : Prop :=
  exists ci cj,
    cells !! i = Some ci /\ cells !! j = Some cj
    /\ (file ci < file cj
        \/ (file ci = file cj
            /\ (offset ci < offset cj \/ (offset ci = offset cj /\ (i < j)%nat)))).

(** One write of the ordering loop, on the array itself. *)
Definition assign_order (arr : list swift_cell_t) (entry : nat * nat) : list swift_cell_t :=
  match arr !! entry.2 with
  | Some c => <[entry.2 := set_order c (wrap32 (Z.of_nat entry.1))]> arr
  | None => arr
  end.

(** The array after the ordering loop. *)
Definition ordered_cells (cells : list swift_cell_t) : list swift_cell_t :=
  fold_left assign_order (enumerate (lexsort cells)) cells.

(** The cells [prepare_read] builds its reads from: the selected cells,
    without the empty ones, sorted, merged, and without the emptied ones. *)
Definition planned_cells (cap : Z) (cells : list swift_cell_t) (mask : mask_t)
  : list swift_cell_t :=
  let nonempty := discard_empty (select cells (ravel mask)) in
  discard_empty (merge_array cap (take_indices nonempty (lexsort nonempty))).

(** The arrays [prepare_read] allocates, in order of allocation. *)
Definition working_arrays (cap : Z) (cells : list swift_cell_t) (mask : mask_t)
  : list (list swift_cell_t) :=
  let selected := select cells (ravel mask) in
  let nonempty := discard_empty selected in
  let merged := merge_array cap (take_indices nonempty (lexsort nonempty)) in
  [selected; selected; nonempty; merged; discard_empty merged].

(** A grid of 1 x 1 x 3 cells of one particle type, whose cell array is at
    location 0 of the store: three adjacent cells of five particles. *)
Definition line_grid : @SWIFTCellGrid Z :=
  mk_grid "snap_%(file_nr)d.hdf5" None (1, 1, 3) (10, 10, 10)
          {[ "PartType0" := 0%nat ]} ∅ None.

Definition line_cells : list swift_cell_t := [five_at 100; five_at 105; five_at 110].

(** The reads of a list of cells, each with the file it is in, as the loop
    of lines 267-269 builds them: the memory offset runs from [mem_offset]. *)
Fixpoint with_offsets (mem_offset : Z) (cells : list swift_cell_t) : list (Z * read_t) :=
  match cells with
  | [] => []
  | c :: rest =>
      (file c, (offset c, mem_offset, count c))
      :: with_offsets (wrap64 (mem_offset + count c)) rest
  end.

(** The reads of file [file_nr] among reads listed with their files. *)
Definition reads_of_file (file_nr : Z) (l : list (Z * read_t)) : list read_t :=
  map snd (List.filter (fun x : Z * read_t => x.1 =? file_nr) l).

(** The reads of a dict of reads, file by file in ascending file number,
    each with the file number it is stored under. *)
Definition reads_in_file_order (reads : gmap Z (list read_t)) : list (Z * read_t) :=
  concat (map (fun file_nr => map (pair file_nr) (default [] (reads !! file_nr)))
              (np_unique (keys reads))).

(** The memory ranges of the reads tile [[start, stop)]: each starts where
    the one before ended, and none is empty. *)
Fixpoint contiguous (start : Z) (reads : list read_t) (stop : Z) : Prop :=
  match reads with
  | [] => start = stop
  | r :: rest => r.1.2 = start /\ 0 < r.2 /\ contiguous (start + r.2) rest stop
  end.

(** (file, file offset) of the first read is not after that of the second. *)
Definition read_le (x y : Z * read_t) : Prop :=
  x.1 < y.1 \/ (x.1 = y.1 /\ x.2.1.1 <= y.2.1.1).

(** The same order on cells. *)
Definition cell_le (a b : swift_cell_t) : Prop :=
  file a < file b \/ (file a = file b /\ offset a <= offset b).

(** A grid of 1 x 1 x 4 cells over two files: an empty cell and a cell of
    four particles in file 0, two adjacent cells of four particles in file 1. *)
Definition two_file_grid : @SWIFTCellGrid Z :=
  mk_grid "snap_%(file_nr)d.hdf5" None (1, 1, 4) (10, 10, 10)
          {[ "PartType0" := 0%nat ]} ∅ None.

Definition two_file_cells : list swift_cell_t :=
  [mk_cell (0, 0, 0) 4 4 1 0; mk_cell (0, 0, 0) 0 4 0 0;
   mk_cell (0, 0, 0) 4 0 0 0; mk_cell (0, 0, 0) 4 0 1 0].

(** File names for the examples: the pattern followed by the file number. *)
Definition numbered (pattern : string) (file_nr : Z) : string :=
  (pattern ++ "." ++ pretty file_nr)%string.

(** What the examples look at in the outcome of the orchestrator: the task
    queues and the particle counts. *)
Definition outcome (r : result (list (list ReadTask) * gmap string Z * store))
  : result (list (list ReadTask) * list (string * Z)) :=
  match r with
  | Ok (plan, _) => Ok (plan.1, map_to_list plan.2)
  | Raise e => Raise e
  end.

(** One cell of five gas particles in file 0; the snapshot metadata lists
    the dataset [Masses] of [PartType0]. *)
Definition masses_grid : @SWIFTCellGrid Z :=
  mk_grid "snap" None (1, 1, 1) (10, 10, 10)
          {[ "PartType0" := 0%nat ]}
          {[ "PartType0" := {[ "Masses" := mk_meta [] "float32" "Msun" ]} ]}
          None.

Definition masses_store : list (list swift_cell_t) := [[mk_cell (0, 0, 0) 5 0 0 0]].

(** Two particle types in one cell: the five gas particles are in file 0,
    the three stars in file 1. *)
Definition gas_and_stars_grid : @SWIFTCellGrid Z :=
  mk_grid "snap" None (1, 1, 1) (10, 10, 10)
          {[ "PartType0" := 0%nat; "PartType4" := 1%nat ]}
          {[ "PartType0" := {[ "Masses" := mk_meta [] "float32" "Msun" ]};
             "PartType4" := {[ "Masses" := mk_meta [] "float32" "Msun" ]} ]}
          None.

Definition gas_and_stars_store : list (list swift_cell_t) :=
  [[mk_cell (0, 0, 0) 5 0 0 0]; [mk_cell (0, 0, 0) 3 0 1 0]].

(** Gas and dark matter in a row of four cells over two files, with extra
    files.  The keys of the two metadata dicts are particle types. *)
Definition busy_grid : @SWIFTCellGrid Z :=
  mk_grid "snap" (Some "extra") (1, 1, 4) (10, 10, 10)
          {[ "PartType0" := 0%nat; "PartType1" := 1%nat ]}
          {[ "PartType0" := {[ "Masses" := mk_meta [] "float32" "Msun" ]};
             "PartType1" := {[ "Masses" := mk_meta [] "float32" "Msun" ]} ]}
          (Some {[ "PartType1" := {[ "Potentials" := mk_meta [] "float32" "km2/s2" ]} ]}).

Definition busy_store : list (list swift_cell_t) :=
  [[mk_cell (0, 0, 0) 2 0 0 0; mk_cell (0, 0, 0) 1 5 0 1;
    mk_cell (0, 0, 0) 3 0 1 2; mk_cell (0, 0, 0) 1 3 1 3];
   [mk_cell (0, 0, 0) 1 0 0 0; mk_cell (0, 0, 0) 0 1 0 1;
    mk_cell (0, 0, 0) 2 2 1 2; mk_cell (0, 0, 0) 1 7 1 3]].

(** A request for three datasets of the gas and one of the dark matter. *)
Definition busy_request : list (string * list string) :=
  [("PartType0", ["PartType1"; "Masses"; "PartType0"]); ("PartType1", ["PartType1"])].

(** The reads planned for the whole of [busy_grid]. *)
Definition busy_reads : gmap string (gmap Z (list (Z * Z * Z))) :=
  {[ "PartType0" := {[ 0 := [(0, 0, 2); (5, 2, 1)]; 1 := [(0, 3, 4)] ]};
     "PartType1" := {[ 0 := [(0, 0, 1)]; 1 := [(2, 1, 2); (7, 3, 1)] ]} ]}.

(** What the examples show of a task: its file, particle type, dataset and
    file offset. *)
Definition brief (t : ReadTask) : string * string * string * Z :=
  (task_file_name t, task_ptype t, task_dataset t, task_file_offset t).

(** ** Vocabulary of the further properties *)

(** Record [x] of file [f] is one of the particles of cell [c]. *)
Definition in_cell (f x : Z) (c : swift_cell_t) : Prop :=
  file c = f /\ offset c <= x < offset c + count c.

(** Record [x] is one of the records read [r] copies. *)
Definition in_read (x : Z) (r : read_t) : Prop :=
  r.1.1 <= x < r.1.1 + r.2.

(** The fields a cell of a snapshot has: a count that is not negative, and
    an end [offset + count] that is an int64 value. *)
Definition cell_in_range (c : swift_cell_t) : Prop :=
  0 <= count c /\ int64_ok (offset c + count c).

(** Cell [c] holds particles, and they are in file [f]. *)
Definition has_file (f : Z) (c : swift_cell_t) : Prop :=
  file c = f /\ 0 < count c.

(** The calls a worker makes on its cache: a request for a dataset, [close],
    and the run of a task. *)
Inductive cache_op : Type :=
| OpOpen (file_name dataset_name : string)
| OpClose
| OpTask (task : ReadTask).

Definition run_op (op : cache_op) : M proc unit :=
  match op with
  | OpOpen file_name dataset_name =>
      let* _ := open_dataset file_name dataset_name in ret tt
  | OpClose => close
  | OpTask task => ReadTask_call task
  end.

(** A sequence of such calls, one after the other. *)
Definition run_ops (ops : list cache_op) : M proc unit := for_each ops run_op.

(** The cache agrees with the HDF5 library: the file it names is the one
    its handle is open on, and the dataset it names is the one its dataset
    handle was resolved to, in that file. *)
Definition cache_ok (p : proc) : Prop :=
  let c := p_cache p in
  let w := p_world p in
  match DatasetCache.file_name c with
  | None => DatasetCache.dataset_name c = None
  | Some f =>
      exists fid,
        DatasetCache.infile c = Some fid /\ h5_open w !! fid = Some f
        /\ match DatasetCache.dataset_name c with
           | None => True
           | Some d =>
               DatasetCache.dataset c = Some (mk_dataset fid d)
               /\ is_Some (h5_files w !! f ≫= (fun file => file !! d))
           end
  end.

(** The number of [h5py.File] calls in a log. *)
Definition opens (log : list h5_event) : nat :=
  length (List.filter (fun e => match e with EvOpen _ _ => true | _ => false end) log).

(** The number of places in a sequence of file names where the name differs
    from the one before it, [current] being the name before the first. *)
Fixpoint switches (current : option string) (names : list string) : nat :=
  match names with
  | [] => 0
  | name :: rest =>
      ((if bool_decide (Some name ≠ current) then 1 else 0) + switches (Some name) rest)%nat
  end.

(** [reads_for_type[ptype][file_nr]], empty where there is none. *)
Definition ranges_of (reads_for_type : reads_for_type_t) (ptype : string) (file_nr : Z)
  : list read_t :=
  default [] (reads_for_type !! ptype ≫= (fun reads => reads !! file_nr)).

(** The particles the planned reads of [ptype] hold in the files
    [all_file_nrs]. *)
Definition planned_count (reads_for_type : reads_for_type_t) (ptype : string)
    (all_file_nrs : list Z) : Z :=
  sum_Z (map (fun file_nr => sum_Z (map (fun r : read_t => r.2)
                                        (ranges_of reads_for_type ptype file_nr)))
             all_file_nrs).

(** The tasks of one pass of task creation, as a list: by file, then by
    particle type, then by dataset, then by range. *)
Definition tasks_of (format_file_nr : string -> Z -> string) (filename : string)
    (metadata : gmap string (gmap string dataset_meta))
    (property_names : property_names_t) (reads_for_type : reads_for_type_t)
    (all_file_nrs : list Z) : list ReadTask :=
  flat_map (fun file_nr =>
    flat_map (fun item : string * list string =>
      flat_map (fun dataset =>
        if bool_decide (is_Some (metadata !! dataset))
        then map (fun r : read_t =>
                    mk_task (format_file_nr filename file_nr) item.1 dataset r.1.1 r.1.2 r.2)
                 (ranges_of reads_for_type item.1 file_nr)
        else [])
      item.2)
    property_names)
  all_file_nrs.

(** ** identify_datasets (lines 93-125) *)

(** A dataset of a snapshot-like file, as the scan looks at it: its
    attributes, its shape and its dtype. *)
Record h5_dset : Type := mk_dset {
  dset_attrs : gmap string string;
  dset_shape : list Z;
  dset_dtype : string
}.

(** A group of such a file: its array attributes and its datasets. *)
Record h5_group : Type := mk_group {
  group_attrs : gmap string (list Z);
  group_members : gmap string h5_dset
}.

(** The files the scan reads (a file is a map from group name to group), the
    handles that are open, the next handle and the log of the calls. *)
Record scan_world : Type := mk_scan {
  sw_files : gmap string (gmap string h5_group);
  sw_open : gmap nat string;
  sw_next : nat;
  sw_log : list h5_event
}.

(** [h5py.File(name, "r")] *)
Definition scan_open (name : string) : M scan_world nat :=
  fun w =>
    match sw_files w !! name with
    | None => Raise OSError
    | Some _ =>
        let fid := sw_next w in
        Ok (fid, mk_scan (sw_files w) (<[fid := name]> (sw_open w)) (S fid)
                         (sw_log w ++ [EvOpen fid name]))
    end.

(** [infile.close()] *)
Definition scan_close (fid : nat) : M scan_world unit :=
  fun w =>
    Ok (tt, mk_scan (sw_files w) (delete fid (sw_open w)) (sw_next w)
                    (sw_log w ++ [EvClose fid])).

(** The groups behind an open handle. *)
Definition scan_groups (fid : nat) : M scan_world (gmap string h5_group) :=
  fun w =>
    match sw_open w !! fid ≫= (fun name => sw_files w !! name) with
    | None => Raise ValueError
    | Some groups => Ok (groups, w)
    end.

(** [a[0]] *)
Definition first_item (a : list Z) : result Z :=
  match a with
  | [] => Raise IndexError
  | x :: _ => Ok x
  end.

Section Scan.

Context (format_file_nr : string -> Z -> string).
Context (units_from_attributes : h5_dset -> string).
Context (newbyteorder : string -> string).

(** Lines 111-116: the datasets of a group that carry the attribute
    [a-scale exponent] are entered under [metadata[ptype]]. *)
Definition enter_datasets (ptype : string) (members : gmap string h5_dset)
    (metadata : gmap string (gmap string dataset_meta))
  : result (gmap string (gmap string dataset_meta)) :=
  fold_result (fun metadata (item : string * h5_dset) =>
    let '(name, dset) := item in
    if bool_decide (is_Some (dset_attrs dset !! "a-scale exponent")) then
      let units := units_from_attributes dset in
      let dtype := newbyteorder (dset_dtype dset) in
      let+ found := dict_get metadata ptype in
      Ok (<[ptype := <[name := mk_meta (tail (dset_shape dset)) dtype units]> found]> metadata)
    else Ok metadata)
  (map_to_list members) metadata.

(** Lines 107-119: one particle type in one file. *)
Definition scan_type (groups : gmap string h5_group)
    (st : gmap string (gmap string dataset_meta) * gmap string bool * Z) (ptype : string)
  : result (gmap string (gmap string dataset_meta) * gmap string bool * Z) :=
  let '(metadata, to_find, nr_left) := st in
  let+ wanted := dict_get to_find ptype in
  if wanted : bool then
    let group_name := ptype in
    match groups !! group_name with
    | Some group =>
        let+ number := dict_get (group_attrs group) "NumberOfParticles" in
        let+ first := first_item number in
        if 0 <? first then
          let+ metadata := enter_datasets ptype (group_members group) metadata in
          Ok (metadata, <[ptype := false]> to_find, nr_left)
        else Ok (metadata, to_find, nr_left + 1)
    | None => Ok (metadata, to_find, nr_left + 1)
    end
  else Ok (metadata, to_find, nr_left).

(** Lines 104-123: the loop over the files, left when a file leaves no
    particle type to find. *)
Fixpoint scan_files (filename : string) (ptypes : list string) (file_nrs : list Z)
    (st : gmap string (gmap string dataset_meta) * gmap string bool)
  : M scan_world (gmap string (gmap string dataset_meta) * gmap string bool) :=
  match file_nrs with
  | [] => ret st
  | file_nr :: rest =>
      let* infile := scan_open (format_file_nr filename file_nr) in
      let* groups := scan_groups infile in
      let* st' := lift_result (fold_result (scan_type groups) ptypes (st.1, st.2, 0)) in
      do* scan_close infile in
      if st'.2 =? 0 then ret st'.1 else scan_files filename ptypes rest st'.1
  end.

Definition identify_datasets (filename : string) (nr_files : Z) (ptypes : list string)
    (total_nr_particles : gmap string Z)
  : M scan_world (gmap string (gmap string dataset_meta)) :=
  let metadata : gmap string (gmap string dataset_meta) :=
    list_to_map (map (fun ptype => (ptype, ∅)) ptypes) in
  (* Make a dict of flags of which particle types we still need to find *)
  let* to_find :=
    lift_result (fold_result (fun (to_find : gmap string bool) ptype =>
                                let+ total := dict_get total_nr_particles ptype in
                                Ok (<[ptype := 0 <? total]> to_find))
                             ptypes ∅) in
  (* Scan snapshot files to find shape, type and units for each quantity *)
  let* st := scan_files filename ptypes (range 0 nr_files) (metadata, to_find) in
  ret st.1.

End Scan.

(** The group of [ptype] among [groups], when it is there and its attribute
    [NumberOfParticles] starts with a positive number. *)
Definition populated (groups : gmap string h5_group) (ptype : string) : option h5_group :=
  group ← groups !! ptype;
  match group_attrs group !! "NumberOfParticles" with
  | Some (n :: _) => if 0 <? n then Some group else None
  | _ => None
  end.

(** The populated group of [ptype] in the file called [name]. *)
Definition file_group (w : scan_world) (name ptype : string) : option h5_group :=
  groups ← sw_files w !! name; populated groups ptype.

(** The entry of the scan for a dataset: for those with the attribute
    [a-scale exponent], the shape without its first axis, the dtype in
    native byte order and the units. *)
Definition meta_of (units_from_attributes : h5_dset -> string)
    (newbyteorder : string -> string) (dset : h5_dset) : option dataset_meta :=
  if bool_decide (is_Some (dset_attrs dset !! "a-scale exponent"))
  then Some (mk_meta (tail (dset_shape dset)) (newbyteorder (dset_dtype dset))
                     (units_from_attributes dset))
  else None.

(** One dataset entered into the entries of a particle type. *)
Definition enter_step (units_from_attributes : h5_dset -> string)
    (newbyteorder : string -> string) (found : gmap string dataset_meta)
    (item : string * h5_dset) : gmap string dataset_meta :=
  match meta_of units_from_attributes newbyteorder item.2 with
  | Some meta => <[item.1 := meta]> found
  | None => found
  end.

(** The entries the scan makes for a group. *)
Definition schema_of (units_from_attributes : h5_dset -> string)
    (newbyteorder : string -> string) (group : h5_group) : gmap string dataset_meta :=
  omap (meta_of units_from_attributes newbyteorder) (group_members group).

(** The calls of a scan that opens the files [file_nrs] one after the other,
    with handles from [fid] on. *)
Fixpoint scan_events (format_file_nr : string -> Z -> string) (filename : string)
    (fid : nat) (file_nrs : list Z) : list h5_event :=
  match file_nrs with
  | [] => []
  | file_nr :: rest =>
      EvOpen fid (format_file_nr filename file_nr) :: EvClose fid
      :: scan_events format_file_nr filename (S fid) rest
  end.

(** No handle from the next one on is in use. *)
Definition handles_fresh (w : scan_world) : Prop :=
  forall fid, (sw_next w <= fid)%nat -> sw_open w !! fid = None.

(** For the examples: the units of a dataset are its attribute [units], and
    the dtypes are kept as they are. *)
Definition units_attr (dset : h5_dset) : string := default "" (dset_attrs dset !! "units").

(** A gas group of [n] particles: masses and coordinates carry the
    attribute [a-scale exponent], the particle IDs do not. *)
Definition gas_group (n : Z) : h5_group :=
  mk_group {[ "NumberOfParticles" := [n] ]}
           {[ "Masses" := mk_dset {[ "a-scale exponent" := "0"; "units" := "Msun" ]} [n] "<f4";
              "ParticleIDs" := mk_dset ∅ [n] "<u8";
              "Coordinates" :=
                mk_dset {[ "a-scale exponent" := "1"; "units" := "Mpc" ]} [n; 3] "<f8" ]}.

(** A snapshot of two files: the gas group of file 0 is empty, that of file
    1 holds seven particles; no file has stars. *)
Definition scan_example : scan_world :=
  mk_scan {[ "snap.0" := {[ "PartType0" := gas_group 0 ]};
             "snap.1" := {[ "PartType0" := gas_group 7 ]} ]} ∅ 0 [].

Definition example_totals : gmap string Z := {[ "PartType0" := 7; "PartType4" := 0 ]}.

(** ** SWIFTCellGrid.__init__: the total numbers of particles (lines 158-166) *)

(** [a.astype(np.int64)] *)
Definition astype_int64 (a : list Z) : list Z := map wrap64 a.

(** [a << 32] on an int64 array *)
Definition shift_left_32 (a : list Z) : list Z :=
  map (fun x => wrap64 (Z.shiftl x 32)) a.

(** [a += b] on int64 arrays of one axis: [b] has the length of [a] or is
    broadcast from length 1; other shapes are refused. *)
Definition iadd_int64 (a b : list Z) : result (list Z) :=
  if (length b =? length a)%nat then Ok (zip_with (fun x y => wrap64 (x + y)) a b)
  else match b with
       | [y] => Ok (map (fun x => wrap64 (x + y)) a)
       | _ => Raise ValueError
       end.

(** Lines 160-161: the low words plus the high words shifted by 32 bits. *)
Definition header_totals (NumPart_Total NumPart_Total_HighWord : list Z)
  : result (list Z) :=
  let total_nr_particles := astype_int64 NumPart_Total in
  iadd_int64 total_nr_particles (shift_left_32 (astype_int64 NumPart_Total_HighWord)).

(** ["PartType%d" % i] *)
Definition part_type_name (i : Z) : string := ("PartType" ++ pretty i)%string.

(** Lines 159-166: the dict [self.total_nr_particles], with an entry for
    each type index whose name is in [ptypes]. *)
Definition total_nr_particles (ptypes : list string)
    (NumPart_Total NumPart_Total_HighWord : list Z) : result (gmap string Z) :=
  let nr_types := Z.of_nat (length NumPart_Total) in
  let+ totals := header_totals NumPart_Total NumPart_Total_HighWord in
  fold_result (fun (self_total_nr_particles : gmap string Z) i =>
                 let ptype := part_type_name i in
                 if bool_decide (ptype ∈ ptypes) then
                   match totals !! Z.to_nat i with
                   | Some total => Ok (<[ptype := total]> self_total_nr_particles)
                   | None => Raise IndexError
                   end
                 else Ok self_total_nr_particles)
              (range 0 nr_types) ∅.

Section InitMetadata.

Context (format_file_nr : string -> Z -> string).
Context (units_from_attributes : h5_dset -> string).
Context (newbyteorder : string -> string).

(** Lines 158-166 and 217 of [__init__]: the totals of the header, then the
    scan of the snapshot files for the particle types of the cell grid. *)
Definition init_snap_metadata (snap_filename : string) (nr_files : Z) (ptypes : list string)
    (NumPart_Total NumPart_Total_HighWord : list Z)
  : M scan_world (gmap string (gmap string dataset_meta)) :=
  let* self_total_nr_particles :=
    lift_result (total_nr_particles ptypes NumPart_Total NumPart_Total_HighWord) in
  identify_datasets format_file_nr units_from_attributes newbyteorder
                    snap_filename nr_files ptypes self_total_nr_particles.

End InitMetadata.

(** ** read_masked_cells_to_shared_memory: the shared arrays (lines 348-363) *)

(** The arguments of [shared_array.SharedArray(local_shape, dtype, comm, units)]. *)
Record shared_array_args : Type := mk_shared {
  sa_local_shape : list Z;
  sa_dtype : string;
  sa_units : string
}.

Section Allocate.

Context {quantity : Type}.

(** Lines 353-356: the metadata of a requested dataset. *)
Definition array_metadata (self : @SWIFTCellGrid quantity) (ptype name : string)
  : result dataset_meta :=
  if bool_decide (is_Some (snap_metadata self !! name)) then
    let+ datasets := dict_get (snap_metadata self) ptype in
    dict_get datasets name
  else
    match extra_metadata self with
    | Some extra_metadata =>
        let+ datasets := dict_get extra_metadata ptype in
        dict_get datasets name
    | None => Raise AttributeError
    end.

(** Lines 349-363: one array per requested dataset, of the local size of
    this rank. *)
Definition allocate_arrays (self : @SWIFTCellGrid quantity) (property_names : property_names_t)
    (nr_parts : gmap string Z) (comm_size comm_rank : Z)
  : result (gmap string (gmap string shared_array_args)) :=
  fold_result (fun (data : gmap string (gmap string shared_array_args))
                   (item : string * list string) =>
    let ptype := item.1 in
    let data := <[ptype := ∅]> data in
    fold_result (fun (data : gmap string (gmap string shared_array_args)) name =>
      let+ meta := array_metadata self ptype name in
      (* Determine size of local array section *)
      let+ total := dict_get nr_parts ptype in
      let+ nr_local := nr_local total comm_size comm_rank in
      (* Find global and local shape of the array *)
      let local_shape := nr_local :: meta_shape meta in
      (* Allocate storage *)
      let+ arrays := dict_get data ptype in
      Ok (<[ptype := <[name := mk_shared local_shape (meta_dtype meta) (meta_units meta)]>
                       arrays]> data))
    item.2 data)
  property_names ∅.

End Allocate.

(** A cell without its order. *)
Definition forget_order (c : swift_cell_t) : swift_cell_t := set_order c 0.

(** A grid with an extra file: the masses are listed in the snapshot
    metadata, the densities in the metadata of the extra file. *)
Definition extra_grid : @SWIFTCellGrid Z :=
  mk_grid "snap" (Some "extra") (1, 1, 1) (10, 10, 10)
          {[ "PartType0" := 0%nat ]}
          {[ "PartType0" := {[ "Masses" := mk_meta [] "float32" "Msun" ]} ]}
          (Some {[ "PartType0" := {[ "Densities" := mk_meta [] "float32" "Msun/Mpc3" ]} ]}).
(** * Proofs *)

(** ** The monad *)

Lemma bind_ok {S A B : Type} (m : M S A) (k : A -> M S B) s a s' :
  m s = Ok (a, s') -> bind m k s = k a s'.
Proof. intros E. unfold bind. now rewrite E. Qed.

Lemma bind_inv {S A B : Type} (m : M S A) (k : A -> M S B) s b s2 :
  bind m k s = Ok (b, s2) -> exists a s1, m s = Ok (a, s1) /\ k a s1 = Ok (b, s2).
Proof.
  unfold bind. destruct (m s) as [[a s1]|e]; [|discriminate].
  intros E. now exists a, s1.
Qed.

Lemma result_bind_inv {A B : Type} (r : result A) (k : A -> result B) b :
  result_bind r k = Ok b -> exists a, r = Ok a /\ k a = Ok b.
Proof. destruct r as [a|e]; simpl; [|discriminate]. intros E. now exists a. Qed.

Lemma range_cons lo hi : lo < hi -> range lo hi = lo :: range (lo + 1) hi.
Proof.
  intros Hlt. unfold range.
  replace (Z.to_nat (hi - lo)) with (S (Z.to_nat (hi - (lo + 1)))) by lia.
  simpl. f_equal; [f_equal; lia|].
  rewrite <- seq_shift, map_map. apply map_ext. intros n. lia.
Qed.

Lemma range_nil lo hi : hi <= lo -> range lo hi = [].
Proof. intros Hle. unfold range. now replace (Z.to_nat (hi - lo)) with O by lia. Qed.

Lemma elem_of_range lo hi z : z ∈ range lo hi <-> lo <= z < hi.
Proof.
  unfold range. rewrite list_elem_of_In, in_map_iff. split.
  - intros (n & <- & Hn). apply in_seq in Hn. lia.
  - intros Hz. exists (Z.to_nat (z - lo)). split; [lia|]. apply in_seq. lia.
Qed.

Lemma length_range lo hi : length (range lo hi) = Z.to_nat (hi - lo).
Proof. unfold range. now rewrite length_map, length_seq. Qed.

(** ** Fixed-width integers *)

Lemma wrap64_id z : int64_ok z -> wrap64 z = z.
Proof. unfold int64_ok, wrap64. intros H. rewrite Z.mod_small; lia. Qed.

Lemma wrap32_id z : int32_ok z -> wrap32 z = z.
Proof. unfold int32_ok, wrap32. intros H. rewrite Z.mod_small; lia. Qed.

(** ** Sharing the tasks over the ranks *)

Lemma move_tasks_spec {A : Type} (n : nat) (all_tasks queue : list A) :
  (n <= length all_tasks)%nat ->
  move_tasks n all_tasks queue = Ok (drop n all_tasks, queue ++ take n all_tasks).
Proof.
  revert all_tasks queue. induction n as [|n IH]; intros all_tasks queue Hn; simpl.
  - now rewrite drop_0, take_0, app_nil_r.
  - destruct all_tasks as [|x rest]; simpl in *; [lia|].
    rewrite IH by lia. now rewrite <- app_assoc.
Qed.

Lemma share_size_nonneg n p r : 0 <= n -> 0 < p -> 0 <= share_size n p r.
Proof.
  intros Hn Hp. unfold share_size.
  pose proof (Z.div_pos n p Hn Hp). destruct (r <? n mod p); lia.
Qed.

Lemma sum_share_sizes_from n p k lo :
  0 < p -> 0 <= lo ->
  sum_Z (map (share_size n p) (range lo (lo + Z.of_nat k)))
  = Z.of_nat k * (n / p) + (Z.max lo (Z.min (lo + Z.of_nat k) (n mod p)) - lo).
Proof.
  intros Hp. revert lo. induction k as [|k IH]; intros lo Hlo.
  - rewrite range_nil by lia. simpl. lia.
  - rewrite range_cons by lia. simpl.
    replace (lo + Z.of_nat (S k)) with (lo + 1 + Z.of_nat k) by lia.
    rewrite IH by lia. unfold share_size.
    destruct (Z.ltb_spec lo (n mod p)); lia.
Qed.

Lemma sum_share_sizes n p :
  0 < p -> sum_Z (map (share_size n p) (range 0 p)) = n.
Proof.
  intros Hp. pose proof (sum_share_sizes_from n p (Z.to_nat p) 0 Hp (Z.le_refl 0)) as E.
  rewrite Z2Nat.id in E by lia. rewrite Z.add_0_l in E. rewrite E.
  pose proof (Z.mod_pos_bound n p Hp). pose proof (Z.div_mod n p). lia.
Qed.

(** The loop of [share_tasks] over the ranks [ranks], from the deque [rest]. *)
Lemma share_loop {A : Type} (n p : Z) (ranks : list Z) (rest : list A) (tasks : list (list A)) :
  0 <= n -> 0 < p ->
  Z.of_nat (length rest) = sum_Z (map (share_size n p) ranks) ->
  exists queues,
    fold_result (fun (st : list A * list (list A)) rank =>
      let '(all_tasks, tasks) := st in
      let+ moved := move_tasks (Z.to_nat (n / p)) all_tasks [] in
      let+ moved :=
        if rank <? n mod p
        then move_tasks 1 moved.1 moved.2
        else Ok moved in
      Ok (moved.1, tasks ++ [moved.2])) ranks (rest, tasks)
    = Ok ([], tasks ++ queues)
    /\ concat queues = rest
    /\ Forall2 (fun rank q => Z.of_nat (length q) = share_size n p rank) ranks queues.
Proof.
  intros Hn Hp. revert rest tasks.
  induction ranks as [|rank ranks IH]; intros rest tasks Hlen;
    cbn [fold_result map sum_Z] in *.
  - exists []. destruct rest as [|x rest]; [|discriminate Hlen]. now rewrite app_nil_r.
  - assert (Hrest : 0 <= sum_Z (map (share_size n p) ranks)).
    { clear -Hn Hp. induction ranks as [|r rs IHr]; simpl; [lia|].
      pose proof (share_size_nonneg n p r). lia. } 
    pose proof (Z.div_pos n p Hn Hp) as Hq.
    unfold share_size in Hlen at 1.
    rewrite move_tasks_spec by (destruct (rank <? n mod p); lia).
    cbn [result_bind fst snd app].
    destruct (Z.ltb_spec rank (n mod p)) as [Hr|Hr]; cbn [result_bind fst snd].
    + rewrite move_tasks_spec by (rewrite length_drop; lia).
      cbn [result_bind fst snd].
      set (q := take (Z.to_nat (n / p)) rest ++ take 1 (drop (Z.to_nat (n / p)) rest)).
      destruct (IH (drop 1 (drop (Z.to_nat (n / p)) rest)) (tasks ++ [q])) as (qs & E & Hc & Hf).
      { rewrite !length_drop. lia. }
      exists (q :: qs). rewrite E. split; [now rewrite <- app_assoc|]. split.
      * simpl. rewrite Hc. unfold q. rewrite <- app_assoc.
        now rewrite (take_drop 1), take_drop.
      * constructor; [|exact Hf]. unfold q, share_size.
        rewrite length_app, !length_take, length_drop.
        destruct (Z.ltb_spec rank (n mod p)); lia.
    + set (q := take (Z.to_nat (n / p)) rest).
      destruct (IH (drop (Z.to_nat (n / p)) rest) (tasks ++ [q])) as (qs & E & Hc & Hf).
      { rewrite length_drop. lia. }
      exists (q :: qs). rewrite E. split; [now rewrite <- app_assoc|]. split.
      * simpl. rewrite Hc. unfold q. now rewrite take_drop.
      * constructor; [|exact Hf]. unfold q, share_size.
        rewrite length_take.
        destruct (Z.ltb_spec rank (n mod p)); lia.
Qed.



(** ** The region mask *)

Lemma shape_is_rect dimension mask :
  shape_is dimension mask = true <-> rect dimension mask.
Proof.
  destruct dimension as [[d0 d1] d2]. unfold shape_is, rect. simpl.
  rewrite andb_true_iff, forallb_forall, Z.eqb_eq, Forall_forall.
  apply and_iff_compat_l. split.
  - intros Hp plane Hin. apply list_elem_of_In in Hin.
    specialize (Hp plane Hin). apply andb_true_iff in Hp as [H1 Hr].
    apply Z.eqb_eq in H1. split; [exact H1|].
    apply Forall_forall. intros row Hrow. apply list_elem_of_In in Hrow.
    rewrite forallb_forall in Hr. apply Z.eqb_eq. now apply Hr.
  - intros Hp plane Hin. apply list_elem_of_In in Hin.
    destruct (Hp plane Hin) as [H1 Hr]. apply andb_true_iff. split; [now apply Z.eqb_eq|].
    apply forallb_forall. intros row Hrow. apply list_elem_of_In in Hrow.
    rewrite Forall_forall in Hr. apply Z.eqb_eq. now apply Hr.
Qed.

Lemma axis_index_in_range len i :
  0 <= i < Z.of_nat len -> axis_index len i = Ok (Z.to_nat i).
Proof.
  intros Hi. unfold axis_index.
  destruct (Z.leb_spec 0 i); [|lia]. destruct (Z.ltb_spec i (Z.of_nat len)); [|lia].
  reflexivity.
Qed.

Lemma np_mod_range i d : 0 < d -> np_mod i d = i mod d /\ 0 <= i mod d < d.
Proof.
  intros Hd. unfold np_mod. destruct (Z.eqb_spec d 0); [lia|].
  split; [reflexivity|]. now apply Z.mod_pos_bound.
Qed.

(** One write into a well-shaped mask: it succeeds, keeps the shape and
    sets the one entry. *)
Lemma mask_set_spec dimension mask ii jj kk :
  rect dimension mask ->
  0 <= ii < dimension.1.1 -> 0 <= jj < dimension.1.2 -> 0 <= kk < dimension.2 ->
  exists mask',
    mask_set mask ii jj kk = Ok mask'
    /\ rect dimension mask'
    /\ forall a b c,
        mask_at mask' a b c = true <->
        mask_at mask a b c = true
        \/ (Z.of_nat a = ii /\ Z.of_nat b = jj /\ Z.of_nat c = kk).
Proof.
  destruct dimension as [[d0 d1] d2]. unfold rect. simpl. intros [H0 Hplanes] Hi Hj Hk.
  unfold mask_set. rewrite axis_index_in_range by lia. cbn [result_bind].
  destruct (mask !! Z.to_nat ii) as [plane|] eqn:Eplane.
  2:{ apply lookup_ge_None in Eplane. lia. }
  pose proof (Forall_lookup_1 _ _ _ _ Hplanes Eplane) as [H1 Hrows]. simpl in H1, Hrows.
  rewrite axis_index_in_range by lia. cbn [result_bind].
  destruct (plane !! Z.to_nat jj) as [row|] eqn:Erow.
  2:{ apply lookup_ge_None in Erow. lia. }
  pose proof (Forall_lookup_1 _ _ _ _ Hrows Erow) as H2. simpl in H2.
  rewrite axis_index_in_range by lia. cbn [result_bind].
  eexists. split; [reflexivity|]. split.
  - split; [now rewrite length_insert|].
    apply Forall_insert; [exact Hplanes|]. split; [now rewrite length_insert|].
    apply Forall_insert; [exact Hrows|]. now rewrite length_insert.
  - intros a b c. unfold mask_at.
    destruct (decide (a = Z.to_nat ii)) as [->|Ha].
    + rewrite list_lookup_insert_eq by lia. rewrite Eplane.
      destruct (decide (b = Z.to_nat jj)) as [->|Hb].
      * rewrite list_lookup_insert_eq by lia. rewrite Erow.
        destruct (decide (c = Z.to_nat kk)) as [->|Hc].
        -- rewrite list_lookup_insert_eq by lia. simpl. split; [|reflexivity].
           intros _. right. lia.
        -- rewrite list_lookup_insert_ne by congruence.
           split; [tauto|]. intros [H|H]; [exact H|lia].
      * rewrite list_lookup_insert_ne by congruence.
        split; [tauto|]. intros [H|H]; [exact H|lia].
    + rewrite list_lookup_insert_ne by congruence.
      split; [tauto|]. intros [H|H]; [exact H|lia].
Qed.

(** A loop whose every iteration adds the entries [P x] to the mask adds,
    over the list [xs], the entries of all its elements. *)
Lemma mask_loop_spec {A : Type} dimension (f : mask_t -> A -> result mask_t)
    (P : A -> nat -> nat -> nat -> Prop) (xs : list A) :
  (forall mask x, rect dimension mask ->
     exists mask', f mask x = Ok mask' /\ rect dimension mask'
       /\ forall a b c, mask_at mask' a b c = true <-> mask_at mask a b c = true \/ P x a b c) ->
  forall mask, rect dimension mask ->
    exists mask', fold_result f xs mask = Ok mask' /\ rect dimension mask'
      /\ forall a b c,
          mask_at mask' a b c = true <->
          mask_at mask a b c = true \/ exists x, x ∈ xs /\ P x a b c.
Proof.
  intros Hf. induction xs as [|x xs IH]; intros mask Hrect; simpl.
  - exists mask. split; [reflexivity|]. split; [exact Hrect|].
    intros a b c. split; [tauto|]. intros [H|(x & Hx & _)]; [exact H|].
    now apply elem_of_nil in Hx.
  - destruct (Hf mask x Hrect) as (m1 & E1 & R1 & S1). rewrite E1. simpl.
    destruct (IH m1 R1) as (m2 & E2 & R2 & S2). exists m2.
    split; [exact E2|]. split; [exact R2|].
    intros a b c. rewrite S2, S1. split.
    + intros [[H|H]|(y & Hy & H)]; [now left| |].
      * right. exists x. split; [apply list_elem_of_here|exact H].
      * right. exists y. split; [now apply list_elem_of_further|exact H].
    + intros [H|(y & Hy & H)]; [now left; left|].
      apply elem_of_cons in Hy as [->|Hy]; [now left; right|].
      right. now exists y.
Qed.


Section MaskRegion.

Context {quantity : Type}.
Context (floor_ratio : quantity -> quantity -> Z).


End MaskRegion.


(** ** The dataset handle cache *)

(** What a request does, case by case: another file than the cached one,
    another dataset of the cached file, or the cached dataset. *)
Lemma open_dataset_unfold file_name dataset_name p :
  let c := p_cache p in
  let w := p_world p in
  open_dataset file_name dataset_name p
  = if bool_decide (Some file_name ≠ DatasetCache.file_name c) then
      match h5_files w !! file_name with
      | None => Raise OSError
      | Some f =>
          match f !! dataset_name with
          | None => Raise KeyError
          | Some _ =>
              let fid := h5_next w in
              let dataset := mk_dataset fid dataset_name in
              Ok (Some dataset,
                  mk_proc (p_data p)
                    (DatasetCache.mk (Some file_name) (Some fid) (Some dataset_name)
                                     (Some dataset))
                    (mk_world (h5_files w)
                       (foldr delete (<[fid := file_name]> (h5_open w)) (dropped c w fid))
                       (S fid)
                       (h5_log w ++ [EvOpen fid file_name] ++ map EvRelease (dropped c w fid)
                                ++ [EvLookup fid dataset_name])))
          end
      end
    else if bool_decide (Some dataset_name ≠ DatasetCache.dataset_name c) then
      match DatasetCache.infile c with
      | None => Raise TypeError
      | Some infile =>
          match h5_open w !! infile with
          | None => Raise ValueError
          | Some name =>
              match h5_files w !! name ≫= (fun f => f !! dataset_name) with
              | None => Raise KeyError
              | Some _ =>
                  let dataset := mk_dataset infile dataset_name in
                  Ok (Some dataset,
                      mk_proc (p_data p)
                        (DatasetCache.mk (DatasetCache.file_name c) (Some infile)
                                         (Some dataset_name) (Some dataset))
                        (mk_world (h5_files w) (h5_open w) (h5_next w)
                                  (h5_log w ++ [EvLookup infile dataset_name])))
              end
          end
      end
    else Ok (DatasetCache.dataset c, p).
Proof.
  destruct p as [data [fn inf dn ds] w]. cbn zeta. cbn [p_cache p_world p_data].
  unfold open_dataset, bind, get_cache. cbn [p_cache DatasetCache.file_name].
  case_bool_decide as Hfile.
  - unfold h5py_File. cbn [p_world p_data p_cache].
    destruct (h5_files w !! file_name) as [f|] eqn:Ef; [|reflexivity].
    unfold set_cache, drop_file, dropped, ret, h5_release, h5_getitem.
    cbn [p_world p_data p_cache DatasetCache.infile DatasetCache.dataset_name
         h5_open h5_files h5_next h5_log].
    assert (Hsome : forall name : string, bool_decide (is_Some (Some name)) = true).
    { intros name. apply bool_decide_eq_true_2. eauto. }
    assert (Hnone : bool_decide (is_Some (@None string)) = false).
    { apply bool_decide_eq_false_2. intros [x Hx]. discriminate. }
    assert (Hrefl : bool_decide (h5_next w ≠ h5_next w) = false).
    { apply bool_decide_eq_false_2. intros H. now apply H. }
    destruct inf as [old|];
      [destruct (decide (old = h5_next w)) as [->|Hne];
       [rewrite Hrefl
       |rewrite (bool_decide_eq_true_2 (old ≠ h5_next w)) by exact Hne;
        cbn [andb p_world p_data p_cache h5_open h5_files h5_next h5_log];
        rewrite lookup_insert_ne by congruence;
        destruct (h5_open w !! old) as [name|] eqn:Eold; rewrite ?Hsome, ?Hnone]|];
      cbn [andb foldr map app p_world p_data p_cache DatasetCache.infile
           DatasetCache.dataset_name h5_open h5_files h5_next h5_log];
      rewrite ?(bool_decide_eq_true_2 (Some dataset_name ≠ None)) by discriminate;
      cbn [andb foldr map app p_world p_data p_cache DatasetCache.infile
           DatasetCache.dataset_name h5_open h5_files h5_next h5_log];
      rewrite ?lookup_delete_ne by exact Hne;
      rewrite lookup_insert_eq, Ef; cbn [mbind option_bind];
      (destruct (f !! dataset_name); [|reflexivity]); cbn; now rewrite <- ?app_assoc.
  - unfold ret. cbn [p_cache DatasetCache.dataset_name]. case_bool_decide as Hds.
    + cbn [DatasetCache.infile]. destruct inf as [infile|]; [|reflexivity].
      unfold h5_getitem, set_cache. cbn [p_world p_data p_cache].
      destruct (h5_open w !! infile) as [name|]; [|reflexivity].
      destruct (h5_files w !! name ≫= _) as [rows|]; reflexivity.
    + reflexivity.
Qed.

(** A request for the file and dataset the cache already holds touches
    nothing. *)
Lemma open_dataset_hit file_name dataset_name p :
  DatasetCache.file_name (p_cache p) = Some file_name ->
  DatasetCache.dataset_name (p_cache p) = Some dataset_name ->
  open_dataset file_name dataset_name p = Ok (DatasetCache.dataset (p_cache p), p).
Proof.
  intros Hf Hd. rewrite open_dataset_unfold. cbn zeta. rewrite Hf, Hd.
  now rewrite !bool_decide_eq_false_2 by (intros H; now apply H).
Qed.

(** Whatever the cache held, after a successful request it holds the
    requested file and dataset names and the handle it returned; the
    destination arrays and the files are not touched. *)
Lemma open_dataset_post file_name dataset_name p r p' :
  open_dataset file_name dataset_name p = Ok (r, p') ->
  DatasetCache.file_name (p_cache p') = Some file_name
  /\ DatasetCache.dataset_name (p_cache p') = Some dataset_name
  /\ DatasetCache.dataset (p_cache p') = r
  /\ p_data p' = p_data p.
Proof.
  rewrite open_dataset_unfold. cbn zeta. case_bool_decide as Hfile.
  - destruct (h5_files (p_world p) !! file_name) as [f|]; [|discriminate].
    destruct (f !! dataset_name); [|discriminate]. intros [= <- <-]. cbn. auto.
  - symmetry in Hfile. case_bool_decide as Hds.
    + destruct (DatasetCache.infile (p_cache p)) as [infile|]; [|discriminate].
      destruct (h5_open (p_world p) !! infile) as [name|]; [|discriminate].
      destruct (h5_files (p_world p) !! name ≫= _); [|discriminate].
      intros [= <- <-]. cbn. auto.
    + symmetry in Hds. intros [= <- <-]. auto.
Qed.

(** C5, as the code has it.  A request naming another file than the cached
    one opens the new file first; the File object the cache held is then
    dropped, and freed with its last reference: when it was open (in a
    handle that is not the next one to be handed out), it is closed after
    the new one has been opened, by its release and not by a call of
    [close]; when the cache held none, or one that [close] had closed,
    nothing is released; the dataset is resolved in the new handle.  A
    request naming another dataset of the cached file resolves the dataset
    with the handle the cache holds: one lookup, no open, the open handles
    and the file handle unchanged. *)
Theorem open_dataset_switch (file_name dataset_name : string) (p : proc) :
  let c := p_cache p in
  let w := p_world p in
  (forall old name,
     Some file_name ≠ DatasetCache.file_name c ->
     DatasetCache.infile c = Some old -> h5_open w !! old = Some name -> old ≠ h5_next w ->
     is_Some (h5_files w !! file_name ≫= (fun f => f !! dataset_name)) ->
     let fid := h5_next w in
     let dataset := mk_dataset fid dataset_name in
     open_dataset file_name dataset_name p
     = Ok (Some dataset,
           mk_proc (p_data p)
             (DatasetCache.mk (Some file_name) (Some fid) (Some dataset_name) (Some dataset))
             (mk_world (h5_files w) (delete old (<[fid := file_name]> (h5_open w))) (S fid)
                       (h5_log w ++ [EvOpen fid file_name; EvRelease old;
                                     EvLookup fid dataset_name]))))
  /\ (Some file_name ≠ DatasetCache.file_name c ->
      (forall old, DatasetCache.infile c = Some old -> h5_open w !! old = None) ->
      is_Some (h5_files w !! file_name ≫= (fun f => f !! dataset_name)) ->
      let fid := h5_next w in
      let dataset := mk_dataset fid dataset_name in
      open_dataset file_name dataset_name p
      = Ok (Some dataset,
            mk_proc (p_data p)
              (DatasetCache.mk (Some file_name) (Some fid) (Some dataset_name) (Some dataset))
              (mk_world (h5_files w) (<[fid := file_name]> (h5_open w)) (S fid)
                        (h5_log w ++ [EvOpen fid file_name; EvLookup fid dataset_name]))))
  /\ (forall infile name,
        DatasetCache.file_name c = Some file_name ->
        Some dataset_name ≠ DatasetCache.dataset_name c ->
        DatasetCache.infile c = Some infile ->
        h5_open w !! infile = Some name ->
        is_Some (h5_files w !! name ≫= (fun f => f !! dataset_name)) ->
        let dataset := mk_dataset infile dataset_name in
        open_dataset file_name dataset_name p
        = Ok (Some dataset,
              mk_proc (p_data p)
                (DatasetCache.mk (Some file_name) (Some infile) (Some dataset_name) (Some dataset))
                (mk_world (h5_files w) (h5_open w) (h5_next w)
                          (h5_log w ++ [EvLookup infile dataset_name])))).
Proof.
  cbn zeta. rewrite open_dataset_unfold. cbn zeta. split; [|split].
  - intros old name Hfile Hin Hopen Hne Hsome.
    rewrite bool_decide_eq_true_2 by exact Hfile.
    destruct (h5_files (p_world p) !! file_name) as [f|]; [|now destruct Hsome].
    cbn in Hsome. destruct (f !! dataset_name); [|now destruct Hsome].
    unfold dropped. rewrite Hin, Hopen.
    rewrite (bool_decide_eq_true_2 (old ≠ _)) by exact Hne.
    rewrite bool_decide_eq_true_2 by eauto. reflexivity.
  - intros Hfile Hclosed Hsome.
    rewrite bool_decide_eq_true_2 by exact Hfile.
    destruct (h5_files (p_world p) !! file_name) as [f|]; [|now destruct Hsome].
    cbn in Hsome. destruct (f !! dataset_name); [|now destruct Hsome].
    unfold dropped. destruct (DatasetCache.infile (p_cache p)) as [old|]; [|reflexivity].
    rewrite (Hclosed old eq_refl).
    rewrite (bool_decide_eq_false_2 (is_Some None)) by (intros [x Hx]; discriminate).
    now rewrite andb_false_r.
  - intros infile name Hfn Hds Hin Hopen Hsome. rewrite Hfn.
    rewrite bool_decide_eq_false_2 by (intros H; now apply H).
    rewrite bool_decide_eq_true_2 by exact Hds. rewrite Hin, Hopen.
    destruct (h5_files (p_world p) !! name ≫= _); [|now destruct Hsome]. reflexivity.
Qed.

(** The worker whose cache holds the masses of file 0 asks for the masses of
    file 1: file 1 is opened in handle 1, handle 0 is released; it then asks
    for the positions in file 1: one lookup in handle 1.  A fresh worker
    that asks for the masses of file 0 has nothing to release. *)
Lemma open_dataset_switch_witness :
  let on_file_1 :=
    mk_proc (p_data warm_proc)
      (DatasetCache.mk (Some "snap_1.hdf5") (Some 1%nat) (Some "PartType0/Masses")
                       (Some (mk_dataset 1 "PartType0/Masses")))
      (mk_world two_files (delete 0%nat (<[1%nat := "snap_1.hdf5"]> {[ 0%nat := "snap_0.hdf5" ]}))
                2
                [EvOpen 0 "snap_0.hdf5"; EvLookup 0 "PartType0/Masses";
                 EvOpen 1 "snap_1.hdf5"; EvRelease 0; EvLookup 1 "PartType0/Masses"]) in
  open_dataset "snap_1.hdf5" "PartType0/Masses" warm_proc
  = Ok (Some (mk_dataset 1 "PartType0/Masses"), on_file_1)
  /\ open_dataset "snap_1.hdf5" "PartType0/Coordinates" on_file_1
     = Ok (Some (mk_dataset 1 "PartType0/Coordinates"),
           mk_proc (p_data warm_proc)
             (DatasetCache.mk (Some "snap_1.hdf5") (Some 1%nat) (Some "PartType0/Coordinates")
                              (Some (mk_dataset 1 "PartType0/Coordinates")))
             (mk_world two_files (h5_open (p_world on_file_1)) 2
                       (h5_log (p_world on_file_1) ++ [EvLookup 1 "PartType0/Coordinates"])))
  /\ open_dataset "snap_0.hdf5" "PartType0/Masses" fresh_proc
     = Ok (Some (mk_dataset 0 "PartType0/Masses"),
           mk_proc (p_data fresh_proc)
             (DatasetCache.mk (Some "snap_0.hdf5") (Some 0%nat) (Some "PartType0/Masses")
                              (Some (mk_dataset 0 "PartType0/Masses")))
             (mk_world two_files (<[0%nat := "snap_0.hdf5"]> ∅) 1
                       [EvOpen 0 "snap_0.hdf5"; EvLookup 0 "PartType0/Masses"])).
Proof.
  cbn zeta. split; [|split].
  - apply (proj1 (open_dataset_switch "snap_1.hdf5" "PartType0/Masses" warm_proc)
             0%nat "snap_0.hdf5").
    + discriminate.
    + reflexivity.
    + reflexivity.
    + discriminate.
    + vm_compute. eauto.
  - match goal with |- open_dataset _ _ ?p = _ =>
      apply (proj2 (proj2 (open_dataset_switch "snap_1.hdf5" "PartType0/Coordinates" p))
               1%nat "snap_1.hdf5")
    end.
    + reflexivity.
    + discriminate.
    + reflexivity.
    + reflexivity.
    + vm_compute. eauto.
  - apply (proj1 (proj2 (open_dataset_switch "snap_0.hdf5" "PartType0/Masses" fresh_proc))).
    + discriminate.
    + discriminate.
    + vm_compute. eauto.
Defined.

(** C5 as stated fails: a request naming another file than the one the
    cache holds open does not close that file before it opens the new one;
    the first event of the request is the opening of the new file. *)
Lemma open_dataset_opens_before_release :
  ~ (forall file_name dataset_name p r p' old events,
        Some file_name ≠ DatasetCache.file_name (p_cache p) ->
        DatasetCache.infile (p_cache p) = Some old ->
        is_Some (h5_open (p_world p) !! old) ->
        open_dataset file_name dataset_name p = Ok (r, p') ->
        h5_log (p_world p') = h5_log (p_world p) ++ events ->
        closes_before_opening old events).
Proof.
  intros Hclaim.
  destruct (open_dataset "snap_1.hdf5" "PartType0/Masses" warm_proc) as [[r p']|e] eqn:E;
    [|vm_compute in E; discriminate].
  assert (Hlog : h5_log (p_world p')
                 = h5_log (p_world warm_proc)
                   ++ [EvOpen 1 "snap_1.hdf5"; EvRelease 0; EvLookup 1 "PartType0/Masses"]).
  { vm_compute in E. injection E as _ <-. reflexivity. }
  assert (Hne : Some "snap_1.hdf5" ≠ DatasetCache.file_name (p_cache warm_proc))
    by discriminate.
  destruct (Hclaim _ _ _ _ _ 0%nat _ Hne eq_refl ltac:(vm_compute; eauto) E Hlog)
    as (before & after & Happ & Hclosed & Hopen).
  destruct before as [|e before].
  - destruct Hclosed as [H|H]; now apply elem_of_nil in H.
  - injection Happ as <- _. apply (Hopen 1%nat "snap_1.hdf5"), list_elem_of_here.
Qed.

(** ** Read tasks *)

Lemma slice_bound_range n x : 0 <= n -> 0 <= slice_bound n x <= n.
Proof. unfold slice_bound. destruct (Z.ltb_spec x 0); lia. Qed.

(** A selection lies within its array. *)
Lemma select_rows_range n start stop :
  0 <= n ->
  0 <= (select_rows n start stop).1 /\ 0 <= (select_rows n start stop).2
  /\ (select_rows n start stop).1 + (select_rows n start stop).2 <= n.
Proof.
  intros Hn. unfold select_rows.
  pose proof (slice_bound_range n start Hn). pose proof (slice_bound_range n stop Hn).
  destruct (Z.ltb_spec (slice_bound n stop) (slice_bound n start)); cbn; lia.
Qed.

(** A slice with bounds that are not negative is a part of the interval it
    names. *)
Lemma select_rows_nonneg n start stop :
  0 <= n -> 0 <= start -> 0 <= stop ->
  select_rows n start stop
  = if Z.min stop n <? Z.min start n then (0, 0)
    else (Z.min start n, Z.min stop n - Z.min start n).
Proof.
  intros Hn Hstart Hstop. unfold select_rows, slice_bound.
  destruct (Z.ltb_spec start 0); [lia|]. destruct (Z.ltb_spec stop 0); [lia|]. reflexivity.
Qed.

(** A slice within the array is itself. *)
Lemma select_rows_within n start stop :
  0 <= start <= stop -> stop <= n -> select_rows n start stop = (start, stop - start).
Proof.
  intros H1 H2. rewrite select_rows_nonneg by lia.
  rewrite !Z.min_l by lia. destruct (Z.ltb_spec stop start); [lia|reflexivity].
Qed.

Lemma broadcast_rows_length rows n rows' :
  broadcast_rows rows n = Ok rows' -> length rows' = n.
Proof.
  unfold broadcast_rows. destruct (Nat.eqb_spec (length rows) n) as [<-|Hne].
  - now intros [= <-].
  - destruct rows as [|r [|r' rows]]; try discriminate.
    intros [= <-]. apply length_replicate.
Qed.

(** What a successful read leaves: the destination with the rows of its
    selection replaced by the rows read. *)
Lemma read_direct_inv source dest fs fe ms me dest' :
  read_direct source dest fs fe ms me = Ok dest' ->
  let source_sel := select_rows (Z.of_nat (length source)) fs fe in
  let dest_sel := select_rows (Z.of_nat (length dest)) ms me in
  exists rows,
    broadcast_rows (take (Z.to_nat source_sel.2) (drop (Z.to_nat source_sel.1) source))
                   (Z.to_nat dest_sel.2) = Ok rows
    /\ length rows = Z.to_nat dest_sel.2
    /\ dest' = take (Z.to_nat dest_sel.1) dest ++ rows
               ++ drop (Z.to_nat (dest_sel.1 + dest_sel.2)) dest.
Proof.
  unfold read_direct. cbn zeta. intros H.
  apply result_bind_inv in H as (rows & Hrows & H). injection H as <-.
  exists rows. split; [exact Hrows|]. split; [|reflexivity].
  exact (broadcast_rows_length _ _ _ Hrows).
Qed.

Lemma read_direct_length source dest fs fe ms me dest' :
  read_direct source dest fs fe ms me = Ok dest' -> length dest' = length dest.
Proof.
  intros H. apply read_direct_inv in H as (rows & _ & Hlen & ->).
  pose proof (select_rows_range (Z.of_nat (length dest)) ms me ltac:(lia)) as (H1 & H2 & H3).
  rewrite !length_app, length_take, length_drop, Hlen. lia.
Qed.

(** Rows outside the destination selection are kept. *)
Lemma read_direct_frame source dest fs fe ms me dest' (i : nat) :
  read_direct source dest fs fe ms me = Ok dest' ->
  ~ in_slice (Z.of_nat (length dest)) ms me i ->
  dest' !! i = dest !! i.
Proof.
  intros H Hi. apply read_direct_inv in H as (rows & _ & Hlen & ->).
  unfold in_slice in Hi. cbn zeta in Hi.
  pose proof (select_rows_range (Z.of_nat (length dest)) ms me ltac:(lia)) as (H1 & H2 & H3).
  set (sel := select_rows (Z.of_nat (length dest)) ms me) in *.
  destruct (decide (Z.of_nat i < sel.1)) as [Hlt|Hge].
  - rewrite lookup_app_l by (rewrite length_take; lia).
    now rewrite lookup_take_lt by lia.
  - rewrite lookup_app_r by (rewrite length_take; lia).
    rewrite lookup_app_r by (rewrite length_take, Hlen; lia).
    rewrite length_take, Hlen, lookup_drop. f_equal. lia.
Qed.

(** Row [k] of the destination selection receives row [k] of the rows
    read. *)
Lemma read_direct_lookup source dest fs fe ms me dest' :
  read_direct source dest fs fe ms me = Ok dest' ->
  let source_sel := select_rows (Z.of_nat (length source)) fs fe in
  let dest_sel := select_rows (Z.of_nat (length dest)) ms me in
  exists rows,
    broadcast_rows (take (Z.to_nat source_sel.2) (drop (Z.to_nat source_sel.1) source))
                   (Z.to_nat dest_sel.2) = Ok rows
    /\ forall k : nat, dest' !! (Z.to_nat dest_sel.1 + k)%nat
                       = if decide (Z.of_nat k < dest_sel.2) then rows !! k
                         else dest !! (Z.to_nat dest_sel.1 + k)%nat.
Proof.
  intros H. cbn zeta. pose proof (read_direct_inv _ _ _ _ _ _ _ H) as (rows & Hrows & Hlen & ->).
  cbn zeta in *. exists rows. split; [exact Hrows|]. intros k.
  pose proof (select_rows_range (Z.of_nat (length dest)) ms me ltac:(lia)) as (H1 & H2 & H3).
  set (sel := select_rows (Z.of_nat (length dest)) ms me) in *.
  rewrite lookup_app_r by (rewrite length_take; lia).
  rewrite length_take.
  replace (Z.to_nat sel.1 + k - Z.to_nat sel.1 `min` length dest)%nat with k by lia.
  case_decide as Hk.
  - now rewrite lookup_app_l by lia.
  - rewrite lookup_app_r by lia. rewrite lookup_drop. f_equal. lia.
Qed.

(** The copy is idempotent: a second read of the same selections changes
    nothing. *)
Lemma read_direct_idem source dest fs fe ms me dest' :
  read_direct source dest fs fe ms me = Ok dest' ->
  read_direct source dest' fs fe ms me = Ok dest'.
Proof.
  intros H. pose proof (read_direct_length _ _ _ _ _ _ _ H) as Hlen.
  pose proof (read_direct_inv _ _ _ _ _ _ _ H) as (rows & Hrows & Hl & Hd). cbn zeta in *.
  unfold read_direct. cbn zeta. rewrite Hlen, Hrows. cbn [result_bind]. f_equal.
  pose proof (select_rows_range (Z.of_nat (length dest)) ms me ltac:(lia)) as (H1 & H2 & H3).
  set (sel := select_rows (Z.of_nat (length dest)) ms me) in *.
  rewrite Hd at 3. f_equal; [|f_equal].
  - rewrite Hd. apply take_app_length'. rewrite length_take. lia.
  - rewrite Hd, app_assoc. replace (Z.to_nat (sel.1 + sel.2)) with
      (length (take (Z.to_nat sel.1) dest ++ rows) + 0)%nat
      by (rewrite length_app, length_take; lia).
    rewrite drop_app_add. reflexivity.
Qed.

Lemma dict_get_inv {K V : Type} `{Countable K} (d : gmap K V) k v :
  dict_get d k = Ok v -> d !! k = Some v.
Proof. unfold dict_get. destruct (d !! k); [now intros [= ->]|discriminate]. Qed.

(** What a successful call does, step by step. *)
Lemma ReadTask_call_inv (self : ReadTask) p p1 :
  ReadTask_call self p = Ok (tt, p1) ->
  exists p0 d arrays dest source dest',
    open_dataset (task_file_name self) (task_ptype self ++ "/" ++ task_dataset self) p
    = Ok (Some d, p0)
    /\ p_data p0 !! task_ptype self = Some arrays
    /\ arrays !! task_dataset self = Some dest
    /\ h5_rows (p_world p0) d = Ok source
    /\ read_direct source dest (task_file_offset self)
         (wrap64 (task_file_offset self + task_count self))
         (task_mem_offset self) (wrap64 (task_mem_offset self + task_count self)) = Ok dest'
    /\ p1 = mk_proc (<[task_ptype self := <[task_dataset self := dest']> arrays]> (p_data p0))
                    (p_cache p0) (p_world p0).
Proof.
  unfold ReadTask_call. intros H. apply bind_inv in H as (r & p0 & Eopen & H).
  destruct r as [d|]; [|discriminate].
  apply result_bind_inv in H as (arrays & Ea & H). apply dict_get_inv in Ea.
  apply result_bind_inv in H as (dest & Ed & H). apply dict_get_inv in Ed.
  apply result_bind_inv in H as (source & Es & H).
  apply result_bind_inv in H as (dest' & Er & H).
  injection H as <-. exists p0, d, arrays, dest, source, dest'.
  repeat split; assumption.
Qed.

(** C9: a task that ran can run again with no effect at all: the second run
    returns and leaves the worker (destination arrays, cache and files) as
    the first run left it.  The first run changes no array but the one of
    its own particle type and dataset, keeps the length of that one and
    every row outside the slice [mem_offset : mem_offset + count] of it, as
    Python resolves the slice; for an offset that is not negative and an end
    that is neither negative nor beyond int64, these are the rows outside
    the interval [[mem_offset, mem_offset + count)]. *)
Theorem ReadTask_call_idempotent (self : ReadTask) (p p1 : proc) :
  ReadTask_call self p = Ok (tt, p1) ->
  ReadTask_call self p1 = Ok (tt, p1)
  /\ (forall ptype name,
        (ptype, name) ≠ (task_ptype self, task_dataset self) ->
        buffer p1 ptype name = buffer p ptype name)
  /\ (exists dest dest',
        buffer p (task_ptype self) (task_dataset self) = Some dest
        /\ buffer p1 (task_ptype self) (task_dataset self) = Some dest'
        /\ length dest' = length dest
        /\ (forall i : nat,
              ~ in_slice (Z.of_nat (length dest)) (task_mem_offset self)
                  (wrap64 (task_mem_offset self + task_count self)) i ->
              dest' !! i = dest !! i)
        /\ (0 <= task_mem_offset self ->
            0 <= task_mem_offset self + task_count self < 2 ^ 63 ->
            forall i : nat,
              ~ (task_mem_offset self <= Z.of_nat i < task_mem_offset self + task_count self) ->
              dest' !! i = dest !! i)).
Proof.
  intros Hcall.
  destruct (ReadTask_call_inv _ _ _ Hcall) as
    (p0 & d & arrays & dest & source & dest' & Eopen & Ea & Ed & Es & Er & ->).
  destruct (open_dataset_post _ _ _ _ _ Eopen) as (Hfn & Hdn & Hds & Hdata).
  split; [|split].
  - unfold ReadTask_call, bind.
    rewrite open_dataset_hit by assumption. cbn [p_cache]. rewrite Hds.
    cbn [p_data p_world]. unfold dict_get. rewrite lookup_insert_eq. cbn [result_bind].
    rewrite lookup_insert_eq. cbn [result_bind]. rewrite Es. cbn [result_bind].
    rewrite (read_direct_idem _ _ _ _ _ _ _ Er). cbn [result_bind].
    now rewrite !insert_insert_eq.
  - intros ptype name Hne. unfold buffer. cbn [p_data]. rewrite <- Hdata.
    destruct (decide (ptype = task_ptype self)) as [->|Hp].
    + rewrite lookup_insert_eq, Ea. cbn.
      rewrite lookup_insert_ne by congruence. reflexivity.
    + now rewrite lookup_insert_ne by congruence.
  - exists dest, dest'. unfold buffer. cbn [p_data]. rewrite <- Hdata, Ea.
    rewrite lookup_insert_eq. cbn. rewrite lookup_insert_eq.
    split; [exact Ed|]. split; [reflexivity|].
    split; [exact (read_direct_length _ _ _ _ _ _ _ Er)|].
    split; [intros i; exact (read_direct_frame _ _ _ _ _ _ _ i Er)|].
    intros Hmo Hend i Hi. apply (read_direct_frame _ _ _ _ _ _ _ i Er).
    rewrite wrap64_id by (unfold int64_ok; lia).
    unfold in_slice. cbn zeta. rewrite select_rows_nonneg by lia.
    destruct (Z.ltb_spec (Z.min (task_mem_offset self + task_count self)
                                (Z.of_nat (length dest)))
                         (Z.min (task_mem_offset self) (Z.of_nat (length dest)))); cbn; lia.
Qed.

(** The task of the masses run twice on a fresh worker: rows 0 and 1 are
    written, row 2 is kept; and a task whose memory offset is -2, which
    writes row 1 of the three rows, run twice. *)
Lemma ReadTask_call_idempotent_witness :
  (exists p1 dest',
     ReadTask_call masses_task fresh_proc = Ok (tt, p1)
     /\ ReadTask_call masses_task p1 = Ok (tt, p1)
     /\ buffer p1 "PartType0" "Masses" = Some dest'
     /\ dest' !! 2%nat = Some [0]
     /\ dest' = [[11]; [12]; [0]])
  /\ (exists p1,
        ReadTask_call (mk_task "snap_0.hdf5" "PartType0" "Masses" 3 (-2) 1) fresh_proc
        = Ok (tt, p1)
        /\ ReadTask_call (mk_task "snap_0.hdf5" "PartType0" "Masses" 3 (-2) 1) p1 = Ok (tt, p1)
        /\ buffer p1 "PartType0" "Masses" = Some [[0]; [13]; [0]]).
Proof.
  split.
  - destruct (ReadTask_call masses_task fresh_proc) as [[[] p1]|e] eqn:E;
      [|vm_compute in E; discriminate].
    destruct (ReadTask_call_idempotent masses_task fresh_proc p1 E)
      as (Hagain & _ & dest & dest' & Hb & Hb1 & _ & _ & Hkept).
    exists p1, dest'. split; [reflexivity|]. split; [exact Hagain|]. split; [exact Hb1|].
    vm_compute in Hb. injection Hb as <-. split.
    + rewrite (Hkept ltac:(cbn; lia) ltac:(cbn; lia) 2%nat ltac:(cbn; lia)). reflexivity.
    + vm_compute in E. injection E as <-. vm_compute in Hb1. now injection Hb1 as <-.
  - eexists. split; [vm_compute; reflexivity|]. split.
    + apply (proj1 (ReadTask_call_idempotent
                      (mk_task "snap_0.hdf5" "PartType0" "Masses" 3 (-2) 1) fresh_proc _
                      ltac:(vm_compute; reflexivity))).
    + vm_compute. reflexivity.
Defined.

(** ** The store *)

Lemma read_array_ok (h : store) a arr :
  h !! a = Some arr -> read_array a h = Ok (arr, h).
Proof. intros E. unfold read_array. now rewrite E. Qed.

Lemma getfield_ok (h : store) a i arr c field :
  h !! a = Some arr -> arr !! i = Some c -> getfield a i field h = Ok (field c, h).
Proof.
  intros Ea Ei. unfold getfield. rewrite (bind_ok _ _ _ _ _ (read_array_ok h a arr Ea)).
  now rewrite Ei.
Qed.

Lemma setfield_ok (h : store) a i arr c upd v :
  h !! a = Some arr -> arr !! i = Some c ->
  setfield a i upd v h = Ok (tt, <[a := <[i := upd c v]> arr]> h).
Proof. intros Ea Ei. unfold setfield. now rewrite Ea, Ei. Qed.

Lemma store_insert_lookup (h : store) a arr arr' :
  h !! a = Some arr -> <[a := arr']> h !! a = Some arr'.
Proof. intros E. apply list_lookup_insert_eq. now apply lookup_lt_Some in E. Qed.

(** ** The merge loop *)

Lemma length_merge_step cap arr i : length (merge_step cap arr i) = length arr.
Proof.
  unfold merge_step. destruct (arr !! i); [|reflexivity].
  destruct (arr !! S i); [|reflexivity].
  destruct (mergeable _ _ _); [|reflexivity]. now rewrite !length_insert.
Qed.

(** An iteration of the loop acts on the store as [merge_step] acts on the
    array at [cells_to_read]. *)
Lemma merge_cells_spec cap (h : store) a arr i :
  h !! a = Some arr -> (S i < length arr)%nat ->
  merge_cells cap a i h = Ok (tt, <[a := merge_step cap arr i]> h).
Proof.
  intros Ea Hi.
  destruct (lookup_lt_is_Some_2 arr i ltac:(lia)) as [cell1 E1].
  destruct (lookup_lt_is_Some_2 arr (S i) ltac:(lia)) as [cell2 E2].
  unfold merge_cells, merge_step. rewrite E1, E2.
  rewrite (bind_ok _ _ _ _ _ (getfield_ok h a i arr cell1 file Ea E1)).
  rewrite (bind_ok _ _ _ _ _ (getfield_ok h a (S i) arr cell2 file Ea E2)).
  rewrite (bind_ok _ _ _ _ _ (getfield_ok h a i arr cell1 offset Ea E1)).
  rewrite (bind_ok _ _ _ _ _ (getfield_ok h a i arr cell1 count Ea E1)).
  rewrite (bind_ok _ _ _ _ _ (getfield_ok h a (S i) arr cell2 offset Ea E2)).
  rewrite (bind_ok _ _ _ _ _ (getfield_ok h a (S i) arr cell2 count Ea E2)).
  fold (mergeable cap cell1 cell2).
  destruct (mergeable cap cell1 cell2).
  - rewrite (bind_ok _ _ _ _ _ (getfield_ok h a (S i) arr cell2 count Ea E2)).
    rewrite (bind_ok _ _ _ _ _ (getfield_ok h a i arr cell1 count Ea E1)).
    rewrite (bind_ok _ _ _ _ _ (setfield_ok h a (S i) arr cell2 set_count _ Ea E2)).
    set (arr1 := <[S i := set_count cell2 (wrap64 (count cell2 + count cell1))]> arr).
    assert (Ea1 : <[a := arr1]> h !! a = Some arr1) by now apply (store_insert_lookup h a arr).
    assert (E11 : arr1 !! i = Some cell1).
    { unfold arr1. now rewrite list_lookup_insert_ne by lia. }
    assert (E12 : arr1 !! S i = Some (set_count cell2 (wrap64 (count cell2 + count cell1)))).
    { unfold arr1. apply list_lookup_insert_eq. lia. }
    rewrite (bind_ok _ _ _ _ _ (getfield_ok _ a i arr1 cell1 offset Ea1 E11)).
    rewrite (bind_ok _ _ _ _ _ (setfield_ok _ a (S i) arr1 _ set_offset _ Ea1 E12)).
    set (arr2 := <[S i := _]> arr1).
    assert (Ea2 : <[a := arr2]> (<[a := arr1]> h) !! a = Some arr2)
      by now apply (store_insert_lookup _ a arr1).
    assert (E21 : arr2 !! i = Some cell1).
    { unfold arr2. now rewrite list_lookup_insert_ne by lia. }
    rewrite (setfield_ok _ a i arr2 cell1 set_count 0 Ea2 E21).
    rewrite !list_insert_insert_eq. do 3 f_equal.
    unfold arr2, arr1. now rewrite list_insert_insert_eq.
  - unfold ret. now rewrite list_insert_id.
Qed.

Lemma merge_loop_spec cap (h : store) a (idx : list nat) arr :
  h !! a = Some arr -> Forall (fun i => S i < length arr)%nat idx ->
  for_each idx (merge_cells cap a) h = Ok (tt, <[a := fold_left (merge_step cap) idx arr]> h).
Proof.
  revert h arr. induction idx as [|i idx IH]; intros h arr Ea Hidx; simpl.
  - unfold ret. now rewrite list_insert_id.
  - apply Forall_cons in Hidx as [Hi Hidx].
    rewrite (bind_ok _ _ _ _ _ (merge_cells_spec cap h a arr i Ea Hi)).
    rewrite (IH _ (merge_step cap arr i)).
    + now rewrite list_insert_insert_eq.
    + now apply (store_insert_lookup h a arr).
    + rewrite length_merge_step. exact Hidx.
Qed.

(** [merge_adjacent] rewrites the array at [cells_to_read] in place. *)
Lemma merge_adjacent_spec cap (h : store) a arr :
  h !! a = Some arr ->
  merge_adjacent cap a h = Ok (tt, <[a := merge_array cap arr]> h).
Proof.
  intros Ea. unfold merge_adjacent.
  rewrite (bind_ok _ _ _ _ _ (read_array_ok h a arr Ea)).
  apply merge_loop_spec; [exact Ea|].
  apply Forall_forall. intros i Hi. apply list_elem_of_In, in_seq in Hi. lia.
Qed.

Lemma merge_step_at cap pre cell1 cell2 rest :
  merge_step cap (pre ++ cell1 :: cell2 :: rest) (length pre)
  = if mergeable cap cell1 cell2
    then pre ++ set_count cell1 0 :: absorb cell1 cell2 :: rest
    else pre ++ cell1 :: cell2 :: rest.
Proof.
  unfold merge_step.
  rewrite lookup_app_r, Nat.sub_diag by lia. cbn [lookup list_lookup].
  rewrite lookup_app_r by lia.
  replace (S (length pre) - length pre)%nat with 1%nat by lia. cbn [lookup list_lookup].
  destruct (mergeable cap cell1 cell2); [|reflexivity].
  rewrite insert_app_r_alt by lia.
  replace (S (length pre) - length pre)%nat with 1%nat by lia.
  rewrite insert_app_r_alt by lia. rewrite Nat.sub_diag. reflexivity.
Qed.

(** The loop, read from left to right. *)
Lemma merge_steps_from cap pre cell1 rest :
  fold_left (merge_step cap) (seq (length pre) (length rest)) (pre ++ cell1 :: rest)
  = pre ++ merge_from cap cell1 rest.
Proof.
  revert pre cell1. induction rest as [|cell2 rest IH]; intros pre cell1.
  - reflexivity.
  - cbn [length seq fold_left merge_from]. rewrite merge_step_at.
    destruct (mergeable cap cell1 cell2).
    + rewrite (cons_middle (set_count cell1 0) pre), app_assoc.
      replace (S (length pre)) with (length (pre ++ [set_count cell1 0]))
        by (rewrite length_app; simpl; lia).
      rewrite IH. now rewrite <- app_assoc.
    + rewrite (cons_middle cell1 pre), app_assoc.
      replace (S (length pre)) with (length (pre ++ [cell1]))
        by (rewrite length_app; simpl; lia).
      rewrite IH. now rewrite <- app_assoc.
Qed.

Lemma merge_array_from cap cell1 rest :
  merge_array cap (cell1 :: rest) = merge_from cap cell1 rest.
Proof.
  unfold merge_array. cbn [length]. rewrite Nat.sub_1_r. cbn [Nat.pred].
  exact (merge_steps_from cap [] cell1 rest).
Qed.

(** Every cell the pass leaves behind is the cell it found there, or was
    emptied, or holds a merge the test let through. *)
Lemma merge_from_cap cap rest : forall cell1 cell0,
  (cell1 = cell0 \/ count cell1 = 0 \/ count cell1 <= cap) ->
  Forall2 (fun orig r => r = orig \/ count r = 0 \/ count r <= cap)
          (cell0 :: rest) (merge_from cap cell1 rest).
Proof.
  induction rest as [|cell2 rest IH]; intros cell1 cell0 H1; cbn [merge_from].
  - constructor; [exact H1|constructor].
  - destruct (mergeable cap cell1 cell2) eqn:Em.
    + constructor; [right; left; reflexivity|].
      apply IH. right. right. unfold mergeable in Em.
      apply andb_true_iff in Em as [_ Hcap]. apply Z.leb_le in Hcap.
      cbn. now rewrite Z.add_comm.
    + constructor; [exact H1|]. apply IH. now left.
Qed.

(** C1: the merge pass, run on any array of cells with any cap, succeeds
    and rewrites the array in place; each cell it leaves is the cell that was
    there, or an emptied cell, or a merged cell whose count is within the
    cap.  On three adjacent cells of one file with five particles each, cap
    15 leaves one non-empty cell, of count 15 at the first cell's offset, and
    cap 10 leaves two, of counts 10 (at the first cell's offset) and 5. *)
Theorem merge_adjacent_respects_cap (h : store) (cells_to_read : nat)
    (cells : list swift_cell_t) :
  h !! cells_to_read = Some cells ->
  (forall cap, exists merged,
      merge_adjacent cap cells_to_read h = Ok (tt, <[cells_to_read := merged]> h)
      /\ length merged = length cells
      /\ forall i r, merged !! i = Some r ->
           cells !! i = Some r \/ count r = 0 \/ count r <= cap)
  /\ (forall cell1 cell2 cell3,
        cells = [cell1; cell2; cell3] -> adjacent_fives cell1 cell2 cell3 ->
        (exists merged r,
            merge_adjacent 15 cells_to_read h = Ok (tt, <[cells_to_read := merged]> h)
            /\ discard_empty merged = [r]
            /\ count r = 15 /\ offset r = offset cell1 /\ file r = file cell1)
        /\ (exists merged r,
            merge_adjacent 10 cells_to_read h = Ok (tt, <[cells_to_read := merged]> h)
            /\ discard_empty merged = [r; cell3]
            /\ count r = 10 /\ offset r = offset cell1 /\ file r = file cell1
            /\ count cell3 = 5)).
Proof.
  intros Ea. split.
  - intros cap. exists (merge_array cap cells).
    split; [now apply merge_adjacent_spec|].
    destruct cells as [|cell1 rest]; [split; [reflexivity|intros i r H; discriminate]|].
    rewrite merge_array_from.
    pose proof (merge_from_cap cap rest cell1 cell1 (or_introl eq_refl)) as HF.
    split; [symmetry; exact (Forall2_length _ _ _ HF)|].
    intros i r Hr. destruct (Forall2_lookup_r _ _ _ _ _ HF Hr) as (orig & Horig & [->|H]).
    + now left.
    + now right.
  - intros cell1 cell2 cell3 -> (Hf2 & Hf3 & Hc1 & Hc2 & Hc3 & Ho2 & Ho3 & Hok1 & Hok3).
    assert (Hw5 : wrap64 (offset cell1 + 5) = offset cell1 + 5)
      by (apply wrap64_id; unfold int64_ok in *; lia).
    assert (Hw10 : wrap64 (offset cell1 + 10) = offset cell1 + 10)
      by (apply wrap64_id; unfold int64_ok in *; lia).
    split.
    + exists (merge_array 15 [cell1; cell2; cell3]), (absorb (absorb cell1 cell2) cell3).
      split; [now apply merge_adjacent_spec|].
      rewrite merge_array_from. cbn [merge_from].
      assert (E12 : mergeable 15 cell1 cell2 = true).
      { unfold mergeable. rewrite Hf2, Hc1, Hc2, Ho2, Hw5, !Z.eqb_refl. reflexivity. }
      rewrite E12.
      assert (E23 : mergeable 15 (absorb cell1 cell2) cell3 = true).
      { unfold mergeable, absorb. cbn. rewrite Hf2, Hf3, Hc1, Hc2, Hc3, Ho3.
        change (wrap64 (5 + 5)) with 10. rewrite Hw10, !Z.eqb_refl. reflexivity. }
      rewrite E23. unfold discard_empty, count_positive. cbn.
      rewrite Hc1, Hc2, Hc3. change (wrap64 (5 + 5)) with 10.
      change (0 <? wrap64 (5 + 10)) with true. cbn.
      repeat split; cbn; rewrite ?Hc1, ?Hc2, ?Hc3; solve [reflexivity|assumption].
    + exists (merge_array 10 [cell1; cell2; cell3]), (absorb cell1 cell2).
      split; [now apply merge_adjacent_spec|].
      rewrite merge_array_from. cbn [merge_from].
      assert (E12 : mergeable 10 cell1 cell2 = true).
      { unfold mergeable. rewrite Hf2, Hc1, Hc2, Ho2, Hw5, !Z.eqb_refl. reflexivity. }
      rewrite E12.
      assert (E23 : mergeable 10 (absorb cell1 cell2) cell3 = false).
      { unfold mergeable, absorb. cbn. rewrite Hc1, Hc2, Hc3.
        change (wrap64 (5 + 5)) with 10. change (wrap64 (10 + 5) <=? 10) with false.
        apply andb_false_r. }
      rewrite E23. unfold discard_empty, count_positive. cbn.
      rewrite Hc1, Hc2, Hc3. change (0 <? wrap64 (5 + 5)) with true.
      cbn. repeat split; cbn; rewrite ?Hc1, ?Hc2, ?Hc3; solve [reflexivity|assumption].
Qed.

Lemma merge_adjacent_respects_cap_witness :
  exists merged r,
    merge_adjacent 10 0 [[five_at 100; five_at 105; five_at 110]]
    = Ok (tt, [merged])
    /\ discard_empty merged = [r; five_at 110]
    /\ count r = 10 /\ offset r = 100.
Proof.
  destruct (proj2 (merge_adjacent_respects_cap
                     [[five_at 100; five_at 105; five_at 110]] 0
                     [five_at 100; five_at 105; five_at 110] eq_refl)
                  (five_at 100) (five_at 105) (five_at 110) eq_refl)
    as [_ (merged & r & E & Hd & Hc & Ho & _)].
  - unfold adjacent_fives, int64_ok. cbn. lia.
  - exists merged, r. auto.
Defined.

(** ** The stable sort by (file, offset) *)

Lemma key_lt_spec a b :
  key_lt a b = true <->
  file a < file b \/ (file a = file b /\ offset a < offset b).
Proof.
  unfold key_lt. rewrite orb_true_iff, andb_true_iff, !Z.ltb_lt, Z.eqb_eq. tauto.
Qed.

Lemma key_lt_false a b :
  key_lt a b = false <->
  file b < file a \/ (file a = file b /\ offset b <= offset a).
Proof.
  rewrite <- not_true_iff_false, key_lt_spec. lia.
Qed.

Lemma lexsort_insert_perm cells i sorted :
  lexsort_insert cells i sorted ≡ₚ i :: sorted.
Proof.
  induction sorted as [|j rest IH]; simpl; [reflexivity|].
  destruct (cells !! i) as [ci|]; [|reflexivity].
  destruct (cells !! j) as [cj|]; [|reflexivity].
  destruct (key_lt cj ci); [|reflexivity].
  rewrite IH. apply Permutation_swap.
Qed.

Lemma foldr_insert_perm cells l :
  foldr (lexsort_insert cells) [] l ≡ₚ l.
Proof.
  induction l as [|i l IH]; simpl; [reflexivity|].
  now rewrite lexsort_insert_perm, IH.
Qed.

Lemma lexsort_perm cells : lexsort cells ≡ₚ seq 0 (length cells).
Proof. apply foldr_insert_perm. Qed.

Lemma before_trans cells i j k : before cells i j -> before cells j k -> before cells i k.
Proof.
  intros (ci & cj & Ei & Ej & H1) (cj' & ck & Ej' & Ek & H2).
  rewrite Ej in Ej'. injection Ej' as <-. exists ci, ck. repeat split; try assumption. lia.
Qed.

Lemma before_asym cells i j : before cells i j -> before cells j i -> False.
Proof.
  intros (ci & cj & Ei & Ej & H1) (cj' & ci' & Ej' & Ei' & H2).
  rewrite Ej in Ej'. injection Ej' as <-. rewrite Ei in Ei'. injection Ei' as <-. lia.
Qed.

Lemma before_total cells i j :
  (i < length cells)%nat -> (j < length cells)%nat -> i ≠ j ->
  before cells i j \/ before cells j i.
Proof.
  intros Hi Hj Hne.
  destruct (lookup_lt_is_Some_2 cells i Hi) as [ci Ei].
  destruct (lookup_lt_is_Some_2 cells j Hj) as [cj Ej].
  destruct (Z.lt_total (file ci) (file cj)) as [H|[H|H]];
    [left; exists ci, cj; auto| |right; exists cj, ci; auto].
  destruct (Z.lt_total (offset ci) (offset cj)) as [H'|[H'|H']];
    [left; exists ci, cj; auto 6| |right; exists cj, ci; auto 6].
  destruct (Nat.lt_total i j) as [H''|[H''|H'']]; [|contradiction|].
  - left. exists ci, cj. auto 8.
  - right. exists cj, ci. auto 8.
Qed.

(** Inserting an index smaller than all those of a sorted list keeps it
    sorted. *)
Lemma lexsort_insert_sorted cells i sorted :
  (i < length cells)%nat ->
  Forall (fun j => (i < j)%nat /\ (j < length cells)%nat) sorted ->
  StronglySorted (before cells) sorted ->
  StronglySorted (before cells) (lexsort_insert cells i sorted).
Proof.
  intros Hi. destruct (lookup_lt_is_Some_2 cells i Hi) as [ci Ei].
  induction sorted as [|j rest IH]; intros Hall Hs; simpl.
  - repeat constructor.
  - apply Forall_cons in Hall as [[Hij Hj] Hall].
    apply StronglySorted_inv in Hs as [Hs Hjrest].
    destruct (lookup_lt_is_Some_2 cells j Hj) as [cj Ej]. rewrite Ei, Ej.
    destruct (key_lt cj ci) eqn:Ek.
    + apply key_lt_spec in Ek.
      assert (Hji : before cells j i) by (exists cj, ci; repeat split; try assumption; lia).
      constructor; [now apply IH|].
      rewrite Forall_forall. intros x Hx.
      rewrite lexsort_insert_perm in Hx. apply elem_of_cons in Hx as [->|Hx]; [exact Hji|].
      rewrite Forall_forall in Hjrest. now apply Hjrest.
    + apply key_lt_false in Ek.
      assert (Hij' : before cells i j) by (exists ci, cj; repeat split; try assumption; lia).
      constructor; [constructor; assumption|].
      constructor; [exact Hij'|].
      eapply Forall_impl; [exact Hjrest|]. intros x Hx. now apply (before_trans cells i j x).
Qed.

Lemma foldr_insert_sorted cells s n :
  (s + n <= length cells)%nat ->
  StronglySorted (before cells) (foldr (lexsort_insert cells) [] (seq s n)).
Proof.
  revert s. induction n as [|n IH]; intros s Hn; simpl; [constructor|].
  apply lexsort_insert_sorted; [lia| |apply IH; lia].
  rewrite Forall_forall. intros j Hj. rewrite foldr_insert_perm in Hj.
  apply list_elem_of_In, in_seq in Hj. lia.
Qed.

(** [lexsort] lists the indices in snapshot order. *)
Lemma lexsort_sorted cells : StronglySorted (before cells) (lexsort cells).
Proof. apply foldr_insert_sorted. lia. Qed.

Lemma lexsort_NoDup cells : NoDup (lexsort cells).
Proof. rewrite lexsort_perm. apply NoDup_seq. Qed.

Lemma lexsort_lt cells k i : lexsort cells !! k = Some i -> (i < length cells)%nat.
Proof.
  intros H. apply list_elem_of_lookup_2 in H. rewrite lexsort_perm in H.
  apply list_elem_of_In, in_seq in H. lia.
Qed.

Lemma length_lexsort cells : length (lexsort cells) = length cells.
Proof. rewrite lexsort_perm. apply length_seq. Qed.

Lemma StronglySorted_lookup_lt {A : Type} (R : A -> A -> Prop) l p q x y :
  StronglySorted R l -> l !! p = Some x -> l !! q = Some y -> (p < q)%nat -> R x y.
Proof.
  intros Hs. revert p q. induction Hs as [|a l Hs IH Hall]; intros p q Hp Hq Hlt.
  - discriminate.
  - destruct q as [|q]; [lia|]. simpl in Hq. destruct p as [|p].
    + injection Hp as <-. rewrite Forall_forall in Hall.
      apply Hall. now apply list_elem_of_lookup_2 in Hq.
    + simpl in Hp. apply (IH p q); [assumption..|lia].
Qed.

(** The position of a cell in the sorted list follows the snapshot order. *)
Lemma lexsort_position cells p q i j :
  lexsort cells !! p = Some i -> lexsort cells !! q = Some j ->
  before cells i j -> (p < q)%nat.
Proof.
  intros Hp Hq Hb. destruct (Nat.lt_total p q) as [H|[H|H]]; [exact H| |].
  - subst q. rewrite Hp in Hq. injection Hq as <-. destruct (before_asym _ _ _ Hb Hb).
  - pose proof (StronglySorted_lookup_lt _ _ _ _ _ _ (lexsort_sorted cells) Hq Hp H) as Hb'.
    destruct (before_asym _ _ _ Hb Hb').
Qed.

(** ** The ordering loop *)

Lemma length_assign_order arr entry : length (assign_order arr entry) = length arr.
Proof. unfold assign_order. destruct (arr !! entry.2); [apply length_insert|reflexivity]. Qed.

Lemma length_fold_assign_order entries arr :
  length (fold_left assign_order entries arr) = length arr.
Proof.
  revert arr. induction entries as [|e entries IH]; intros arr; simpl; [reflexivity|].
  now rewrite IH, length_assign_order.
Qed.

(** The loop acts on the store as [assign_order] acts on the array. *)
Lemma write_order_loop_spec (h : store) cellgrid entries arr :
  h !! cellgrid = Some arr ->
  Forall (fun entry : nat * nat => (entry.2 < length arr)%nat) entries ->
  for_each entries (write_order cellgrid) h
  = Ok (tt, <[cellgrid := fold_left assign_order entries arr]> h).
Proof.
  revert h arr. induction entries as [|[k i] entries IH]; intros h arr Ea Hall;
    cbn [for_each fold_left].
  - unfold ret. now rewrite list_insert_id.
  - apply Forall_cons in Hall as [Hi Hall]. cbn [snd] in Hi.
    destruct (lookup_lt_is_Some_2 arr i Hi) as [c Ec].
    unfold write_order at 1.
    rewrite (bind_ok _ _ _ _ _ (setfield_ok h cellgrid i arr c set_order _ Ea Ec)).
    rewrite (IH _ (<[i := set_order c (wrap32 (Z.of_nat k))]> arr)).
    + rewrite list_insert_insert_eq.
      replace (assign_order arr (k, i)) with (<[i := set_order c (wrap32 (Z.of_nat k))]> arr);
        [reflexivity|].
      unfold assign_order. cbn [fst snd]. now rewrite Ec.
    + now apply (store_insert_lookup h cellgrid arr).
    + rewrite length_insert. exact Hall.
Qed.

Lemma determine_ordering_ok (h : store) cellgrid cells :
  h !! cellgrid = Some cells ->
  determine_ordering cellgrid h = Ok (tt, <[cellgrid := ordered_cells cells]> h).
Proof.
  intros Ea. unfold determine_ordering.
  rewrite (bind_ok _ _ _ _ _ (read_array_ok h cellgrid cells Ea)).
  apply write_order_loop_spec; [exact Ea|].
  rewrite Forall_forall. intros [k i] Hin. simpl.
  unfold enumerate in Hin. apply list_elem_of_In, in_combine_r, list_elem_of_In in Hin.
  apply list_elem_of_lookup in Hin as [p Hp]. now apply lexsort_lt in Hp.
Qed.

(** The loop over the entries [(s, i0), (s+1, i1), ...] of distinct indices:
    cell [i_p] gets order [s + p], a cell that is not listed is kept. *)
Lemma fold_assign_order_lookup idx : forall s arr i c,
  NoDup idx -> arr !! i = Some c ->
  (i ∉ idx -> fold_left assign_order (combine (seq s (length idx)) idx) arr !! i = Some c)
  /\ (forall p, idx !! p = Some i ->
        fold_left assign_order (combine (seq s (length idx)) idx) arr !! i
        = Some (set_order c (wrap32 (Z.of_nat (s + p))))).
Proof.
  induction idx as [|j idx IH]; intros s arr i c Hnd Hc; simpl.
  - split; [intros _; exact Hc|intros p Hp; discriminate].
  - apply NoDup_cons in Hnd as [Hj Hnd]. unfold assign_order at 2 4. simpl.
    destruct (arr !! j) as [cj|] eqn:Ej.
    + split.
      * intros Hi. apply not_elem_of_cons in Hi as [Hij Hi].
        apply (IH (S s) _ i c Hnd); [|exact Hi].
        now rewrite list_lookup_insert_ne by congruence.
      * intros [|p] Hp; simpl in Hp.
        -- injection Hp as ->. rewrite Ej in Hc. injection Hc as ->.
           rewrite Nat.add_0_r.
           apply (IH (S s) _ i _ Hnd); [|exact Hj].
           apply list_lookup_insert_eq. now apply lookup_lt_Some in Ej.
        -- assert (i ≠ j).
           { intros ->. apply Hj. now apply list_elem_of_lookup_2 in Hp. }
           replace (s + S p)%nat with (S s + p)%nat by lia.
           apply (IH (S s) _ i c Hnd); [|exact Hp].
           now rewrite list_lookup_insert_ne by congruence.
    + split.
      * intros Hi. apply not_elem_of_cons in Hi as [Hij Hi].
        now apply (IH (S s) _ i c Hnd).
      * intros [|p] Hp; simpl in Hp.
        -- injection Hp as ->. congruence.
        -- replace (s + S p)%nat with (S s + p)%nat by lia.
           now apply (IH (S s) _ i c Hnd).
Qed.

(** Cell [i], at position [p] of the sorted list, gets order [p]. *)
Lemma ordered_cells_lookup cells p i c :
  lexsort cells !! p = Some i -> cells !! i = Some c ->
  ordered_cells cells !! i = Some (set_order c (wrap32 (Z.of_nat p))).
Proof.
  intros Hp Hc. unfold ordered_cells, enumerate.
  exact (proj2 (fold_assign_order_lookup (lexsort cells) 0 cells i c
                  (lexsort_NoDup cells) Hc) p Hp).
Qed.

Lemma lexsort_position_of cells i :
  (i < length cells)%nat -> exists p, lexsort cells !! p = Some i.
Proof.
  intros Hi. apply list_elem_of_lookup. rewrite lexsort_perm.
  apply list_elem_of_In, in_seq. lia.
Qed.

(** ** What prepare_read does to the store *)

Lemma lookup_snoc_new (h : store) arr : (h ++ [arr]) !! length h = Some arr.
Proof. now apply list_lookup_middle. Qed.

Lemma insert_snoc (h : store) arr arr' : <[length h := arr']> (h ++ [arr]) = h ++ [arr'].
Proof. rewrite insert_app_r_alt by lia. now rewrite Nat.sub_diag. Qed.

Lemma boolean_index_spec (h : store) grid dimension mask :
  boolean_index grid dimension mask h
  = match h !! grid with
    | None => Raise ValueError
    | Some cells =>
        if shape_is dimension mask && (length cells =? length (ravel mask))%nat
        then Ok (length h, h ++ [select cells (ravel mask)])
        else Raise IndexError
    end.
Proof.
  unfold boolean_index, bind, read_array. destruct (h !! grid) as [cells|]; [|reflexivity].
  now destruct (_ && _).
Qed.

Lemma flatten_ok (h : store) a cells :
  h !! a = Some cells -> flatten a h = Ok (length h, h ++ [cells]).
Proof. intros E. unfold flatten. now rewrite (bind_ok _ _ _ _ _ (read_array_ok h a cells E)). Qed.

Lemma nonempty_cells_ok (h : store) a cells :
  h !! a = Some cells -> nonempty_cells a h = Ok (length h, h ++ [discard_empty cells]).
Proof.
  intros E. unfold nonempty_cells. now rewrite (bind_ok _ _ _ _ _ (read_array_ok h a cells E)).
Qed.

Lemma sorted_cells_ok (h : store) a cells :
  h !! a = Some cells ->
  sorted_cells a h = Ok (length h, h ++ [take_indices cells (lexsort cells)]).
Proof.
  intros E. unfold sorted_cells. now rewrite (bind_ok _ _ _ _ _ (read_array_ok h a cells E)).
Qed.

Section PrepareRead.

Context {quantity : Type}.

(** [prepare_read] step by step: it raises when the particle type is
    unknown or the mask has not the shape of the grid; otherwise it
    allocates its five working arrays after the arrays of the store, and
    returns the reads of the planned cells. *)
Lemma prepare_read_unfold (self : @SWIFTCellGrid quantity) ptype mask (h : store) :
  prepare_read self ptype mask h
  = match cell self !! ptype with
    | None => Raise KeyError
    | Some grid =>
        match h !! grid with
        | None => Raise ValueError
        | Some cells =>
            if shape_is (dimension self) mask && (length cells =? length (ravel mask))%nat
            then match make_reads (planned_cells max_size cells mask) with
                 | Ok reads => Ok (reads, h ++ working_arrays max_size cells mask)
                 | Raise e => Raise e
                 end
            else Raise IndexError
        end
    end.
Proof.
  unfold prepare_read. destruct (cell self !! ptype) as [grid|]; [|reflexivity].
  unfold bind at 1. rewrite boolean_index_spec.
  destruct (h !! grid) as [cells|]; [|reflexivity].
  destruct (shape_is (dimension self) mask && (length cells =? length (ravel mask))%nat);
    [|reflexivity].
  set (selected := select cells (ravel mask)).
  rewrite (bind_ok _ _ _ _ _ (flatten_ok _ _ _ (lookup_snoc_new h selected))).
  set (h1 := h ++ [selected]).
  rewrite (bind_ok _ _ _ _ _ (nonempty_cells_ok _ _ _ (lookup_snoc_new h1 selected))).
  set (h2 := h1 ++ [selected]). set (nonempty := discard_empty selected).
  rewrite (bind_ok _ _ _ _ _ (sorted_cells_ok _ _ _ (lookup_snoc_new h2 nonempty))).
  set (h3 := h2 ++ [nonempty]).
  set (sorted := take_indices nonempty (lexsort nonempty)).
  rewrite (bind_ok _ _ _ _ _
             (merge_adjacent_spec max_size _ _ _ (lookup_snoc_new h3 sorted))).
  rewrite insert_snoc. set (merged := merge_array max_size sorted).
  rewrite (bind_ok _ _ _ _ _ (nonempty_cells_ok _ _ _ (lookup_snoc_new h3 merged))).
  set (h4 := h3 ++ [merged]).
  rewrite (bind_ok _ _ _ _ _ (read_array_ok _ _ _ (lookup_snoc_new h4 (discard_empty merged)))).
  unfold lift_result, planned_cells, working_arrays.
  fold selected. fold nonempty. fold sorted. fold merged.
  destruct (make_reads (discard_empty merged)) as [reads|e]; [|reflexivity].
  unfold h4, h3, h2, h1. now rewrite <- !app_assoc.
Qed.

(** A call that returns leaves every array that was in the store as it
    was. *)
Lemma prepare_read_frame (self : @SWIFTCellGrid quantity) ptype mask (h h' : store) reads :
  prepare_read self ptype mask h = Ok (reads, h') ->
  forall a arr, h !! a = Some arr -> h' !! a = Some arr.
Proof.
  rewrite prepare_read_unfold. intros H a arr Ha.
  destruct (cell self !! ptype) as [grid|]; [|discriminate].
  destruct (h !! grid) as [cells|]; [|discriminate].
  destruct (_ && _); [|discriminate].
  destruct (make_reads _) as [r|]; [|discriminate].
  injection H as _ <-. now apply lookup_app_l_Some.
Qed.

End PrepareRead.

Section Frame.

Context {quantity : Type}.

(** C10: a call of [prepare_read] that returns leaves every array of the
    store as it found it, so every cell array of the grid holds the same
    records (centre, count, offset, file and order) after the call as
    before.  The call works on arrays of its own: the store after the call is
    the store before it followed by the five arrays the call allocated, and
    the merge pass wrote into the fourth of them. *)
Theorem prepare_read_leaves_grid_unchanged (self : @SWIFTCellGrid quantity)
    (ptype : string) (mask : mask_t) (h h' : store) (reads : gmap Z (list read_t)) :
  prepare_read self ptype mask h = Ok (reads, h') ->
  (forall a arr, h !! a = Some arr -> h' !! a = Some arr)
  /\ (forall ptype' grid cells,
        cell self !! ptype' = Some grid -> h !! grid = Some cells ->
        h' !! grid = Some cells)
  /\ (exists grid cells,
        cell self !! ptype = Some grid /\ h !! grid = Some cells
        /\ h' = h ++ working_arrays max_size cells mask).
Proof.
  intros H. pose proof (prepare_read_frame self ptype mask h h' reads H) as Hframe.
  split; [exact Hframe|]. split; [intros ptype' grid cells _; apply Hframe|].
  rewrite prepare_read_unfold in H.
  destruct (cell self !! ptype) as [grid|] eqn:Eg; [|discriminate].
  destruct (h !! grid) as [cells|] eqn:Ec; [|discriminate].
  destruct (_ && _); [|discriminate].
  destruct (make_reads _) as [r|]; [|discriminate].
  injection H as _ <-. exists grid, cells. repeat split; assumption || reflexivity.
Qed.

End Frame.

(** On the line grid the merge pass empties two cells of its working array
    (location 4) while the grid's array (location 0) keeps its counts. *)
Lemma prepare_read_leaves_grid_unchanged_witness :
  exists reads h',
    prepare_read line_grid "PartType0" [[[true; true; true]]] [line_cells] = Ok (reads, h')
    /\ h' !! 0%nat = Some line_cells
    /\ map count <$> h' !! 4%nat = Some [0; 0; 15].
Proof.
  destruct (prepare_read line_grid "PartType0" [[[true; true; true]]] [line_cells])
    as [[reads h']|e] eqn:E; [|vm_compute in E; discriminate].
  exists reads, h'. split; [reflexivity|].
  split.
  - exact (proj1 (prepare_read_leaves_grid_unchanged line_grid "PartType0" _ _ _ _ E)
             0%nat line_cells eq_refl).
  - vm_compute in E. injection E as _ <-. reflexivity.
Defined.

Section Ordering.

Context {quantity : Type}.

(** C6: the ordering loop of [__init__] succeeds on any cell array of at
    most 2^31 cells and rewrites it in place, changing the [order] fields
    only.  Afterwards the [order] values are a permutation of
    [0, nr_cells); the cell at position [k] of the stable sort by
    (file, offset) has order [k] (the inverse permutation); a cell that comes
    before another in (file, offset) order, ties broken by index as the
    stable sort does, has the strictly smaller order; and a later call of
    [prepare_read] leaves the array, orders included, as it is. *)
Theorem determine_ordering_spec (h : store) (cellgrid : nat) (cells : list swift_cell_t) :
  h !! cellgrid = Some cells ->
  Z.of_nat (length cells) <= 2 ^ 31 ->
  exists ordered,
    determine_ordering cellgrid h = Ok (tt, <[cellgrid := ordered]> h)
    /\ length ordered = length cells
    /\ (forall i c, cells !! i = Some c ->
          exists k, ordered !! i = Some (set_order c k))
    /\ map order ordered ≡ₚ map Z.of_nat (seq 0 (length cells))
    /\ (forall k i, lexsort cells !! k = Some i ->
          order <$> ordered !! i = Some (Z.of_nat k))
    /\ (forall i j ci cj,
          ordered !! i = Some ci -> ordered !! j = Some cj ->
          before cells i j -> order ci < order cj)
    /\ (forall (self : @SWIFTCellGrid quantity) ptype mask (h1 h2 : store) reads,
          h1 !! cellgrid = Some ordered ->
          prepare_read self ptype mask h1 = Ok (reads, h2) ->
          h2 !! cellgrid = Some ordered).
Proof.
  intros Ea Hn. exists (ordered_cells cells).
  assert (Hlen : length (ordered_cells cells) = length cells).
  { unfold ordered_cells. apply length_fold_assign_order. }
  assert (Hord : forall p i, lexsort cells !! p = Some i ->
            exists c, cells !! i = Some c
                      /\ ordered_cells cells !! i = Some (set_order c (Z.of_nat p))).
  { intros p i Hp.
    destruct (lookup_lt_is_Some_2 cells i (lexsort_lt cells p i Hp)) as [c Ec].
    exists c. split; [exact Ec|].
    rewrite (ordered_cells_lookup cells p i c Hp Ec). do 2 f_equal.
    apply wrap32_id. apply lookup_lt_Some in Hp. rewrite length_lexsort in Hp.
    unfold int32_ok. lia. }
  split; [now apply determine_ordering_ok|]. split; [exact Hlen|].
  split; [|split; [|split; [|split]]].
  - intros i c Ec.
    destruct (lexsort_position_of cells i (lookup_lt_Some _ _ _ Ec)) as [p Hp].
    destruct (Hord p i Hp) as (c' & Ec' & Ho). rewrite Ec in Ec'. injection Ec' as <-.
    now exists (Z.of_nat p).
  - set (ord := fun i : nat => default 0 (order <$> ordered_cells cells !! i)).
    assert (E1 : map order (ordered_cells cells) = map ord (seq 0 (length cells))).
    { apply list_eq. intros i. rewrite !list_lookup_fmap.
      destruct (ordered_cells cells !! i) as [c|] eqn:Ec.
      - pose proof (lookup_lt_Some _ _ _ Ec) as Hi. rewrite Hlen in Hi.
        rewrite lookup_seq_lt by exact Hi. simpl. unfold ord. now rewrite Ec.
      - apply lookup_ge_None in Ec. rewrite Hlen in Ec.
        now rewrite lookup_seq_ge by exact Ec. }
    assert (E2 : map ord (lexsort cells) = map Z.of_nat (seq 0 (length cells))).
    { apply list_eq. intros p. rewrite !list_lookup_fmap.
      destruct (lexsort cells !! p) as [i|] eqn:Hp.
      - pose proof (lookup_lt_Some _ _ _ Hp) as Hlt. rewrite length_lexsort in Hlt.
        rewrite lookup_seq_lt by exact Hlt. simpl.
        destruct (Hord p i Hp) as (c & _ & Ho). unfold ord. now rewrite Ho.
      - apply lookup_ge_None in Hp. rewrite length_lexsort in Hp.
        now rewrite lookup_seq_ge by exact Hp. }
    rewrite E1, <- E2. apply Permutation_map. symmetry. apply lexsort_perm.
  - intros k i Hk. destruct (Hord k i Hk) as (c & _ & Ho). now rewrite Ho.
  - intros i j ci cj Hi Hj Hb.
    destruct (lexsort_position_of cells i) as [p Hp];
      [rewrite <- Hlen; exact (lookup_lt_Some _ _ _ Hi)|].
    destruct (lexsort_position_of cells j) as [q Hq];
      [rewrite <- Hlen; exact (lookup_lt_Some _ _ _ Hj)|].
    pose proof (lexsort_position cells p q i j Hp Hq Hb) as Hlt.
    destruct (Hord p i Hp) as (c & _ & Ho). rewrite Hi in Ho. injection Ho as ->.
    destruct (Hord q j Hq) as (c' & _ & Ho'). rewrite Hj in Ho'. injection Ho' as ->.
    simpl. lia.
  - intros self ptype mask h1 h2 reads H1 Hcall.
    exact (prepare_read_frame self ptype mask h1 h2 reads Hcall _ _ H1).
Qed.

End Ordering.

Lemma determine_ordering_spec_witness :
  exists ordered,
    determine_ordering 0 [[five_at 110; five_at 100; five_at 105]] = Ok (tt, [ordered])
    /\ map order ordered = [2; 0; 1].
Proof.
  destruct (@determine_ordering_spec Z [[five_at 110; five_at 100; five_at 105]] 0
              [five_at 110; five_at 100; five_at 105] eq_refl)
    as (ordered & E & _); [simpl; lia|].
  exists ordered. split; [exact E|].
  vm_compute in E. injection E as <-. reflexivity.
Defined.

(** ** np.unique *)

Lemma elem_of_unique_insert z l x : x ∈ unique_insert z l <-> x = z \/ x ∈ l.
Proof.
  induction l as [|y l IH]; simpl.
  - rewrite list_elem_of_singleton, elem_of_nil. tauto.
  - destruct (Z.ltb_spec z y); [now rewrite elem_of_cons|].
    destruct (Z.eqb_spec z y) as [->|Hne].
    + rewrite elem_of_cons. tauto.
    + rewrite !elem_of_cons, IH. tauto.
Qed.

Lemma elem_of_np_unique l x : x ∈ np_unique l <-> x ∈ l.
Proof.
  unfold np_unique. induction l as [|y l IH]; simpl; [reflexivity|].
  now rewrite elem_of_unique_insert, IH, elem_of_cons.
Qed.

Lemma unique_insert_sorted z l :
  StronglySorted Z.lt l -> StronglySorted Z.lt (unique_insert z l).
Proof.
  induction l as [|y l IH]; intros Hs; simpl.
  - repeat constructor.
  - apply StronglySorted_inv in Hs as [Hs Hy].
    destruct (Z.ltb_spec z y).
    + constructor; [now constructor|]. constructor; [assumption|].
      eapply Forall_impl; [exact Hy|]. intros; simpl in *; lia.
    + destruct (Z.eqb_spec z y) as [->|Hne]; [now constructor|].
      constructor; [now apply IH|].
      rewrite Forall_forall. intros x Hx. apply elem_of_unique_insert in Hx as [->|Hx]; [lia|].
      rewrite Forall_forall in Hy. now apply Hy.
Qed.

Lemma np_unique_sorted l : StronglySorted Z.lt (np_unique l).
Proof.
  unfold np_unique. induction l as [|y l IH]; simpl; [constructor|].
  now apply unique_insert_sorted.
Qed.

(** Two strictly ascending lists with the same elements are the same list. *)
Lemma strictly_sorted_ext (l1 l2 : list Z) :
  StronglySorted Z.lt l1 -> StronglySorted Z.lt l2 ->
  (forall x, x ∈ l1 <-> x ∈ l2) -> l1 = l2.
Proof.
  revert l2. induction l1 as [|a l1 IH]; intros l2 H1 H2 Hext.
  - destruct l2 as [|b l2]; [reflexivity|].
    exfalso. apply (not_elem_of_nil b), Hext, list_elem_of_here.
  - destruct l2 as [|b l2].
    { exfalso. apply (not_elem_of_nil a), Hext, list_elem_of_here. }
    apply StronglySorted_inv in H1 as [H1 Ha]. apply StronglySorted_inv in H2 as [H2 Hb].
    rewrite Forall_forall in Ha, Hb.
    assert (a = b) as ->.
    { pose proof (proj1 (Hext a) (list_elem_of_here _ _)) as Hab.
      pose proof (proj2 (Hext b) (list_elem_of_here _ _)) as Hba.
      apply elem_of_cons in Hab as [?|Hab]; [assumption|].
      apply elem_of_cons in Hba as [?|Hba]; [congruence|].
      specialize (Ha _ Hba). specialize (Hb _ Hab). lia. }
    f_equal. apply IH; [assumption..|].
    intros x. split; intros Hx.
    + pose proof (proj1 (Hext x) (list_elem_of_further _ _ _ Hx)) as H.
      apply elem_of_cons in H as [->|H]; [|exact H]. specialize (Ha _ Hx). lia.
    + pose proof (proj2 (Hext x) (list_elem_of_further _ _ _ Hx)) as H.
      apply elem_of_cons in H as [->|H]; [|exact H]. specialize (Hb _ Hx). lia.
Qed.

(** ** The dict of reads *)

Lemma append_read_loop cells : forall mem_offset (reads : gmap Z (list read_t)),
  (forall c, c ∈ cells -> is_Some (reads !! file c)) ->
  exists mem_offset' reads',
    fold_result append_read cells (mem_offset, reads) = Ok (mem_offset', reads')
    /\ forall f,
        reads' !! f
        = (fun l => l ++ reads_of_file f (with_offsets mem_offset cells)) <$> reads !! f.
Proof.
  induction cells as [|c rest IH]; intros m rd Hkeys; cbn [fold_result with_offsets].
  - exists m, rd. split; [reflexivity|]. intros f. unfold reads_of_file. cbn.
    destruct (rd !! f) as [l|]; cbn; [now rewrite app_nil_r|reflexivity].
  - destruct (Hkeys c (list_elem_of_here _ _)) as [l El].
    assert (Es : append_read (m, rd) c
                 = Ok (wrap64 (m + count c), <[file c := l ++ [(offset c, m, count c)]]> rd))
      by (unfold append_read; now rewrite El).
    rewrite Es. cbn [result_bind].
    destruct (IH (wrap64 (m + count c))
                 (<[file c := l ++ [(offset c, m, count c)]]> rd)) as (m' & rd' & E & Hl).
    { intros c' Hc'. destruct (decide (file c' = file c)) as [->|Hne].
      - rewrite lookup_insert_eq. eauto.
      - rewrite lookup_insert_ne by congruence. apply Hkeys. now apply list_elem_of_further. }
    exists m', rd'. split; [exact E|]. intros f. rewrite Hl. unfold reads_of_file. cbn.
    destruct (Z.eqb_spec (file c) f) as [<-|Hne].
    + rewrite lookup_insert_eq, El. cbn. now rewrite <- app_assoc.
    + now rewrite lookup_insert_ne by congruence.
Qed.

(** [make_reads] never raises; file [f] is a key of the dict when a cell is
    in it, and its entry lists the reads of its cells, in order. *)
Lemma make_reads_spec cells :
  exists reads,
    make_reads cells = Ok reads
    /\ forall f,
        reads !! f
        = if decide (f ∈ map file cells)
          then Some (reads_of_file f (with_offsets 0 cells))
          else None.
Proof.
  unfold make_reads.
  set (reads0 := list_to_map _ : gmap Z (list read_t)).
  assert (H0 : forall f, reads0 !! f = if decide (f ∈ map file cells) then Some [] else None).
  { intros f. unfold reads0. case_decide as Hf.
    - destruct (list_to_map _ !! f) as [l|] eqn:E.
      + apply elem_of_list_to_map_2 in E. apply list_elem_of_In, in_map_iff in E.
        destruct E as (x & [= _ <-] & _). reflexivity.
      + exfalso. apply not_elem_of_list_to_map in E. apply E.
        rewrite <- list_fmap_compose. cbn.
        rewrite list_fmap_id. now apply elem_of_np_unique.
    - apply not_elem_of_list_to_map. rewrite <- list_fmap_compose. cbn.
      rewrite list_fmap_id. now rewrite elem_of_np_unique. }
  destruct (append_read_loop cells 0 reads0) as (m' & reads' & E & Hl).
  { intros c Hc. rewrite H0. rewrite decide_True; [eauto|].
    apply list_elem_of_In, in_map, list_elem_of_In, Hc. }
  rewrite E. cbn. exists reads'. split; [reflexivity|].
  intros f. rewrite Hl, H0. now case_decide.
Qed.

(** ** Reads grouped by file *)

Lemma StronglySorted_weaken {A : Type} (R1 R2 : A -> A -> Prop) l :
  (forall x y, R1 x y -> R2 x y) -> StronglySorted R1 l -> StronglySorted R2 l.
Proof.
  intros HR. induction 1 as [|a l Hs IH Ha]; constructor; [exact IH|].
  eapply Forall_impl; [exact Ha|]. intros y. apply HR.
Qed.

Lemma pair_reads_of_file f (X : list (Z * read_t)) :
  map (pair f) (reads_of_file f X) = List.filter (fun x : Z * read_t => x.1 =? f) X.
Proof.
  unfold reads_of_file. induction X as [|[g r] X IH]; cbn; [reflexivity|].
  destruct (Z.eqb_spec g f) as [->|Hne]; cbn; [now rewrite IH|exact IH].
Qed.

Lemma filter_file_none f (X : list (Z * read_t)) :
  Forall (fun x => x.1 ≠ f) X -> List.filter (fun x : Z * read_t => x.1 =? f) X = [].
Proof.
  induction 1 as [|x X Hx _ IH]; cbn; [reflexivity|].
  destruct (Z.eqb_spec x.1 f); [contradiction|exact IH].
Qed.

Lemma filter_file_all f (X : list (Z * read_t)) :
  Forall (fun x => x.1 = f) X -> List.filter (fun x : Z * read_t => x.1 =? f) X = X.
Proof.
  induction 1 as [|x X Hx _ IH]; cbn; [reflexivity|].
  destruct (Z.eqb_spec x.1 f); [now rewrite IH|contradiction].
Qed.

(** A list in ascending file order whose files are at least [k] splits into
    its reads of file [k] and the reads of later files. *)
Lemma split_first_file k (X : list (Z * read_t)) :
  StronglySorted (fun x y : Z * read_t => x.1 <= y.1) X ->
  Forall (fun x => k <= x.1) X ->
  exists X1 X2, X = X1 ++ X2
                /\ Forall (fun x => x.1 = k) X1 /\ Forall (fun x => k < x.1) X2.
Proof.
  induction X as [|x X IH]; intros Hs Hk.
  - exists [], []. repeat constructor.
  - apply StronglySorted_inv in Hs as [Hs Hx]. apply Forall_cons in Hk as [Hkx Hk].
    destruct (Z.eq_dec x.1 k) as [Heq|Hne].
    + destruct (IH Hs Hk) as (X1 & X2 & -> & H1 & H2).
      exists (x :: X1), X2. repeat split; [now constructor|exact H2].
    + exists [], (x :: X). repeat split; [constructor|].
      constructor; [lia|]. eapply Forall_impl; [exact Hx|]. intros y Hy. cbn in Hy. lia.
Qed.

Lemma group_by_file (K : list Z) : forall X : list (Z * read_t),
  StronglySorted Z.lt K ->
  StronglySorted (fun x y : Z * read_t => x.1 <= y.1) X ->
  Forall (fun x => x.1 ∈ K) X ->
  concat (map (fun f => map (pair f) (reads_of_file f X)) K) = X.
Proof.
  induction K as [|k K IH]; intros X HK HX Hin.
  - destruct X as [|x X]; [reflexivity|].
    apply Forall_cons in Hin as [Hx _]. now apply elem_of_nil in Hx.
  - apply StronglySorted_inv in HK as [HK Hk]. rewrite Forall_forall in Hk.
    destruct (split_first_file k X HX) as (X1 & X2 & -> & H1 & H2).
    { eapply Forall_impl; [exact Hin|]. intros x Hx. cbn in Hx.
      apply elem_of_cons in Hx as [->|Hx]; [lia|]. specialize (Hk _ Hx). lia. }
    cbn [map concat]. rewrite pair_reads_of_file.
    rewrite List.filter_app, (filter_file_all k X1 H1), filter_file_none, app_nil_r.
    2:{ eapply Forall_impl; [exact H2|]. intros x Hx. cbn in Hx. lia. }
    f_equal.
    transitivity (concat (map (fun f => map (pair f) (reads_of_file f X2)) K));
      [|apply IH; [exact HK| |]].
    + f_equal. apply map_ext_in. intros f Hf. apply list_elem_of_In in Hf.
      specialize (Hk _ Hf). rewrite !pair_reads_of_file, List.filter_app.
      rewrite filter_file_none; [reflexivity|].
      eapply Forall_impl; [exact H1|]. intros x Hx. cbn in Hx. lia.
    + now apply StronglySorted_app_1_r in HX.
    + apply Forall_app in Hin as [_ Hin].
      rewrite Forall_forall in Hin, H2. rewrite Forall_forall. intros x Hx.
      specialize (Hin x Hx). specialize (H2 x Hx). cbn beta in *.
      apply elem_of_cons in Hin as [Heq|Hin]; [lia|exact Hin].
Qed.

Lemma elem_of_keys {V : Type} (d : gmap Z V) f : f ∈ keys d <-> is_Some (d !! f).
Proof.
  unfold keys. rewrite list_elem_of_fmap. split.
  - intros ([g v] & -> & H). apply elem_of_map_to_list in H. cbn. eauto.
  - intros [v H]. exists (f, v). split; [reflexivity|]. now apply elem_of_map_to_list.
Qed.

Lemma with_offsets_files m cells : map fst (with_offsets m cells) = map file cells.
Proof.
  revert m. induction cells as [|c rest IH]; intros m; cbn; [reflexivity|]. now rewrite IH.
Qed.

Lemma with_offsets_sorted m cells :
  StronglySorted cell_le cells -> StronglySorted read_le (with_offsets m cells).
Proof.
  intros Hs. revert m. induction Hs as [|c rest Hs IH Hc]; intros m; cbn; [constructor|].
  constructor; [apply IH|].
  generalize (wrap64 (m + count c)). clear IH Hs.
  induction Hc as [|c' rest Hc' _ IH]; intros m'; cbn; constructor.
  - exact Hc'.
  - apply IH.
Qed.

(** The dict [make_reads] returns, read file by file in ascending file
    number, is the list of the reads of the cells, in the order of the cells,
    when these are in ascending file order. *)
Lemma make_reads_in_file_order cells reads :
  StronglySorted cell_le cells ->
  make_reads cells = Ok reads ->
  reads_in_file_order reads = with_offsets 0 cells.
Proof.
  intros Hs E. destruct (make_reads_spec cells) as (reads' & E' & Hl).
  rewrite E in E'. injection E' as <-.
  unfold reads_in_file_order.
  assert (HK : np_unique (keys reads) = np_unique (map file cells)).
  { apply strictly_sorted_ext; [apply np_unique_sorted..|].
    intros f. rewrite !elem_of_np_unique, elem_of_keys, Hl.
    case_decide as Hf; split; intros H.
    - exact Hf.
    - now exists (reads_of_file f (with_offsets 0 cells)).
    - now destruct H.
    - contradiction. }
  rewrite HK.
  transitivity (concat (map (fun f => map (pair f) (reads_of_file f (with_offsets 0 cells)))
                             (np_unique (map file cells)))); [|apply group_by_file].
  - f_equal. apply map_ext_in. intros f Hf. apply list_elem_of_In in Hf.
    rewrite elem_of_np_unique in Hf. rewrite Hl. now rewrite decide_True by exact Hf.
  - apply np_unique_sorted.
  - pose proof (with_offsets_sorted 0 cells Hs) as Hr.
    apply (StronglySorted_weaken read_le); [|exact Hr].
    intros x y [H|[H _]]; lia.
  - rewrite Forall_forall. intros x Hx. apply elem_of_np_unique.
    rewrite <- (with_offsets_files 0 cells). apply list_elem_of_fmap. now exists x.
Qed.

(** ** The planned cells *)

Lemma sum_Z_perm l1 l2 : l1 ≡ₚ l2 -> sum_Z l1 = sum_Z l2.
Proof. induction 1; cbn; lia. Qed.

Lemma take_indices_all (pre cells : list swift_cell_t) :
  omap (fun i => (pre ++ cells) !! i) (seq (length pre) (length cells)) = cells.
Proof.
  revert pre. induction cells as [|c rest IH]; intros pre; [reflexivity|].
  cbn [length seq omap list_omap].
  rewrite (list_lookup_middle pre rest c _ eq_refl). f_equal.
  specialize (IH (pre ++ [c])). rewrite <- app_assoc, length_app in IH. cbn in IH.
  now rewrite Nat.add_1_r in IH.
Qed.

(** Indexing with the sorted indices permutes the array. *)
Lemma take_indices_lexsort_perm cells : take_indices cells (lexsort cells) ≡ₚ cells.
Proof.
  unfold take_indices. rewrite lexsort_perm.
  pose proof (take_indices_all [] cells) as E. cbn in E. now rewrite E.
Qed.

Lemma cell_le_trans a b c : cell_le a b -> cell_le b c -> cell_le a c.
Proof. unfold cell_le. lia. Qed.

Lemma cell_le_refl a : cell_le a a.
Proof. unfold cell_le. lia. Qed.

Lemma take_indices_sorted cells idx :
  StronglySorted (before cells) idx -> StronglySorted cell_le (take_indices cells idx).
Proof.
  unfold take_indices. induction 1 as [|i idx Hs IH Hi]; cbn; [constructor|].
  destruct (cells !! i) as [ci|] eqn:Ei; [|exact IH].
  constructor; [exact IH|].
  rewrite Forall_forall. intros cj Hj. apply list_elem_of_omap in Hj as (j & Hj & Ej).
  rewrite Forall_forall in Hi. destruct (Hi j Hj) as (ci' & cj' & Ei' & Ej' & Hlt).
  rewrite Ei in Ei'. injection Ei' as <-. rewrite Ej in Ej'. injection Ej' as <-.
  unfold cell_le. lia.
Qed.

Lemma discard_empty_positive cells : Forall (fun c => 0 < count c) (discard_empty cells).
Proof.
  rewrite Forall_forall. intros c Hc. apply list_elem_of_In, filter_In in Hc as [_ Hc].
  now apply Z.ltb_lt in Hc.
Qed.

Lemma discard_empty_sum cells :
  Forall (fun c => 0 <= count c) cells ->
  sum_Z (map count (discard_empty cells)) = sum_Z (map count cells).
Proof.
  induction 1 as [|c rest Hc _ IH]; [reflexivity|].
  unfold discard_empty in *. cbn [List.filter]. unfold count_positive at 1.
  destruct (Z.ltb_spec 0 (count c)); cbn [map sum_Z]; rewrite IH; lia.
Qed.

Lemma discard_empty_nonneg cells :
  Forall (fun c => 0 <= count c) (discard_empty cells).
Proof.
  eapply Forall_impl; [apply discard_empty_positive|]. intros c Hc. cbn in Hc. lia.
Qed.

Lemma sum_nonneg cells :
  Forall (fun c => 0 <= count c) cells -> 0 <= sum_Z (map count cells).
Proof. induction 1; cbn; lia. Qed.

(** The pass keeps what is left of a sorted array sorted. *)
Lemma merge_from_sorted cap rest : forall cell1,
  Forall (cell_le cell1) rest -> StronglySorted cell_le rest ->
  StronglySorted cell_le (discard_empty (merge_from cap cell1 rest))
  /\ Forall (cell_le cell1) (discard_empty (merge_from cap cell1 rest)).
Proof.
  induction rest as [|cell2 rest IH]; intros cell1 H1 Hs; cbn [merge_from].
  - unfold discard_empty. cbn. destruct (count_positive cell1).
    + split; [repeat constructor|]. constructor; [apply cell_le_refl|constructor].
    + split; constructor.
  - apply Forall_cons in H1 as [H12 H1]. apply StronglySorted_inv in Hs as [Hs H2].
    destruct (mergeable cap cell1 cell2) eqn:Em.
    + unfold mergeable in Em. apply andb_true_iff in Em as [Em _].
      apply andb_true_iff in Em as [Ef _]. apply Z.eqb_eq in Ef.
      assert (Hkey : forall x, cell_le cell1 x <-> cell_le (absorb cell1 cell2) x).
      { intros x. unfold cell_le, absorb. cbn. rewrite Ef. tauto. }
      destruct (IH (absorb cell1 cell2)) as [Hsorted Hall]; [|exact Hs|].
      { eapply Forall_impl; [exact H2|]. intros x Hx. apply Hkey.
        now apply (cell_le_trans cell1 cell2 x). }
      unfold discard_empty. cbn [List.filter]. unfold count_positive at 1 3. cbn.
      split; [exact Hsorted|].
      eapply Forall_impl; [exact Hall|]. intros x Hx. now apply Hkey.
    + destruct (IH cell2 H2 Hs) as [Hsorted Hall].
      assert (Hall1 : Forall (cell_le cell1) (discard_empty (merge_from cap cell2 rest))).
      { eapply Forall_impl; [exact Hall|]. intros x Hx.
        now apply (cell_le_trans cell1 cell2 x). }
      unfold discard_empty in *. cbn [List.filter]. destruct (count_positive cell1).
      * split; [now constructor|]. constructor; [apply cell_le_refl|exact Hall1].
      * split; assumption.
Qed.

(** The pass moves particles between cells and loses none. *)
Lemma merge_from_sum cap rest : forall cell1,
  0 <= count cell1 -> Forall (fun c => 0 <= count c) rest ->
  count cell1 + sum_Z (map count rest) < 2 ^ 63 ->
  sum_Z (map count (merge_from cap cell1 rest)) = count cell1 + sum_Z (map count rest)
  /\ Forall (fun c => 0 <= count c) (merge_from cap cell1 rest).
Proof.
  induction rest as [|cell2 rest IH]; intros cell1 H1 Hrest Hsum; cbn [merge_from].
  - cbn. split; [lia|]. now repeat constructor.
  - apply Forall_cons in Hrest as [H2 Hrest]. cbn [map sum_Z] in Hsum.
    pose proof (sum_nonneg rest Hrest) as Hnn.
    destruct (mergeable cap cell1 cell2).
    + assert (Hc : count (absorb cell1 cell2) = count cell2 + count cell1).
      { unfold absorb. cbn. apply wrap64_id. unfold int64_ok. lia. }
      destruct (IH (absorb cell1 cell2)) as [Es Hall]; [lia|exact Hrest|lia|].
      cbn [map sum_Z]. rewrite Es, Hc. cbn. split; [lia|].
      constructor; [cbn; lia|exact Hall].
    + destruct (IH cell2) as [Es Hall]; [lia|exact Hrest|lia|].
      cbn [map sum_Z]. rewrite Es. split; [lia|]. now constructor.
Qed.

Lemma merge_array_sum cap cells :
  Forall (fun c => 0 <= count c) cells -> sum_Z (map count cells) < 2 ^ 63 ->
  sum_Z (map count (merge_array cap cells)) = sum_Z (map count cells)
  /\ Forall (fun c => 0 <= count c) (merge_array cap cells).
Proof.
  destruct cells as [|cell1 rest]; [now split|].
  intros Hall Hsum. apply Forall_cons in Hall as [H1 Hrest].
  rewrite merge_array_from. now apply merge_from_sum.
Qed.

Lemma merge_array_sorted cap cells :
  StronglySorted cell_le cells -> StronglySorted cell_le (discard_empty (merge_array cap cells)).
Proof.
  destruct cells as [|cell1 rest]; [constructor|].
  intros Hs. apply StronglySorted_inv in Hs as [Hs H1].
  rewrite merge_array_from. now apply merge_from_sorted.
Qed.

Lemma select_Forall (P : swift_cell_t -> Prop) cells flags :
  Forall P cells -> Forall P (select cells flags).
Proof.
  intros H. rewrite Forall_forall in *. intros c Hc. unfold select in Hc.
  apply list_elem_of_In, in_map_iff in Hc as ([c' b] & <- & Hin).
  apply filter_In in Hin as [Hin _]. apply in_combine_l in Hin.
  apply H. now apply list_elem_of_In.
Qed.

(** The memory offsets run on from one read to the next. *)
Lemma with_offsets_contiguous cells : forall m,
  0 <= m -> Forall (fun c => 0 < count c) cells ->
  m + sum_Z (map count cells) < 2 ^ 63 ->
  contiguous m (map snd (with_offsets m cells)) (m + sum_Z (map count cells)).
Proof.
  induction cells as [|c rest IH]; intros m Hm Hpos Hsum; cbn.
  - lia.
  - apply Forall_cons in Hpos as [Hc Hpos]. cbn in Hsum.
    assert (0 <= sum_Z (map count rest)).
    { apply sum_nonneg. eapply Forall_impl; [exact Hpos|]. intros x Hx. cbn in Hx. lia. }
    split; [reflexivity|]. split; [exact Hc|].
    rewrite wrap64_id by (unfold int64_ok; lia).
    replace (m + (count c + sum_Z (map count rest)))
      with (m + count c + sum_Z (map count rest)) by lia.
    apply IH; [lia|exact Hpos|lia].
Qed.

Lemma length_concat_uniform {A : Type} (l : list (list A)) n :
  Forall (fun x => length x = n) l -> length (concat l) = (length l * n)%nat.
Proof. induction 1 as [|x l Hx _ IH]; cbn; [reflexivity|]. rewrite length_app, IH, Hx. lia. Qed.

Lemma length_ravel dimension mask :
  rect dimension mask ->
  Z.of_nat (length (ravel mask)) = dimension.1.1 * dimension.1.2 * dimension.2.
Proof.
  destruct dimension as [[d0 d1] d2]. unfold rect, ravel. cbn. intros [H0 Hplanes].
  rewrite (length_concat_uniform (concat mask) (Z.to_nat d2)).
  - rewrite (length_concat_uniform mask (Z.to_nat d1)).
    + destruct mask as [|plane mask]; [cbn in *; lia|].
      apply Forall_cons in Hplanes as [[H1 Hrows] _].
      destruct plane as [|row plane]; [cbn in *; lia|].
      apply Forall_cons in Hrows as [H2 _]. nia.
    + eapply Forall_impl; [exact Hplanes|]. intros plane [H1 _]. cbn. lia.
  - apply Forall_concat. eapply Forall_impl; [exact Hplanes|].
    intros plane [_ Hrows]. eapply Forall_impl; [exact Hrows|]. intros row H2. cbn in *. lia.
Qed.

Lemma reads_of_file_nonempty f cells : forall m,
  f ∈ map file cells -> reads_of_file f (with_offsets m cells) ≠ [].
Proof.
  induction cells as [|c rest IH]; intros m Hf; [now apply elem_of_nil in Hf|].
  unfold reads_of_file. cbn. destruct (Z.eqb_spec (file c) f) as [Heq|Hne]; [discriminate|].
  cbn in Hf. apply elem_of_cons in Hf as [->|Hf]; [contradiction|]. now apply IH.
Qed.

Section Partition.

Context {quantity : Type}.

(** C3: on a grid whose cell array has one cell per grid index, with
    non-negative counts, and a mask of the grid's shape selecting fewer than
    2^63 particles, [prepare_read] returns: the reads of the returned dict,
    listed file by file in ascending file number, are the reads of the planned
    cells in their order, each under the file of its cell; they are in
    ascending (file, file offset) order; and their memory ranges tile
    [[0, total)], each starting where the one before ends and none empty,
    where total is the number of particles in the selected cells. *)
Theorem prepare_read_partition (self : @SWIFTCellGrid quantity) (ptype : string)
    (mask : mask_t) (h : store) (grid : nat) (cells : list swift_cell_t) :
  cell self !! ptype = Some grid ->
  h !! grid = Some cells ->
  Z.of_nat (length cells) = (dimension self).1.1 * (dimension self).1.2 * (dimension self).2 ->
  Forall (fun c => 0 <= count c) cells ->
  shape_is (dimension self) mask = true ->
  let total := sum_Z (map count (select cells (ravel mask))) in
  total < 2 ^ 63 ->
  exists reads h',
    prepare_read self ptype mask h = Ok (reads, h')
    /\ reads_in_file_order reads = with_offsets 0 (planned_cells max_size cells mask)
    /\ StronglySorted read_le (reads_in_file_order reads)
    /\ contiguous 0 (map snd (reads_in_file_order reads)) total
    /\ (forall f rs, reads !! f = Some rs ->
          rs ≠ [] /\ rs = reads_of_file f (reads_in_file_order reads)).
Proof.
  intros Hcell Hgrid Hlen Hnonneg Hshape total Htotal.
  rewrite prepare_read_unfold, Hcell, Hgrid, Hshape.
  apply shape_is_rect in Hshape. apply length_ravel in Hshape.
  rewrite (proj2 (Nat.eqb_eq _ _)) by lia. cbn [andb].
  set (selected := select cells (ravel mask)) in *.
  set (nonempty := discard_empty selected).
  set (sorted := take_indices nonempty (lexsort nonempty)).
  assert (Hsel : Forall (fun c => 0 <= count c) selected) by now apply select_Forall.
  assert (Hsum1 : sum_Z (map count nonempty) = total) by now apply discard_empty_sum.
  assert (Hperm : sorted ≡ₚ nonempty) by apply take_indices_lexsort_perm.
  assert (Hsum2 : sum_Z (map count sorted) = total).
  { rewrite <- Hsum1. apply sum_Z_perm. now apply Permutation_map. }
  assert (Hnn2 : Forall (fun c => 0 <= count c) sorted).
  { rewrite Hperm. apply discard_empty_nonneg. }
  destruct (merge_array_sum max_size sorted Hnn2 ltac:(lia)) as [Hsum3 Hnn3].
  assert (Hplanned : planned_cells max_size cells mask
                     = discard_empty (merge_array max_size sorted)) by reflexivity.
  assert (Hsum4 : sum_Z (map count (planned_cells max_size cells mask)) = total).
  { rewrite Hplanned, discard_empty_sum by exact Hnn3. lia. }
  assert (Hsorted : StronglySorted cell_le (planned_cells max_size cells mask)).
  { rewrite Hplanned. apply merge_array_sorted, take_indices_sorted, lexsort_sorted. }
  destruct (make_reads_spec (planned_cells max_size cells mask)) as (reads & E & Hl).
  rewrite E. exists reads, (h ++ working_arrays max_size cells mask).
  split; [reflexivity|].
  pose proof (make_reads_in_file_order _ _ Hsorted E) as Horder.
  split; [exact Horder|]. rewrite Horder.
  split; [now apply with_offsets_sorted|]. split.
  - rewrite <- Hsum4. apply (with_offsets_contiguous _ 0); [lia| |lia].
    rewrite Hplanned. apply discard_empty_positive.
  - intros f rs Hrs. rewrite Hl in Hrs. case_decide as Hf; [|discriminate].
    injection Hrs as <-. split; [|reflexivity]. now apply reads_of_file_nonempty.
Qed.

End Partition.

Lemma prepare_read_partition_witness :
  exists reads h',
    prepare_read two_file_grid "PartType0" [[[true; true; true; true]]] [two_file_cells]
    = Ok (reads, h')
    /\ reads_in_file_order reads = [(0, (0, 0, 4)); (1, (0, 4, 8))]
    /\ contiguous 0 (map snd (reads_in_file_order reads)) 12.
Proof.
  destruct (prepare_read_partition two_file_grid "PartType0" [[[true; true; true; true]]]
              [two_file_cells] 0 two_file_cells)
    as (reads & h' & E & Hord & _ & Hcont & _).
  - reflexivity.
  - reflexivity.
  - reflexivity.
  - unfold two_file_cells. repeat constructor; cbn; lia.
  - reflexivity.
  - vm_compute. reflexivity.
  - exists reads, h'. split; [exact E|]. split; [rewrite Hord; vm_compute; reflexivity|].
    exact Hcont.
Defined.

(** ** The orchestrator on two small snapshots *)

(** C2, where the code departs from it: [Masses] is requested for
    [PartType0], it is in the snapshot metadata of [PartType0], and one range
    of five particles is planned in file 0, yet no task is created: line 321
    tests [dataset in self.snap_metadata], whose keys are the particle types.
    A dataset named after a particle type does get its task. *)
Theorem no_task_for_dataset_in_metadata :
  outcome (read_masked_cells_to_shared_memory numbered masses_grid
             [("PartType0", ["Masses"])] [[[true]]] 1 masses_store)
  = Ok ([[]], [("PartType0", 5)])
  /\ (snap_metadata masses_grid !! "PartType0" ≫= (fun m => m !! "Masses"))
     = Some (mk_meta [] "float32" "Msun")
  /\ outcome (read_masked_cells_to_shared_memory numbered masses_grid
                [("PartType0", ["PartType0"])] [[[true]]] 1 masses_store)
     = Ok ([[mk_task "snap.0" "PartType0" "PartType0" 0 0 5]], [("PartType0", 5)]).
Proof. split; [|split]; vm_compute; reflexivity. Qed.

(** C4, where the code departs from it: the union of the files is [0; 1],
    the gas has no reads in file 1, and the count of the particles raises
    KeyError at [reads_for_type[ptype][file_nr]] (line 311). *)
Theorem count_particles_raises_on_missing_file :
  outcome (read_masked_cells_to_shared_memory numbered gas_and_stars_grid
             [("PartType0", ["Masses"]); ("PartType4", ["Masses"])] [[[true]]] 1
             gas_and_stars_store)
  = Raise KeyError
  /\ (exists reads_for_type h',
        plan_reads gas_and_stars_grid
          [("PartType0", ["Masses"]); ("PartType4", ["Masses"])] [[[true]]]
          gas_and_stars_store = Ok (reads_for_type, h')
        /\ union_of_file_nrs [("PartType0", ["Masses"]); ("PartType4", ["Masses"])]
             reads_for_type = Ok [0; 1]
        /\ (reads_for_type !! "PartType0" ≫= (fun reads => reads !! 1)) = None
        /\ count_particles [("PartType0", ["Masses"]); ("PartType4", ["Masses"])]
             reads_for_type [0; 1] = Raise KeyError).
Proof.
  split; [vm_compute; reflexivity|].
  destruct (plan_reads gas_and_stars_grid
              [("PartType0", ["Masses"]); ("PartType4", ["Masses"])] [[[true]]]
              gas_and_stars_store) as [[reads_for_type h']|e] eqn:E;
    [|vm_compute in E; discriminate].
  exists reads_for_type, h'. split; [reflexivity|].
  vm_compute in E. injection E as <- <-.
  split; [|split]; vm_compute; reflexivity.
Qed.

(** * Further properties of the code *)

(** ** The read planner: outcomes, keys and coverage *)

Lemma discard_empty_none cells :
  (forall c, c ∈ cells -> count c <= 0) -> discard_empty cells = [].
Proof.
  induction cells as [|c rest IH]; intros H; [reflexivity|].
  unfold discard_empty. cbn [List.filter]. unfold count_positive at 1.
  pose proof (H c (list_elem_of_here _ _)).
  destruct (Z.ltb_spec 0 (count c)); [lia|].
  apply IH. intros c' Hc'. apply H. now apply list_elem_of_further.
Qed.

Lemma elem_of_discard_empty c cells :
  c ∈ discard_empty cells <-> c ∈ cells /\ 0 < count c.
Proof.
  unfold discard_empty, count_positive.
  rewrite !list_elem_of_In, filter_In, Z.ltb_lt. reflexivity.
Qed.

(** The planned cells hold as many particles as the selected cells. *)
Lemma planned_cells_sum cap cells (mask : mask_t) :
  Forall (fun c => 0 <= count c) cells ->
  sum_Z (map count (select cells (ravel mask))) < 2 ^ 63 ->
  sum_Z (map count (planned_cells cap cells mask))
  = sum_Z (map count (select cells (ravel mask))).
Proof.
  intros Hnonneg Htotal. unfold planned_cells.
  set (selected := select cells (ravel mask)) in *.
  set (nonempty := discard_empty selected).
  set (sorted := take_indices nonempty (lexsort nonempty)).
  assert (Hsel : Forall (fun c => 0 <= count c) selected) by now apply select_Forall.
  assert (Hsum1 : sum_Z (map count nonempty) = sum_Z (map count selected))
    by now apply discard_empty_sum.
  assert (Hperm : sorted ≡ₚ nonempty) by apply take_indices_lexsort_perm.
  assert (Hsum2 : sum_Z (map count sorted) = sum_Z (map count selected)).
  { rewrite <- Hsum1. apply sum_Z_perm. now apply Permutation_map. }
  assert (Hnn2 : Forall (fun c => 0 <= count c) sorted).
  { rewrite Hperm. apply discard_empty_nonneg. }
  destruct (merge_array_sum cap sorted Hnn2 ltac:(lia)) as [Hsum3 Hnn3].
  rewrite discard_empty_sum by exact Hnn3. lia.
Qed.

Lemma sum_zero_counts cells :
  Forall (fun c => 0 <= count c) cells -> sum_Z (map count cells) = 0 ->
  forall c, c ∈ cells -> count c <= 0.
Proof.
  induction 1 as [|c' rest Hc' Hrest IH]; intros Hsum c Hc; [now apply elem_of_nil in Hc|].
  cbn in Hsum. pose proof (sum_nonneg rest Hrest).
  apply elem_of_cons in Hc as [->|Hc]; [lia|]. apply IH; [lia|exact Hc].
Qed.

Section PlannerOutcomes.

Context {quantity : Type}.

(** X1: [prepare_read] raises KeyError for a particle type the grid has no
    cell array for, and returns for every other particle type when the mask
    is a boolean array of the shape of the grid: no step after the selection
    can fail, and the lookups [reads[file_nr]] of the last loop always find
    the key the loop before made. *)
Theorem prepare_read_outcome (self : @SWIFTCellGrid quantity) (ptype : string)
    (mask : mask_t) (h : store) :
  (cell self !! ptype = None -> prepare_read self ptype mask h = Raise KeyError)
  /\ (forall grid cells,
        cell self !! ptype = Some grid -> h !! grid = Some cells ->
        shape_is (dimension self) mask = true -> length cells = length (ravel mask) ->
        exists reads h', prepare_read self ptype mask h = Ok (reads, h')).
Proof.
  rewrite prepare_read_unfold. split.
  - now intros ->.
  - intros grid cells -> -> -> Hlen. rewrite (proj2 (Nat.eqb_eq _ _) Hlen). cbn [andb].
    destruct (make_reads_spec (planned_cells max_size cells mask)) as (reads & E & _).
    rewrite E. eauto.
Qed.

(** X2: when no selected cell holds a particle, the mapping [prepare_read]
    returns is empty; and for counts that are not negative and fewer than
    2^63 selected particles, it is empty only then. *)
Theorem prepare_read_empty_selection (self : @SWIFTCellGrid quantity) (ptype : string)
    (mask : mask_t) (h h' : store) (grid : nat) (cells : list swift_cell_t)
    (reads : gmap Z (list read_t)) :
  cell self !! ptype = Some grid -> h !! grid = Some cells ->
  prepare_read self ptype mask h = Ok (reads, h') ->
  ((forall c, c ∈ select cells (ravel mask) -> count c <= 0) -> reads = ∅)
  /\ (Forall (fun c => 0 <= count c) cells ->
      sum_Z (map count (select cells (ravel mask))) < 2 ^ 63 ->
      reads = ∅ ->
      forall c, c ∈ select cells (ravel mask) -> count c <= 0).
Proof.
  intros Hcell Hgrid. rewrite prepare_read_unfold, Hcell, Hgrid.
  destruct (_ && _); [|discriminate].
  destruct (make_reads_spec (planned_cells max_size cells mask)) as (reads' & E & Hl).
  rewrite E. intros [= <- _]. split.
  - intros Hnone. unfold planned_cells in E.
    rewrite (discard_empty_none _ Hnone) in E. cbn in E. now injection E as <-.
  - intros Hnonneg Htotal Hempty.
    assert (Hplanned : planned_cells max_size cells mask = []).
    { destruct (planned_cells max_size cells mask) as [|c rest] eqn:Ep; [reflexivity|].
      exfalso. specialize (Hl (file c)). rewrite Hempty, lookup_empty in Hl.
      rewrite decide_True in Hl; [discriminate|]. cbn. apply list_elem_of_here. }
    pose proof (planned_cells_sum max_size cells mask Hnonneg Htotal) as Hsum.
    rewrite Hplanned in Hsum. cbn in Hsum.
    apply sum_zero_counts; [now apply select_Forall|lia].
Qed.

End PlannerOutcomes.

(** On the line grid: an unknown particle type, and a mask of the grid's
    shape. *)
Lemma prepare_read_outcome_witness :
  prepare_read line_grid "PartType1" [[[true; true; true]]] [line_cells] = Raise KeyError
  /\ exists reads h',
       prepare_read line_grid "PartType0" [[[true; false; true]]] [line_cells]
       = Ok (reads, h').
Proof.
  split.
  - apply (proj1 (prepare_read_outcome line_grid "PartType1" [[[true; true; true]]]
                    [line_cells])). reflexivity.
  - apply (proj2 (prepare_read_outcome line_grid "PartType0" [[[true; false; true]]]
                    [line_cells]) 0%nat line_cells eq_refl eq_refl); reflexivity.
Defined.

(** On the grid over two files: the mask that selects the empty cell only
    gives the empty mapping. *)
Lemma prepare_read_empty_selection_witness :
  exists h',
    prepare_read two_file_grid "PartType0" [[[false; true; false; false]]] [two_file_cells]
    = Ok (∅, h').
Proof.
  destruct (prepare_read two_file_grid "PartType0" [[[false; true; false; false]]]
              [two_file_cells]) as [[reads h']|e] eqn:E; [|vm_compute in E; discriminate].
  exists h'. f_equal. f_equal.
  apply (proj1 (prepare_read_empty_selection two_file_grid "PartType0"
                  [[[false; true; false; false]]] [two_file_cells] h' 0%nat
                  two_file_cells reads eq_refl eq_refl E)).
  intros c Hc. vm_compute in Hc. apply list_elem_of_singleton in Hc as ->. cbn. lia.
Defined.

(** What the merge pass keeps: a property [P] of cells that no emptied cell
    has, and that a merged cell has when one of the two cells had it, holds
    of some cell after the pass exactly when it held of some cell before. *)
Lemma merge_from_Exists cap (Q P : swift_cell_t -> Prop) :
  (forall c, Q c -> 0 <= count c) ->
  (forall c, ~ P (set_count c 0)) ->
  (forall c1 c2, Q c1 -> Q c2 -> mergeable cap c1 c2 = true ->
     count c1 + count c2 < 2 ^ 63 ->
     Q (absorb c1 c2) /\ (P (absorb c1 c2) <-> P c1 \/ P c2)) ->
  forall rest cell1,
    Q cell1 -> Forall Q rest -> count cell1 + sum_Z (map count rest) < 2 ^ 63 ->
    Exists P (merge_from cap cell1 rest) <-> P cell1 \/ Exists P rest.
Proof.
  intros HQ Hzero Habs. induction rest as [|cell2 rest IH]; intros cell1 H1 Hrest Hsum;
    cbn [merge_from].
  - rewrite Exists_cons, !Exists_nil. reflexivity.
  - apply Forall_cons in Hrest as [H2 Hrest]. cbn [map sum_Z] in Hsum.
    assert (Hnn : 0 <= sum_Z (map count rest)).
    { apply sum_nonneg. eapply Forall_impl; [exact Hrest|]. exact HQ. }
    pose proof (HQ _ H1). pose proof (HQ _ H2).
    destruct (mergeable cap cell1 cell2) eqn:Em.
    + destruct (Habs cell1 cell2 H1 H2 Em ltac:(lia)) as [HQa HPa].
      assert (Hc : count (absorb cell1 cell2) = count cell2 + count cell1).
      { unfold absorb. cbn. apply wrap64_id. unfold int64_ok. lia. }
      rewrite Exists_cons, (IH (absorb cell1 cell2) HQa Hrest ltac:(lia)), HPa.
      rewrite (Exists_cons P cell2). pose proof (Hzero cell1). tauto.
    + rewrite Exists_cons, (IH cell2 H2 Hrest ltac:(lia)), (Exists_cons P cell2).
      reflexivity.
Qed.

Lemma merge_array_Exists cap (Q P : swift_cell_t -> Prop) cells :
  (forall c, Q c -> 0 <= count c) ->
  (forall c, ~ P (set_count c 0)) ->
  (forall c1 c2, Q c1 -> Q c2 -> mergeable cap c1 c2 = true ->
     count c1 + count c2 < 2 ^ 63 ->
     Q (absorb c1 c2) /\ (P (absorb c1 c2) <-> P c1 \/ P c2)) ->
  Forall Q cells -> sum_Z (map count cells) < 2 ^ 63 ->
  Exists P (merge_array cap cells) <-> Exists P cells.
Proof.
  intros HQ Hzero Habs Hall Hsum. destruct cells as [|cell1 rest]; [reflexivity|].
  apply Forall_cons in Hall as [H1 Hrest]. rewrite merge_array_from.
  rewrite (merge_from_Exists cap Q P HQ Hzero Habs rest cell1 H1 Hrest Hsum).
  now rewrite Exists_cons.
Qed.

Lemma discard_empty_Exists (P : swift_cell_t -> Prop) cells :
  (forall c, P c -> 0 < count c) ->
  Exists P (discard_empty cells) <-> Exists P cells.
Proof.
  intros Hpos. rewrite !Exists_exists. split.
  - intros (c & Hc & HP). apply elem_of_discard_empty in Hc as [Hc _]. eauto.
  - intros (c & Hc & HP). exists c. split; [|exact HP].
    apply elem_of_discard_empty. split; [exact Hc|]. now apply Hpos.
Qed.

Lemma discard_empty_Forall (Q : swift_cell_t -> Prop) cells :
  Forall Q cells -> Forall Q (discard_empty cells).
Proof.
  rewrite !Forall_forall. intros H c Hc. apply H.
  now apply elem_of_discard_empty in Hc as [Hc _].
Qed.

(** The same for the whole chain of [prepare_read]: selection of the cells
    that hold particles, sort, merge pass, removal of the emptied cells. *)
Lemma planned_cells_Exists cap (Q P : swift_cell_t -> Prop) cells (mask : mask_t) :
  (forall c, Q c -> 0 <= count c) ->
  (forall c, P c -> 0 < count c) ->
  (forall c1 c2, Q c1 -> Q c2 -> mergeable cap c1 c2 = true ->
     count c1 + count c2 < 2 ^ 63 ->
     Q (absorb c1 c2) /\ (P (absorb c1 c2) <-> P c1 \/ P c2)) ->
  Forall Q cells ->
  sum_Z (map count (select cells (ravel mask))) < 2 ^ 63 ->
  Exists P (planned_cells cap cells mask) <-> Exists P (select cells (ravel mask)).
Proof.
  intros HQ Hpos Habs Hall Htotal. unfold planned_cells.
  set (selected := select cells (ravel mask)) in *.
  set (nonempty := discard_empty selected).
  set (sorted := take_indices nonempty (lexsort nonempty)).
  assert (Hsel : Forall Q selected) by now apply select_Forall.
  assert (Hnn : Forall (fun c => 0 <= count c) selected).
  { eapply Forall_impl; [exact Hsel|exact HQ]. }
  assert (Hperm : sorted ≡ₚ nonempty) by apply take_indices_lexsort_perm.
  assert (HQs : Forall Q sorted).
  { rewrite Hperm. now apply discard_empty_Forall. }
  assert (Hsum : sum_Z (map count sorted) < 2 ^ 63).
  { rewrite (sum_Z_perm _ (map count nonempty)) by now apply Permutation_map.
    unfold nonempty. rewrite discard_empty_sum by exact Hnn. exact Htotal. }
  rewrite (discard_empty_Exists P _ Hpos).
  rewrite (merge_array_Exists cap Q P sorted HQ); [| |exact Habs|exact HQs|exact Hsum].
  - rewrite Hperm. apply discard_empty_Exists, Hpos.
  - intros c HP. apply Hpos in HP. cbn in HP. lia.
Qed.

Lemma absorb_has_file cap f c1 c2 :
  0 <= count c1 -> 0 <= count c2 -> mergeable cap c1 c2 = true ->
  count c1 + count c2 < 2 ^ 63 ->
  0 <= count (absorb c1 c2)
  /\ (has_file f (absorb c1 c2) <-> has_file f c1 \/ has_file f c2).
Proof.
  intros H1 H2 Em Hsum. unfold mergeable in Em.
  apply andb_true_iff in Em as [Em _]. apply andb_true_iff in Em as [Ef _].
  apply Z.eqb_eq in Ef.
  assert (Hc : count (absorb c1 c2) = count c2 + count c1).
  { unfold absorb. cbn. apply wrap64_id. unfold int64_ok. lia. }
  assert (Hf : file (absorb c1 c2) = file c2) by (destruct c2; reflexivity).
  unfold has_file. rewrite Hc, Hf. lia.
Qed.

Lemma absorb_in_cell cap f x c1 c2 :
  cell_in_range c1 -> cell_in_range c2 -> mergeable cap c1 c2 = true ->
  count c1 + count c2 < 2 ^ 63 ->
  cell_in_range (absorb c1 c2)
  /\ (in_cell f x (absorb c1 c2) <-> in_cell f x c1 \/ in_cell f x c2).
Proof.
  intros [H1 R1] [H2 R2] Em Hsum. unfold mergeable in Em.
  apply andb_true_iff in Em as [Em _]. apply andb_true_iff in Em as [Ef Eo].
  apply Z.eqb_eq in Ef. apply Z.eqb_eq in Eo. rewrite wrap64_id in Eo by exact R1.
  assert (Hc : count (absorb c1 c2) = count c2 + count c1).
  { unfold absorb. cbn. apply wrap64_id. unfold int64_ok. lia. }
  assert (Hf : file (absorb c1 c2) = file c2) by (destruct c2; reflexivity).
  assert (Ho : offset (absorb c1 c2) = offset c1) by (destruct c2; reflexivity).
  unfold cell_in_range, in_cell, int64_ok in *. rewrite Hc, Hf, Ho. lia.
Qed.

Lemma elem_of_reads_of_file f (r : read_t) cells : forall m,
  r ∈ reads_of_file f (with_offsets m cells) ->
  exists c, c ∈ cells /\ file c = f /\ r.1.1 = offset c /\ r.2 = count c.
Proof.
  unfold reads_of_file. induction cells as [|c rest IH]; intros m Hr; cbn in Hr.
  - now apply elem_of_nil in Hr.
  - destruct (Z.eqb_spec (file c) f) as [Ef|Ef]; cbn in Hr.
    + apply elem_of_cons in Hr as [->|Hr].
      * exists c. split; [apply list_elem_of_here|]. now repeat split.
      * destruct (IH _ Hr) as (c' & Hc' & H'). exists c'. split; [|exact H'].
        now apply list_elem_of_further.
    + destruct (IH _ Hr) as (c' & Hc' & H'). exists c'. split; [|exact H'].
      now apply list_elem_of_further.
Qed.

Lemma reads_of_file_elem_of f c cells : forall m,
  c ∈ cells -> file c = f ->
  exists r : read_t, r ∈ reads_of_file f (with_offsets m cells)
                     /\ r.1.1 = offset c /\ r.2 = count c.
Proof.
  unfold reads_of_file. induction cells as [|c' rest IH]; intros m Hc Hf.
  - now apply elem_of_nil in Hc.
  - cbn. apply elem_of_cons in Hc as [<-|Hc].
    + rewrite (proj2 (Z.eqb_eq _ _) Hf). cbn.
      eexists. split; [apply list_elem_of_here|]. now split.
    + destruct (IH (wrap64 (m + count c')) Hc Hf) as (r & Hr & H').
      exists r. split; [|exact H'].
      destruct (file c' =? f); cbn; [now apply list_elem_of_further|exact Hr].
Qed.

Section PlannerCoverage.

Context {quantity : Type}.

(** X3: the keys of the mapping [prepare_read] returns are the files that
    hold particles of a selected cell: a file is a key exactly when some
    selected cell with a positive count is stored in it. *)
Theorem prepare_read_keys (self : @SWIFTCellGrid quantity) (ptype : string)
    (mask : mask_t) (h h' : store) (grid : nat) (cells : list swift_cell_t)
    (reads : gmap Z (list read_t)) :
  cell self !! ptype = Some grid -> h !! grid = Some cells ->
  Forall (fun c => 0 <= count c) cells ->
  sum_Z (map count (select cells (ravel mask))) < 2 ^ 63 ->
  prepare_read self ptype mask h = Ok (reads, h') ->
  forall f,
    is_Some (reads !! f)
    <-> exists c, c ∈ select cells (ravel mask) /\ file c = f /\ 0 < count c.
Proof.
  intros Hcell Hgrid Hnonneg Htotal. rewrite prepare_read_unfold, Hcell, Hgrid.
  destruct (_ && _); [|discriminate].
  destruct (make_reads_spec (planned_cells max_size cells mask)) as (reads' & E & Hl).
  rewrite E. intros [= <- _] f. rewrite Hl.
  pose proof (planned_cells_Exists max_size (fun c => 0 <= count c) (has_file f)
                cells mask (fun c H => H) (fun c H => proj2 H)
                (fun c1 c2 H1 H2 => absorb_has_file max_size f c1 c2 H1 H2)
                Hnonneg Htotal) as Hex.
  rewrite !Exists_exists in Hex.
  assert (Hkey : f ∈ map file (planned_cells max_size cells mask)
                 <-> exists c, c ∈ planned_cells max_size cells mask /\ has_file f c).
  { rewrite list_elem_of_fmap. split.
    - intros (c & -> & Hc). exists c. split; [exact Hc|]. split; [reflexivity|].
      unfold planned_cells in Hc. now apply elem_of_discard_empty in Hc as [_ Hc].
    - intros (c & Hc & <- & _). now exists c. }
  destruct (decide (f ∈ map file (planned_cells max_size cells mask))) as [Hin|Hout].
  - split; [|eauto]. intros _. apply Hkey, Hex in Hin as (c & Hc & Hf & Hp). eauto.
  - split; [now intros [? ?]|]. intros (c & Hc & Hf & Hp). exfalso. apply Hout, Hkey, Hex.
    exists c. now repeat split.
Qed.

(** X4: the planned reads cover the selection and nothing else: record [x]
    of file [f] lies in a range of [reads[f]] exactly when it is a particle
    of a selected cell.  The cells have counts that are not negative and
    ends [offset + count] in the int64 range, and fewer than 2^63 particles
    are selected. *)
Theorem prepare_read_covers_selection (self : @SWIFTCellGrid quantity) (ptype : string)
    (mask : mask_t) (h h' : store) (grid : nat) (cells : list swift_cell_t)
    (reads : gmap Z (list read_t)) :
  cell self !! ptype = Some grid -> h !! grid = Some cells ->
  Forall cell_in_range cells ->
  sum_Z (map count (select cells (ravel mask))) < 2 ^ 63 ->
  prepare_read self ptype mask h = Ok (reads, h') ->
  forall f x,
    (exists rs r, reads !! f = Some rs /\ r ∈ rs /\ in_read x r)
    <-> exists c, c ∈ select cells (ravel mask) /\ in_cell f x c.
Proof.
  intros Hcell Hgrid Hrange Htotal. rewrite prepare_read_unfold, Hcell, Hgrid.
  destruct (_ && _); [|discriminate].
  destruct (make_reads_spec (planned_cells max_size cells mask)) as (reads' & E & Hl).
  rewrite E. intros [= <- _] f x.
  pose proof (planned_cells_Exists max_size cell_in_range (in_cell f x)
                cells mask (fun c H => proj1 H)
                (fun c H => ltac:(unfold in_cell in H; lia))
                (fun c1 c2 H1 H2 => absorb_in_cell max_size f x c1 c2 H1 H2)
                Hrange Htotal) as Hex.
  rewrite !Exists_exists in Hex. rewrite <- Hex. clear Hex. rewrite Hl. split.
  - intros (rs & r & Hrs & Hr & Hx).
    destruct (decide _) as [Hin|]; [|discriminate]. injection Hrs as <-.
    apply elem_of_reads_of_file in Hr as (c & Hc & Hf & Ho & Hn).
    exists c. split; [exact Hc|]. unfold in_cell, in_read in *. split; [exact Hf|lia].
  - intros (c & Hc & Hf & Hx).
    destruct (reads_of_file_elem_of f c _ 0 Hc Hf) as (r & Hr & Ho & Hn).
    exists (reads_of_file f (with_offsets 0 (planned_cells max_size cells mask))), r.
    rewrite decide_True.
    + split; [reflexivity|]. split; [exact Hr|]. unfold in_read. lia.
    + apply list_elem_of_fmap. now exists c.
Qed.

End PlannerCoverage.

(** On the grid over two files, with the two cells of file 0 selected (one
    of them empty): file 0 is a key, file 1 is not. *)
Lemma prepare_read_keys_witness :
  exists reads h',
    prepare_read two_file_grid "PartType0" [[[false; true; true; false]]] [two_file_cells]
    = Ok (reads, h')
    /\ is_Some (reads !! 0) /\ reads !! 1 = None.
Proof.
  destruct (prepare_read two_file_grid "PartType0" [[[false; true; true; false]]]
              [two_file_cells]) as [[reads h']|e] eqn:E; [|vm_compute in E; discriminate].
  exists reads, h'. split; [reflexivity|].
  assert (Hnn : Forall (fun c => 0 <= count c) two_file_cells).
  { unfold two_file_cells. repeat constructor; cbn; lia. }
  pose proof (prepare_read_keys two_file_grid "PartType0"
                [[[false; true; true; false]]] [two_file_cells] h' 0%nat two_file_cells reads
                eq_refl eq_refl Hnn ltac:(vm_compute; reflexivity) E) as Hkeys.
  split.
  - apply Hkeys. exists (mk_cell (0, 0, 0) 4 0 0 0).
    split; [vm_compute; apply list_elem_of_further, list_elem_of_here|]. cbn. lia.
  - apply eq_None_not_Some. rewrite Hkeys. intros (c & Hc & Hf & Hp).
    vm_compute in Hc. apply elem_of_cons in Hc as [->|Hc]; [discriminate Hf|].
    apply list_elem_of_singleton in Hc as ->. discriminate Hf.
Defined.

(** On the grid over two files with every cell selected: record 5 of file 1
    is read, record 8 of file 1 is not (the file holds records 0 to 7). *)
Lemma prepare_read_covers_selection_witness :
  exists reads h',
    prepare_read two_file_grid "PartType0" [[[true; true; true; true]]] [two_file_cells]
    = Ok (reads, h')
    /\ (exists rs r, reads !! 1 = Some rs /\ r ∈ rs /\ in_read 5 r)
    /\ ~ (exists rs r, reads !! 1 = Some rs /\ r ∈ rs /\ in_read 8 r).
Proof.
  destruct (prepare_read two_file_grid "PartType0" [[[true; true; true; true]]]
              [two_file_cells]) as [[reads h']|e] eqn:E; [|vm_compute in E; discriminate].
  exists reads, h'. split; [reflexivity|].
  assert (Hr : Forall cell_in_range two_file_cells).
  { unfold two_file_cells. repeat constructor; cbn; lia. }
  pose proof (prepare_read_covers_selection two_file_grid "PartType0"
                [[[true; true; true; true]]] [two_file_cells] h' 0%nat
                two_file_cells reads eq_refl eq_refl Hr ltac:(vm_compute; reflexivity) E)
    as Hcov.
  split.
  - apply Hcov. exists (mk_cell (0, 0, 0) 4 4 1 0).
    split; [vm_compute; apply list_elem_of_here|]. unfold in_cell. cbn. lia.
  - rewrite Hcov. intros (c & Hc & Hf & Hx). vm_compute in Hc.
    repeat (apply elem_of_cons in Hc as [->|Hc]; [cbn in Hf, Hx; lia|]).
    now apply elem_of_nil in Hc.
Defined.

(** ** The region mask: boxes that select nothing, everything, or the same *)

Lemma fold_result_unchanged {A B : Type} (f : B -> A -> result B) (xs : list A) (b : B) :
  (forall x, f b x = Ok b) -> fold_result f xs b = Ok b.
Proof.
  intros Hf. induction xs as [|x xs IH]; [reflexivity|].
  cbn [fold_result]. rewrite Hf. exact IH.
Qed.

(** Two masks of one shape with the same entries are the same mask. *)
Lemma rect_ext dimension (m1 m2 : mask_t) :
  rect dimension m1 -> rect dimension m2 ->
  (forall a b c, mask_at m1 a b c = mask_at m2 a b c) -> m1 = m2.
Proof.
  intros [L1 P1] [L2 P2] Hat. apply list_eq_same_length with (length m1); [lia|reflexivity|].
  intros a plane1 plane2 _ E1 E2.
  pose proof (Forall_lookup_1 _ _ _ _ P1 E1) as [Lp1 R1].
  pose proof (Forall_lookup_1 _ _ _ _ P2 E2) as [Lp2 R2]. cbn in Lp1, Lp2, R1, R2.
  apply list_eq_same_length with (length plane1); [lia|reflexivity|].
  intros b row1 row2 _ Er1 Er2.
  pose proof (Forall_lookup_1 _ _ _ _ R1 Er1) as Lr1.
  pose proof (Forall_lookup_1 _ _ _ _ R2 Er2) as Lr2. cbn in Lr1, Lr2.
  apply list_eq_same_length with (length row1); [lia|reflexivity|].
  intros c v1 v2 _ Ev1 Ev2. specialize (Hat a b c). unfold mask_at in Hat.
  now rewrite E1, E2, Er1, Er2, Ev1, Ev2 in Hat.
Qed.

Section MaskBoxes.

Context {quantity : Type}.
Context (floor_ratio : quantity -> quantity -> Z).

(** What a call of [mask_region] on a well-shaped mask adds to it. *)
Lemma mask_region_spec (self : SWIFTCellGrid) (mask : mask_t)
    (pos_min pos_max : quantity * quantity * quantity) :
  0 < (dimension self).1.1 -> 0 < (dimension self).1.2 -> 0 < (dimension self).2 ->
  rect (dimension self) mask ->
  index_ok (floor_index floor_ratio (cell_size self) pos_max) ->
  exists mask',
    mask_region floor_ratio self mask pos_min pos_max = Ok mask'
    /\ rect (dimension self) mask'
    /\ forall a b c,
        mask_at mask' a b c = true <->
        mask_at mask a b c = true
        \/ covered (dimension self) (floor_index floor_ratio (cell_size self) pos_min)
                   (floor_index floor_ratio (cell_size self) pos_max) a b c.
Proof.
  intros H0 H1 H2 Hshape Hok.
  unfold mask_region. unfold floor_index, covered, index_ok in *.
  destruct (dimension self) as [[d0 d1] d2]. destruct (cell_size self) as [[s0 s1] s2].
  destruct pos_min as [[min0 min1] min2]. destruct pos_max as [[max0 max1] max2].
  cbn [fst snd] in *. destruct Hok as (Hok0 & Hok1 & Hok2).
  rewrite (wrap64_id _ Hok0), (wrap64_id _ Hok1), (wrap64_id _ Hok2).
  set (lo0 := floor_ratio min0 s0). set (hi0 := floor_ratio max0 s0).
  set (lo1 := floor_ratio min1 s1). set (hi1 := floor_ratio max1 s1).
  set (lo2 := floor_ratio min2 s2). set (hi2 := floor_ratio max2 s2).
  match goal with
  | |- exists mask', fold_result ?f ?xs mask = Ok mask' /\ _ =>
      destruct (mask_loop_spec (d0, d1, d2) f
        (fun i a b c => exists j, j ∈ range lo1 (hi1 + 1) /\ exists k, k ∈ range lo2 (hi2 + 1)
           /\ Z.of_nat a = i mod d0 /\ Z.of_nat b = j mod d1 /\ Z.of_nat c = k mod d2)
        xs) with (mask := mask) as (mask' & E & R & S)
  end.
  - intros m i Rm.
    apply (mask_loop_spec (d0, d1, d2) _
      (fun j a b c => exists k, k ∈ range lo2 (hi2 + 1)
         /\ Z.of_nat a = i mod d0 /\ Z.of_nat b = j mod d1 /\ Z.of_nat c = k mod d2));
      [|exact Rm].
    intros m1 j Rm1.
    apply (mask_loop_spec (d0, d1, d2) _
      (fun k a b c =>
         Z.of_nat a = i mod d0 /\ Z.of_nat b = j mod d1 /\ Z.of_nat c = k mod d2));
      [|exact Rm1].
    intros m2 k Rm2.
    destruct (np_mod_range i d0 H0) as [-> ?].
    destruct (np_mod_range j d1 H1) as [-> ?].
    destruct (np_mod_range k d2 H2) as [-> ?].
    now apply mask_set_spec.
  - exact Hshape.
  - exists mask'. split; [exact E|]. split; [exact R|].
    intros a b c. rewrite S. apply or_iff_compat_l. split.
    + intros (i & Hi & j & Hj & k & Hk & Ha & Hb & Hc).
      apply elem_of_range in Hi, Hj, Hk. exists i, j, k. repeat split; try lia.
    + intros (i & j & k & (Hi & Hj & Hk) & Ha & Hb & Hc).
      exists i. split; [apply elem_of_range; lia|].
      exists j. split; [apply elem_of_range; lia|].
      exists k. split; [apply elem_of_range; lia|]. auto.
Qed.

(** X5: a box whose upper corner lies, on some axis, in a cell below the
    cell of its lower corner selects nothing: [mask_region] returns the mask
    it was given, whatever its shape, and does not wrap around the box. *)
Theorem mask_region_inverted_box (self : SWIFTCellGrid) (mask : mask_t)
    (pos_min pos_max : quantity * quantity * quantity) :
  let imin := floor_index floor_ratio (cell_size self) pos_min in
  let imax := floor_index floor_ratio (cell_size self) pos_max in
  index_ok imax ->
  imax.1.1 < imin.1.1 \/ imax.1.2 < imin.1.2 \/ imax.2 < imin.2 ->
  mask_region floor_ratio self mask pos_min pos_max = Ok mask.
Proof.
  intros imin imax Hok Hinv. subst imin imax.
  unfold mask_region. unfold floor_index, index_ok in *.
  destruct (dimension self) as [[d0 d1] d2]. destruct (cell_size self) as [[s0 s1] s2].
  destruct pos_min as [[min0 min1] min2]. destruct pos_max as [[max0 max1] max2].
  cbn [fst snd] in *. destruct Hok as (Hok0 & Hok1 & Hok2).
  rewrite (wrap64_id _ Hok0), (wrap64_id _ Hok1), (wrap64_id _ Hok2).
  destruct Hinv as [Hinv|[Hinv|Hinv]].
  - rewrite (range_nil (floor_ratio min0 s0)) by lia. reflexivity.
  - apply fold_result_unchanged. intros i.
    rewrite (range_nil (floor_ratio min1 s1)) by lia. reflexivity.
  - apply fold_result_unchanged. intros i.
    apply fold_result_unchanged. intros j.
    rewrite (range_nil (floor_ratio min2 s2)) by lia. reflexivity.
Qed.

(** X6: a box that spans, on every axis, at least as many cells as the grid
    has there selects the whole grid. *)
Theorem mask_region_whole_grid (self : SWIFTCellGrid) (mask : mask_t)
    (pos_min pos_max : quantity * quantity * quantity) :
  let imin := floor_index floor_ratio (cell_size self) pos_min in
  let imax := floor_index floor_ratio (cell_size self) pos_max in
  0 < (dimension self).1.1 -> 0 < (dimension self).1.2 -> 0 < (dimension self).2 ->
  shape_is (dimension self) mask = true ->
  index_ok imax ->
  (dimension self).1.1 <= imax.1.1 - imin.1.1 + 1 ->
  (dimension self).1.2 <= imax.1.2 - imin.1.2 + 1 ->
  (dimension self).2 <= imax.2 - imin.2 + 1 ->
  exists mask',
    mask_region floor_ratio self mask pos_min pos_max = Ok mask'
    /\ forall a b c : nat,
        Z.of_nat a < (dimension self).1.1 -> Z.of_nat b < (dimension self).1.2 ->
        Z.of_nat c < (dimension self).2 ->
        mask_at mask' a b c = true.
Proof.
  intros imin imax H0 H1 H2 Hshape Hok S0 S1 S2. apply shape_is_rect in Hshape.
  destruct (mask_region_spec self mask pos_min pos_max H0 H1 H2 Hshape Hok)
    as (mask' & E & _ & S).
  exists mask'. split; [exact E|]. intros a b c Ha Hb Hc. apply S. right.
  fold imin imax. unfold covered.
  assert (Hpick : forall lo hi d x, 0 < d -> d <= hi - lo + 1 -> 0 <= x < d ->
                    exists i, lo <= i <= hi /\ x = i mod d).
  { intros lo hi d x Hd Hspan Hx. exists (lo + (x - lo) mod d).
    pose proof (Z.mod_pos_bound (x - lo) d Hd). split; [lia|].
    rewrite Zplus_mod_idemp_r. replace (lo + (x - lo)) with x by lia.
    symmetry. now apply Z.mod_small. }
  destruct (Hpick imin.1.1 imax.1.1 _ (Z.of_nat a) H0 S0 ltac:(lia)) as (i & Hi & Ea).
  destruct (Hpick imin.1.2 imax.1.2 _ (Z.of_nat b) H1 S1 ltac:(lia)) as (j & Hj & Eb).
  destruct (Hpick imin.2 imax.2 _ (Z.of_nat c) H2 S2 ltac:(lia)) as (k & Hk & Ec).
  exists i, j, k. auto.
Qed.

(** X7: the selection is periodic: two boxes whose corner cells differ, on
    each axis, by a multiple of the grid dimension give the same mask. *)
Theorem mask_region_periodic (self : SWIFTCellGrid) (mask : mask_t)
    (pos_min pos_max pos_min' pos_max' : quantity * quantity * quantity)
    (n0 n1 n2 : Z) :
  let index := floor_index floor_ratio (cell_size self) in
  let shift (i : Z * Z * Z) :=
    (i.1.1 + n0 * (dimension self).1.1, i.1.2 + n1 * (dimension self).1.2,
     i.2 + n2 * (dimension self).2) in
  0 < (dimension self).1.1 -> 0 < (dimension self).1.2 -> 0 < (dimension self).2 ->
  shape_is (dimension self) mask = true ->
  index_ok (index pos_max) -> index_ok (index pos_max') ->
  index pos_min' = shift (index pos_min) ->
  index pos_max' = shift (index pos_max) ->
  exists mask',
    mask_region floor_ratio self mask pos_min pos_max = Ok mask'
    /\ mask_region floor_ratio self mask pos_min' pos_max' = Ok mask'.
Proof.
  intros index shift H0 H1 H2 Hshape Hok Hok' Emin Emax. apply shape_is_rect in Hshape.
  destruct (mask_region_spec self mask pos_min pos_max H0 H1 H2 Hshape Hok)
    as (m1 & E1 & R1 & S1).
  destruct (mask_region_spec self mask pos_min' pos_max' H0 H1 H2 Hshape Hok')
    as (m2 & E2 & R2 & S2).
  exists m1. split; [exact E1|]. rewrite E2. f_equal.
  apply (rect_ext (dimension self)); [exact R2|exact R1|].
  intros a b c. apply eq_true_iff_eq. rewrite S1, S2. apply or_iff_compat_l.
  fold index. rewrite Emin, Emax. unfold covered, shift. cbn [fst snd].
  split.
  - intros (i & j & k & (Hi & Hj & Hk) & Ha & Hb & Hc).
    exists (i - n0 * (dimension self).1.1), (j - n1 * (dimension self).1.2),
           (k - n2 * (dimension self).2).
    split; [lia|].
    rewrite Ha, Hb, Hc. unfold Z.sub. rewrite <- !Z.mul_opp_l, !Z_mod_plus_full. auto.
  - intros (i & j & k & (Hi & Hj & Hk) & Ha & Hb & Hc).
    exists (i + n0 * (dimension self).1.1), (j + n1 * (dimension self).1.2),
           (k + n2 * (dimension self).2).
    split; [lia|]. rewrite !Z_mod_plus_full. auto.
Qed.

(** X8: regions accumulate, in any order: masking one box and then another
    gives the mask that masking them in the other order gives, and it holds
    what the first mask held and what either box covers. *)
Theorem mask_region_commutes (self : SWIFTCellGrid) (mask : mask_t)
    (min1 max1 min2 max2 : quantity * quantity * quantity) :
  let index := floor_index floor_ratio (cell_size self) in
  0 < (dimension self).1.1 -> 0 < (dimension self).1.2 -> 0 < (dimension self).2 ->
  shape_is (dimension self) mask = true ->
  index_ok (index max1) -> index_ok (index max2) ->
  exists mask1 mask2 mask12,
    mask_region floor_ratio self mask min1 max1 = Ok mask1
    /\ mask_region floor_ratio self mask min2 max2 = Ok mask2
    /\ mask_region floor_ratio self mask1 min2 max2 = Ok mask12
    /\ mask_region floor_ratio self mask2 min1 max1 = Ok mask12
    /\ forall a b c,
        mask_at mask12 a b c = true <->
        mask_at mask a b c = true
        \/ covered (dimension self) (index min1) (index max1) a b c
        \/ covered (dimension self) (index min2) (index max2) a b c.
Proof.
  intros index H0 H1 H2 Hshape Hok1 Hok2. apply shape_is_rect in Hshape.
  destruct (mask_region_spec self mask min1 max1 H0 H1 H2 Hshape Hok1)
    as (m1 & E1 & R1 & S1).
  destruct (mask_region_spec self mask min2 max2 H0 H1 H2 Hshape Hok2)
    as (m2 & E2 & R2 & S2).
  destruct (mask_region_spec self m1 min2 max2 H0 H1 H2 R1 Hok2) as (m12 & E12 & R12 & S12).
  destruct (mask_region_spec self m2 min1 max1 H0 H1 H2 R2 Hok1) as (m21 & E21 & R21 & S21).
  exists m1, m2, m12. split; [exact E1|]. split; [exact E2|]. split; [exact E12|].
  assert (m21 = m12) as ->.
  { apply (rect_ext (dimension self)); [exact R21|exact R12|].
    intros a b c. apply eq_true_iff_eq. rewrite S21, S12, S1, S2. tauto. }
  split; [exact E21|]. intros a b c. rewrite S12, S1. fold index. tauto.
Qed.

End MaskBoxes.

(** In a box of two cells of size 10 per axis, the region from x = 15 to
    x = 5 selects no cell. *)
Lemma mask_region_inverted_box_witness :
  mask_region Z.div small_grid (empty_mask small_grid) (15, 3, 3) (5, 4, 4)
  = Ok (empty_mask small_grid).
Proof.
  apply mask_region_inverted_box.
  - vm_compute. intuition discriminate.
  - left. vm_compute. reflexivity.
Defined.

(** The region from 0 to 19 on every axis selects the eight cells. *)
Lemma mask_region_whole_grid_witness :
  exists mask',
    mask_region Z.div small_grid (empty_mask small_grid) (0, 0, 0) (19, 19, 19) = Ok mask'
    /\ mask_at mask' 0 0 0 = true /\ mask_at mask' 1 1 1 = true.
Proof.
  destruct (mask_region_whole_grid Z.div small_grid (empty_mask small_grid)
              (0, 0, 0) (19, 19, 19)) as (mask' & E & Hall);
    [simpl; lia|simpl; lia|simpl; lia|reflexivity|vm_compute; intuition discriminate
    |vm_compute; discriminate|vm_compute; discriminate|vm_compute; discriminate|].
  exists mask'. split; [exact E|]. split; apply Hall; simpl; lia.
Defined.

(** The region from x = -5 to x = -1 and its image from x = 15 to x = 19. *)
Lemma mask_region_periodic_witness :
  exists mask',
    mask_region Z.div small_grid (empty_mask small_grid) (-5, 3, 3) (-1, 4, 4) = Ok mask'
    /\ mask_region Z.div small_grid (empty_mask small_grid) (15, 3, 3) (19, 4, 4) = Ok mask'.
Proof.
  apply (mask_region_periodic Z.div small_grid (empty_mask small_grid)
           (-5, 3, 3) (-1, 4, 4) (15, 3, 3) (19, 4, 4) 1 0 0);
    [simpl; lia|simpl; lia|simpl; lia|reflexivity|vm_compute; intuition discriminate
    |vm_compute; intuition discriminate|reflexivity|reflexivity].
Defined.

(** Two regions of one cell each, masked in both orders. *)
Lemma mask_region_commutes_witness :
  exists mask1 mask2 mask12,
    mask_region Z.div small_grid (empty_mask small_grid) (1, 1, 1) (2, 2, 2) = Ok mask1
    /\ mask_region Z.div small_grid (empty_mask small_grid) (11, 11, 11) (12, 12, 12)
       = Ok mask2
    /\ mask_region Z.div small_grid mask1 (11, 11, 11) (12, 12, 12) = Ok mask12
    /\ mask_region Z.div small_grid mask2 (1, 1, 1) (2, 2, 2) = Ok mask12.
Proof.
  destruct (mask_region_commutes Z.div small_grid (empty_mask small_grid)
              (1, 1, 1) (2, 2, 2) (11, 11, 11) (12, 12, 12))
    as (mask1 & mask2 & mask12 & E1 & E2 & E12 & E21 & _);
    [simpl; lia|simpl; lia|simpl; lia|reflexivity|vm_compute; intuition discriminate
    |vm_compute; intuition discriminate|].
  exists mask1, mask2, mask12. auto.
Defined.

(** ** The dataset cache and the tasks, over sequences of calls *)

(** What a request does to the HDF5 library: it never changes the files,
    and the events are an open, the release of the handle the cache
    dropped, if it was open, and a lookup when the file name differs from
    the cached one, a lookup when only the dataset name differs, and none
    otherwise. *)
Lemma open_dataset_world file_name dataset_name p r p' :
  open_dataset file_name dataset_name p = Ok (r, p') ->
  h5_files (p_world p') = h5_files (p_world p)
  /\ h5_log (p_world p')
     = h5_log (p_world p)
       ++ (if bool_decide (Some file_name ≠ DatasetCache.file_name (p_cache p))
           then [EvOpen (h5_next (p_world p)) file_name]
                ++ map EvRelease (dropped (p_cache p) (p_world p) (h5_next (p_world p)))
                ++ [EvLookup (h5_next (p_world p)) dataset_name]
           else if bool_decide (Some dataset_name ≠ DatasetCache.dataset_name (p_cache p))
                then match DatasetCache.infile (p_cache p) with
                     | Some fid => [EvLookup fid dataset_name]
                     | None => []
                     end
                else []).
Proof.
  rewrite open_dataset_unfold. cbn zeta. case_bool_decide as Hfile.
  - destruct (h5_files (p_world p) !! file_name) as [f|]; [|discriminate].
    destruct (f !! dataset_name); [|discriminate]. intros [= <- <-]. now split.
  - case_bool_decide as Hds.
    + destruct (DatasetCache.infile (p_cache p)) as [infile|]; [|discriminate].
      destruct (h5_open (p_world p) !! infile) as [name|]; [|discriminate].
      destruct (h5_files (p_world p) !! name ≫= _); [|discriminate].
      intros [= <- <-]. now split.
    + intros [= <- <-]. now rewrite app_nil_r.
Qed.

(** The handle a request opens is not among those it releases. *)
Lemma lookup_after_drop (c : DatasetCache.t) (w : h5_world) (fid : nat) (name : string) :
  foldr delete (<[fid := name]> (h5_open w)) (dropped c w fid) !! fid = Some name.
Proof.
  unfold dropped. destruct (DatasetCache.infile c) as [old|]; [|apply lookup_insert_eq].
  case_bool_decide as Hne; cbn [andb foldr]; [|apply lookup_insert_eq].
  case_bool_decide; cbn [foldr]; [|apply lookup_insert_eq].
  rewrite lookup_delete_ne by exact Hne. apply lookup_insert_eq.
Qed.

(** A request keeps the cache and the library in agreement, and the handle
    it returns is the requested dataset in an open handle on the requested
    file. *)
Lemma open_dataset_ok file_name dataset_name p r p' :
  cache_ok p ->
  open_dataset file_name dataset_name p = Ok (r, p') ->
  cache_ok p'
  /\ exists ds rows,
       r = Some ds /\ ds_path ds = dataset_name
       /\ h5_open (p_world p') !! ds_file ds = Some file_name
       /\ h5_files (p_world p) !! file_name ≫= (fun file => file !! dataset_name) = Some rows.
Proof.
  rewrite open_dataset_unfold. unfold cache_ok. cbn zeta. intros Hok.
  case_bool_decide as Hfile.
  - destruct (h5_files (p_world p) !! file_name) as [f|] eqn:Ef; [|discriminate].
    destruct (f !! dataset_name) as [rows|] eqn:Er; [|discriminate].
    intros [= <- <-]. cbn. split.
    + exists (h5_next (p_world p)). rewrite lookup_after_drop, Ef. cbn. rewrite Er. eauto.
    + exists (mk_dataset (h5_next (p_world p)) dataset_name), rows. cbn.
      now rewrite lookup_after_drop.
  - symmetry in Hfile. rewrite Hfile in Hok. destruct Hok as (fid & Hin & Hopen & Hds).
    rewrite Hin, Hopen. case_bool_decide as Hdn.
    + destruct (h5_files (p_world p) !! file_name ≫= _) as [rows|] eqn:Er; [|discriminate].
      intros [= <- <-]. cbn. rewrite Hfile. split.
      * exists fid. rewrite Er. eauto.
      * exists (mk_dataset fid dataset_name), rows. cbn. auto.
    + symmetry in Hdn. rewrite Hdn in Hds. intros [= <- <-]. rewrite Hfile, Hdn.
      destruct Hds as [Hds [rows Er]]. split.
      * exists fid. rewrite Hds. eauto.
      * exists (mk_dataset fid dataset_name), rows. cbn. auto.
Qed.

Lemma close_ok p p' :
  close p = Ok (tt, p') ->
  cache_ok p' /\ h5_files (p_world p') = h5_files (p_world p).
Proof.
  unfold close, bind, get_cache. cbn. destruct p as [data [fn inf dn ds] w]. cbn.
  destruct inf as [fid|]; cbn; intros [= <-]; now split.
Qed.

Lemma ReadTask_call_ok (self : ReadTask) p p' :
  cache_ok p ->
  ReadTask_call self p = Ok (tt, p') ->
  cache_ok p' /\ h5_files (p_world p') = h5_files (p_world p).
Proof.
  intros Hok Hcall.
  destruct (ReadTask_call_inv _ _ _ Hcall) as
    (p0 & d & arrays & dest & source & dest' & Eopen & _ & _ & _ & _ & ->).
  destruct (open_dataset_ok _ _ _ _ _ Hok Eopen) as [Hok0 _].
  destruct (open_dataset_world _ _ _ _ _ Eopen) as [Hfiles _].
  split; [exact Hok0|exact Hfiles].
Qed.

Lemma run_ops_ok ops : forall p p',
  cache_ok p -> run_ops ops p = Ok (tt, p') ->
  cache_ok p' /\ h5_files (p_world p') = h5_files (p_world p).
Proof.
  induction ops as [|op ops IH]; intros p p' Hok Hrun.
  - injection Hrun as <-. now split.
  - unfold run_ops in Hrun. cbn [for_each] in Hrun.
    apply bind_inv in Hrun as ([] & p1 & Hop & Hrest).
    assert (H1 : cache_ok p1 /\ h5_files (p_world p1) = h5_files (p_world p)).
    { destruct op as [f d | | task]; cbn [run_op] in Hop.
      - apply bind_inv in Hop as (r & p1' & Eopen & Hret). injection Hret as <-.
        split; [now destruct (open_dataset_ok _ _ _ _ _ Hok Eopen)|].
        now destruct (open_dataset_world _ _ _ _ _ Eopen).
      - now apply close_ok.
      - now apply (ReadTask_call_ok task). }
    destruct H1 as [Hok1 Hf1]. destruct (IH p1 p' Hok1 Hrest) as [Hok' Hf'].
    split; [exact Hok'|congruence].
Qed.

Lemma fresh_cache_ok p : p_cache p = DatasetCache.init -> cache_ok p.
Proof. unfold cache_ok. now intros ->. Qed.

(** X9: a cache that started fresh never hands out a stale handle: after
    any sequence of requests, task runs and [close] calls that returned, a
    request for dataset [d] of file [f] that returns gives a handle for path
    [d] in a handle that is open on file [f], through which the rows of [d]
    in [f] are read. *)
Theorem open_dataset_returns_requested (ops : list cache_op) (p0 p p' : proc)
    (file_name dataset_name : string) (r : option dataset_handle) :
  p_cache p0 = DatasetCache.init ->
  run_ops ops p0 = Ok (tt, p) ->
  open_dataset file_name dataset_name p = Ok (r, p') ->
  exists ds rows,
    r = Some ds /\ ds_path ds = dataset_name
    /\ h5_open (p_world p') !! ds_file ds = Some file_name
    /\ h5_files (p_world p0) !! file_name ≫= (fun file => file !! dataset_name) = Some rows
    /\ h5_rows (p_world p') ds = Ok rows.
Proof.
  intros Hfresh Hrun Eopen.
  destruct (run_ops_ok ops p0 p (fresh_cache_ok p0 Hfresh) Hrun) as [Hok Hfiles].
  destruct (open_dataset_ok _ _ _ _ _ Hok Eopen) as [_ (ds & rows & -> & Hpath & Hopen & Hrows)].
  destruct (open_dataset_world _ _ _ _ _ Eopen) as [Hfiles' _].
  exists ds, rows. rewrite <- Hfiles. repeat split; try assumption.
  unfold h5_rows. rewrite Hopen, Hfiles', Hpath, Hrows. reflexivity.
Qed.

(** X10: a task whose ranges lie within its dataset and its destination
    array copies the rows it names: run on a cache that started fresh and
    went through any sequence of calls, it returns and leaves rows
    [[file_offset, file_offset + count)] of dataset [ptype/dataset] of its
    file in rows [[mem_offset, mem_offset + count)] of the destination array
    of its particle type and dataset, and every other row of that array as
    it was.  (For other ranges the two slices are resolved as Python
    resolves slices.) *)
Theorem ReadTask_call_copies_rows (ops : list cache_op) (self : ReadTask) (p0 p : proc)
    (source dest : list row) :
  p_cache p0 = DatasetCache.init ->
  run_ops ops p0 = Ok (tt, p) ->
  h5_files (p_world p0) !! task_file_name self
    ≫= (fun file => file !! (task_ptype self ++ "/" ++ task_dataset self)%string)
  = Some source ->
  buffer p (task_ptype self) (task_dataset self) = Some dest ->
  task_in_range self source dest ->
  exists p1 dest',
    ReadTask_call self p = Ok (tt, p1)
    /\ buffer p1 (task_ptype self) (task_dataset self) = Some dest'
    /\ length dest' = length dest
    /\ forall i : nat,
         dest' !! i
         = if decide (task_mem_offset self <= Z.of_nat i
                      < task_mem_offset self + task_count self)
           then source !! Z.to_nat (Z.of_nat i - task_mem_offset self + task_file_offset self)
           else dest !! i.
Proof.
  intros Hfresh Hrun Hsource Hdest (Hc & Hfo & Hmo & Hfe & Hme & Hls & Hld).
  destruct (run_ops_ok ops p0 p (fresh_cache_ok p0 Hfresh) Hrun) as [Hok Hfiles].
  set (path := (task_ptype self ++ "/" ++ task_dataset self)%string) in *.
  assert (Eopen : exists ds p', open_dataset (task_file_name self) path p = Ok (Some ds, p')
                                /\ h5_rows (p_world p') ds = Ok source
                                /\ p_data p' = p_data p).
  { destruct (open_dataset (task_file_name self) path p) as [[r p']|e] eqn:E.
    - destruct (open_dataset_ok _ _ _ _ _ Hok E)
        as [_ (ds & rows & -> & Hpath & Hopen & Hrows)].
      destruct (open_dataset_world _ _ _ _ _ E) as [Hfiles' _].
      destruct (open_dataset_post _ _ _ _ _ E) as (_ & _ & _ & Hdata).
      exists ds, p'. split; [reflexivity|]. split; [|exact Hdata].
      unfold h5_rows. rewrite Hopen, Hfiles', Hpath, Hrows. f_equal. congruence.
    - exfalso. rewrite <- Hfiles in Hsource. revert E. rewrite open_dataset_unfold. cbn zeta.
      unfold cache_ok in Hok. cbn zeta in Hok. case_bool_decide as Hfile.
      + destruct (h5_files (p_world p) !! task_file_name self) as [f|]; [|discriminate].
        cbn in Hsource. now rewrite Hsource.
      + symmetry in Hfile. rewrite Hfile in Hok. destruct Hok as (fid & Hin & Hopen & Hds).
        rewrite Hin, Hopen, Hsource. now case_bool_decide. }
  destruct Eopen as (ds & p' & Eopen & Hrows & Hdata).
  unfold buffer in Hdest. destruct (p_data p !! task_ptype self) as [arrays|] eqn:Ea;
    [|discriminate]. cbn in Hdest.
  assert (Hsel_f : select_rows (Z.of_nat (length source)) (task_file_offset self)
                     (wrap64 (task_file_offset self + task_count self))
                   = (task_file_offset self, task_count self)).
  { rewrite wrap64_id by (unfold int64_ok; lia). rewrite select_rows_within by lia.
    f_equal. lia. }
  assert (Hsel_m : select_rows (Z.of_nat (length dest)) (task_mem_offset self)
                     (wrap64 (task_mem_offset self + task_count self))
                   = (task_mem_offset self, task_count self)).
  { rewrite wrap64_id by (unfold int64_ok; lia). rewrite select_rows_within by lia.
    f_equal. lia. }
  set (rows := take (Z.to_nat (task_count self)) (drop (Z.to_nat (task_file_offset self)) source)).
  assert (Hlen : length rows = Z.to_nat (task_count self)).
  { unfold rows. rewrite length_take, length_drop. lia. }
  set (dest' := take (Z.to_nat (task_mem_offset self)) dest ++ rows
                ++ drop (Z.to_nat (task_mem_offset self + task_count self)) dest).
  assert (Er : read_direct source dest (task_file_offset self)
                 (wrap64 (task_file_offset self + task_count self))
                 (task_mem_offset self) (wrap64 (task_mem_offset self + task_count self))
               = Ok dest').
  { unfold read_direct. cbn zeta. rewrite Hsel_f, Hsel_m. cbn [fst snd]. fold rows.
    unfold broadcast_rows. rewrite Hlen, Nat.eqb_refl. reflexivity. }
  exists (mk_proc (<[task_ptype self := <[task_dataset self := dest']> arrays]> (p_data p'))
                  (p_cache p') (p_world p')), dest'.
  split; [|split; [|split]].
  - unfold ReadTask_call, bind. fold path. rewrite Eopen. cbn zeta.
    unfold dict_get. rewrite Hdata, Ea. cbn [result_bind]. rewrite Hdest. cbn [result_bind].
    rewrite Hrows. cbn [result_bind]. rewrite Er. reflexivity.
  - unfold buffer. cbn [p_data]. rewrite lookup_insert_eq. cbn. apply lookup_insert_eq.
  - unfold dest'. rewrite !length_app, length_take, length_drop, Hlen. lia.
  - intros i. unfold dest'. case_decide as Hi.
    + rewrite lookup_app_r by (rewrite length_take; lia).
      rewrite length_take. rewrite lookup_app_l by lia.
      unfold rows. rewrite lookup_take_lt by lia. rewrite lookup_drop. f_equal. lia.
    + destruct (decide (Z.of_nat i < task_mem_offset self)) as [Hlt|Hge].
      * rewrite lookup_app_l by (rewrite length_take; lia).
        now rewrite lookup_take_lt by lia.
      * rewrite lookup_app_r by (rewrite length_take; lia).
        rewrite lookup_app_r by (rewrite length_take, Hlen; lia).
        rewrite length_take, Hlen, lookup_drop. f_equal. lia.
Qed.

Lemma opens_app log1 log2 : opens (log1 ++ log2) = (opens log1 + opens log2)%nat.
Proof. unfold opens. now rewrite List.filter_app, length_app. Qed.

Lemma opens_release fids : opens (map EvRelease fids) = 0%nat.
Proof. induction fids as [|fid fids IH]; [reflexivity|exact IH]. Qed.

(** X11: the files are opened once per change of file name: over a run of
    tasks, the number of [h5py.File] calls is the number of tasks whose file
    name differs from that of the task before (for the first task, from the
    file the cache holds). *)
Theorem tasks_open_once_per_switch (tasks : list ReadTask) (p p' : proc) :
  run_ops (map OpTask tasks) p = Ok (tt, p') ->
  opens (h5_log (p_world p'))
  = (opens (h5_log (p_world p))
     + switches (DatasetCache.file_name (p_cache p)) (map task_file_name tasks))%nat.
Proof.
  revert p. induction tasks as [|task tasks IH]; intros p Hrun.
  - injection Hrun as <-. cbn. lia.
  - unfold run_ops in Hrun. cbn [map for_each run_op] in Hrun.
    apply bind_inv in Hrun as ([] & p1 & Hcall & Hrest).
    rewrite (IH p1 Hrest). cbn [map switches].
    destruct (ReadTask_call_inv _ _ _ Hcall) as
      (p0 & d & arrays & dest & source & dest' & Eopen & _ & _ & _ & _ & ->).
    destruct (open_dataset_world _ _ _ _ _ Eopen) as [_ Hlog].
    destruct (open_dataset_post _ _ _ _ _ Eopen) as (Hfn & _).
    cbn [p_world p_cache]. rewrite Hlog, Hfn, opens_app.
    case_bool_decide.
    + rewrite !opens_app, opens_release. cbn. lia.
    + case_bool_decide; [|cbn; lia].
      destruct (DatasetCache.infile (p_cache p)); cbn; lia.
Qed.

(** X12: [close] releases the handle of the cache and forgets its names, so
    that the next request opens its file anew: the handle the cache held is
    closed after [close], and a request that follows returns a dataset in a
    handle opened for it, even for the file and dataset the cache held
    before. *)
Theorem close_then_open_reopens (p p1 p2 : proc) (file_name dataset_name : string)
    (r : option dataset_handle) :
  close p = Ok (tt, p1) ->
  open_dataset file_name dataset_name p1 = Ok (r, p2) ->
  (forall fid, DatasetCache.infile (p_cache p) = Some fid ->
               h5_open (p_world p1) !! fid = None)
  /\ p_data p1 = p_data p
  /\ r = Some (mk_dataset (h5_next (p_world p)) dataset_name)
  /\ h5_open (p_world p2) !! h5_next (p_world p) = Some file_name
  /\ h5_log (p_world p2)
     = h5_log (p_world p)
       ++ match DatasetCache.infile (p_cache p) with
          | Some fid => [EvClose fid]
          | None => []
          end
       ++ [EvOpen (h5_next (p_world p)) file_name;
           EvLookup (h5_next (p_world p)) dataset_name].
Proof.
  intros Hclose Eopen. destruct p as [data [fn inf dn ds] w].
  unfold close, bind, get_cache in Hclose. cbn in Hclose. cbn [p_cache p_world p_data
    DatasetCache.infile].
  assert (Hp1 : p_cache p1 = DatasetCache.mk None inf None None /\ p_data p1 = data
                /\ h5_next (p_world p1) = h5_next w
                /\ h5_open (p_world p1)
                   = match inf with Some fid => delete fid (h5_open w) | None => h5_open w end
                /\ h5_log (p_world p1)
                   = h5_log w ++ match inf with Some fid => [EvClose fid] | None => [] end).
  { destruct inf as [fid|]; cbn in Hclose; injection Hclose as <-; cbn;
      repeat split; now rewrite ?app_nil_r. }
  destruct Hp1 as (Hcache & Hdata & Hnext & Hopen & Hlog).
  assert (Hclosed : forall fid, inf = Some fid -> h5_open (p_world p1) !! fid = None).
  { intros fid ->. rewrite Hopen. apply lookup_delete_eq. }
  split; [exact Hclosed|]. split; [exact Hdata|].
  assert (Hdropped : dropped (p_cache p1) (p_world p1) (h5_next (p_world p1)) = []).
  { unfold dropped. rewrite Hcache. cbn. destruct inf as [fid|]; [|reflexivity].
    rewrite (Hclosed fid eq_refl).
    rewrite (bool_decide_eq_false_2 (is_Some None)) by (intros [x Hx]; discriminate).
    now rewrite andb_false_r. }
  revert Eopen. rewrite open_dataset_unfold. cbn zeta. rewrite Hdropped, Hcache.
  cbn [DatasetCache.file_name foldr map app].
  rewrite bool_decide_eq_true_2 by discriminate.
  destruct (h5_files (p_world p1) !! file_name) as [f|]; [|discriminate].
  destruct (f !! dataset_name); [|discriminate].
  intros [= <- <-]. cbn. rewrite Hnext, Hlog, <- app_assoc.
  split; [reflexivity|]. split; [apply lookup_insert_eq|reflexivity].
Qed.

(** X13: a task whose dataset is not there copies nothing and raises: OSError
    when its file does not exist and is not the one the cache holds,
    KeyError when the file exists (or is held) and has no such dataset. *)
Theorem ReadTask_call_missing_source (self : ReadTask) (p : proc) :
  let path := (task_ptype self ++ "/" ++ task_dataset self)%string in
  cache_ok p ->
  h5_files (p_world p) !! task_file_name self ≫= (fun file => file !! path) = None ->
  ReadTask_call self p
  = Raise (if bool_decide (Some (task_file_name self) ≠ DatasetCache.file_name (p_cache p))
              && bool_decide (h5_files (p_world p) !! task_file_name self = None)
           then OSError else KeyError).
Proof.
  intros path Hok Hnone. unfold ReadTask_call, bind. fold path.
  assert (E : open_dataset (task_file_name self) path p
              = Raise (if bool_decide (Some (task_file_name self)
                                       ≠ DatasetCache.file_name (p_cache p))
                          && bool_decide (h5_files (p_world p) !! task_file_name self = None)
                       then OSError else KeyError)).
  { revert Hok Hnone. generalize (task_file_name self) as file_name. intros file_name.
    rewrite open_dataset_unfold. unfold cache_ok. cbn zeta. intros Hok Hnone.
    case_bool_decide as Hfile; cbn [andb].
    - destruct (h5_files (p_world p) !! file_name) as [f|] eqn:Ef.
      + rewrite bool_decide_eq_false_2 by discriminate. cbn in Hnone. now rewrite Hnone.
      + now rewrite bool_decide_eq_true_2.
    - symmetry in Hfile. rewrite Hfile in Hok. destruct Hok as (fid & Hin & Hopen & Hds).
      rewrite Hin, Hopen, Hnone. case_bool_decide as Hdn; [reflexivity|].
      exfalso. symmetry in Hdn. rewrite Hdn in Hds.
      destruct Hds as [_ [rows Hrows]]. congruence. }
  now rewrite E.
Qed.

(** A worker that requested a dataset of file 0, closed its cache and ran a
    task on file 0 gets, for the masses of file 1, a handle that reads the
    masses of file 1. *)
Lemma open_dataset_returns_requested_witness :
  exists p p' ds,
    run_ops [OpOpen "snap_0.hdf5" "PartType0/Masses"; OpClose; OpTask masses_task] fresh_proc
    = Ok (tt, p)
    /\ open_dataset "snap_1.hdf5" "PartType0/Masses" p = Ok (Some ds, p')
    /\ h5_rows (p_world p') ds = Ok [[20]; [21]; [22]; [23]].
Proof.
  destruct (run_ops [OpOpen "snap_0.hdf5" "PartType0/Masses"; OpClose; OpTask masses_task]
              fresh_proc) as [[[] p]|e] eqn:Erun; [|vm_compute in Erun; discriminate].
  destruct (open_dataset "snap_1.hdf5" "PartType0/Masses" p) as [[r p']|e] eqn:Eopen.
  2:{ vm_compute in Erun. injection Erun as <-. vm_compute in Eopen. discriminate. }
  destruct (open_dataset_returns_requested _ fresh_proc p p' _ _ r eq_refl Erun Eopen)
    as (ds & rows & -> & _ & _ & Hrows & Hread).
  exists p, p', ds. split; [reflexivity|]. split; [exact Eopen|].
  vm_compute in Hrows. injection Hrows as <-. exact Hread.
Defined.

(** After a request for file 1, the task on file 0 returns; it has copied
    rows 1 and 2 of the masses of file 0 to rows 0 and 1 of the destination
    and left row 2. *)
Lemma ReadTask_call_copies_rows_witness :
  exists p p1 dest',
    run_ops [OpOpen "snap_1.hdf5" "PartType0/Masses"] fresh_proc = Ok (tt, p)
    /\ ReadTask_call masses_task p = Ok (tt, p1)
    /\ buffer p1 "PartType0" "Masses" = Some dest'
    /\ dest' !! 0%nat = Some [11] /\ dest' !! 1%nat = Some [12] /\ dest' !! 2%nat = Some [0].
Proof.
  destruct (run_ops [OpOpen "snap_1.hdf5" "PartType0/Masses"] fresh_proc)
    as [[[] p]|e] eqn:Erun; [|vm_compute in Erun; discriminate].
  assert (Hdest : buffer p "PartType0" "Masses" = Some [[0]; [0]; [0]]).
  { vm_compute in Erun. injection Erun as <-. reflexivity. }
  destruct (ReadTask_call_copies_rows _ masses_task fresh_proc p
              [[10]; [11]; [12]; [13]] [[0]; [0]; [0]] eq_refl Erun eq_refl Hdest
              ltac:(vm_compute; intuition discriminate))
    as (p1 & dest' & Ecall & Hbuf & _ & Hrows).
  exists p, p1, dest'. split; [reflexivity|]. split; [exact Ecall|]. split; [exact Hbuf|].
  rewrite !Hrows. repeat split.
Defined.

(** Two tasks on file 0 and one on file 1, on a fresh cache: two opens. *)
Lemma tasks_open_once_per_switch_witness :
  exists p',
    run_ops (map OpTask [masses_task; mk_task "snap_0.hdf5" "PartType0" "Masses" 0 2 1;
                         mk_task "snap_1.hdf5" "PartType0" "Masses" 0 0 1]) fresh_proc
    = Ok (tt, p')
    /\ opens (h5_log (p_world p')) = 2%nat.
Proof.
  destruct (run_ops (map OpTask [masses_task; mk_task "snap_0.hdf5" "PartType0" "Masses" 0 2 1;
                                 mk_task "snap_1.hdf5" "PartType0" "Masses" 0 0 1]) fresh_proc)
    as [[[] p']|e] eqn:Erun; [|vm_compute in Erun; discriminate].
  exists p'. split; [reflexivity|].
  rewrite (tasks_open_once_per_switch _ fresh_proc p' Erun). reflexivity.
Defined.

(** A request for the masses of file 0, [close], and the same request
    again: handle 0 is closed and the dataset is in handle 1. *)
Lemma close_then_open_reopens_witness :
  exists r0 p p1 p2,
    open_dataset "snap_0.hdf5" "PartType0/Masses" fresh_proc = Ok (r0, p)
    /\ close p = Ok (tt, p1)
    /\ open_dataset "snap_0.hdf5" "PartType0/Masses" p1
       = Ok (Some (mk_dataset 1 "PartType0/Masses"), p2)
    /\ h5_open (p_world p1) !! 0%nat = None
    /\ h5_open (p_world p2) !! 1%nat = Some "snap_0.hdf5".
Proof.
  destruct (open_dataset "snap_0.hdf5" "PartType0/Masses" fresh_proc)
    as [[r0 p]|e] eqn:E0; [|vm_compute in E0; discriminate].
  destruct (close p) as [[[] p1]|e] eqn:Ec.
  2:{ vm_compute in E0. injection E0 as <- <-. vm_compute in Ec. discriminate. }
  destruct (open_dataset "snap_0.hdf5" "PartType0/Masses" p1) as [[r p2]|e] eqn:E1.
  2:{ vm_compute in E0. injection E0 as <- <-. vm_compute in Ec. injection Ec as <-.
      vm_compute in E1. discriminate. }
  destruct (close_then_open_reopens p p1 p2 _ _ r Ec E1) as (Hclosed & _ & -> & Hopen & _).
  assert (Hp : DatasetCache.infile (p_cache p) = Some 0%nat /\ h5_next (p_world p) = 1%nat).
  { vm_compute in E0. injection E0 as <- <-. now split. }
  destruct Hp as [Hin Hnext]. rewrite Hnext in *.
  exists r0, p, p1, p2. split; [reflexivity|]. split; [exact Ec|]. split; [exact E1|].
  split; [exact (Hclosed 0%nat Hin)|exact Hopen].
Defined.

(** A task on a file that does not exist, and a task on a dataset file 0
    does not have. *)
Lemma ReadTask_call_missing_source_witness :
  ReadTask_call (mk_task "snap_7.hdf5" "PartType0" "Masses" 0 0 1) fresh_proc = Raise OSError
  /\ ReadTask_call (mk_task "snap_0.hdf5" "PartType0" "Coordinates" 0 0 1) fresh_proc
     = Raise KeyError.
Proof.
  split.
  - apply (ReadTask_call_missing_source (mk_task "snap_7.hdf5" "PartType0" "Masses" 0 0 1)
             fresh_proc); reflexivity.
  - apply (ReadTask_call_missing_source
             (mk_task "snap_0.hdf5" "PartType0" "Coordinates" 0 0 1) fresh_proc); reflexivity.
Defined.

(** ** The orchestrator: what the ranks are handed *)

Lemma fold_result_steps {A B : Type} (f : B -> A -> result B) (xs : list A) : forall b b',
  fold_result f xs b = Ok b' ->
  forall x, x ∈ xs -> exists b1 b2, f b1 x = Ok b2.
Proof.
  induction xs as [|x xs IH]; intros b b' H y Hy; [now apply elem_of_nil in Hy|].
  cbn [fold_result] in H. apply result_bind_inv in H as (b1 & E1 & H).
  apply elem_of_cons in Hy as [->|Hy]; [eauto|]. exact (IH _ _ H y Hy).
Qed.

Lemma contiguous_bounds (rs : list read_t) : forall start stop,
  contiguous start rs stop ->
  start <= stop
  /\ forall r, r ∈ rs -> start <= r.1.2 /\ 0 < r.2 /\ r.1.2 + r.2 <= stop.
Proof.
  induction rs as [|r0 rs IH]; intros start stop H; cbn in H.
  - subst. split; [lia|]. intros r Hr. now apply elem_of_nil in Hr.
  - destruct H as (E & Hpos & Hrest). destruct (IH _ _ Hrest) as [Hle Hall].
    split; [lia|]. intros r Hr. apply elem_of_cons in Hr as [->|Hr]; [lia|].
    specialize (Hall r Hr). lia.
Qed.

Lemma sum_with_offsets cells : forall m,
  sum_Z (map (fun x : Z * read_t => x.2.2) (with_offsets m cells)) = sum_Z (map count cells).
Proof. induction cells as [|c rest IH]; intros m; cbn; [reflexivity|]. now rewrite IH. Qed.

Lemma sum_Z_app l1 l2 : sum_Z (l1 ++ l2) = sum_Z l1 + sum_Z l2.
Proof. induction l1 as [|x l1 IH]; cbn; lia. Qed.

Lemma sum_reads_in_file_order (reads : gmap Z (list read_t)) :
  sum_Z (map (fun x : Z * read_t => x.2.2) (reads_in_file_order reads))
  = sum_Z (map (fun file_nr => sum_Z (map (fun r : read_t => r.2)
                                          (default [] (reads !! file_nr))))
               (np_unique (keys reads))).
Proof.
  unfold reads_in_file_order. induction (np_unique (keys reads)) as [|f fs IH];
    [reflexivity|].
  cbn [map concat sum_Z]. rewrite map_app, sum_Z_app, IH. f_equal.
  now rewrite map_map.
Qed.

(** The planned cells are in file order. *)
Lemma planned_cells_sorted cap cells (mask : mask_t) :
  StronglySorted cell_le (planned_cells cap cells mask).
Proof.
  unfold planned_cells. apply merge_array_sorted, take_indices_sorted, lexsort_sorted.
Qed.

Lemma share_tasks_concat {A : Type} (all_tasks : list A) comm_size tasks :
  share_tasks all_tasks comm_size = Ok tasks -> concat tasks = all_tasks.
Proof.
  unfold share_tasks. destruct (Z.eqb_spec comm_size 0) as [->|Hne]; [discriminate|].
  destruct (Z.lt_ge_cases 0 comm_size) as [Hp|Hn].
  - destruct (share_loop (Z.of_nat (length all_tasks)) comm_size (range 0 comm_size)
                all_tasks []) as (qs & E & Hc & _);
      [lia|exact Hp|now rewrite sum_share_sizes|].
    rewrite E. cbn. now intros [= <-].
  - rewrite range_nil by lia. cbn. destruct all_tasks; [now intros [= <-]|discriminate].
Qed.

Lemma lookup_zero_counts (property_names : property_names_t) ptype :
  ptype ∈ property_names.*1 ->
  (list_to_map (map (fun item : string * list string => (item.1, 0)) property_names)
     : gmap string Z) !! ptype = Some 0.
Proof.
  induction property_names as [|item rest IH]; intros Hin; [now apply elem_of_nil in Hin|].
  cbn [map]. rewrite list_to_map_cons. cbn [fst snd].
  rewrite fmap_cons in Hin. destruct (decide (ptype = item.1)) as [->|Hne].
  - apply lookup_insert_eq.
  - rewrite lookup_insert_ne by congruence. apply elem_of_cons in Hin as [?|Hin]; [done|].
    now apply IH.
Qed.

Lemma sum_Z_nonneg l : Forall (fun z => 0 <= z) l -> 0 <= sum_Z l.
Proof. induction 1; cbn; lia. Qed.

Lemma sum_nonneg_reads (ranges : list read_t) :
  Forall (fun r : read_t => 0 <= r.2) ranges ->
  0 <= sum_Z (map (fun r : read_t => r.2) ranges).
Proof. intros H. apply sum_Z_nonneg. now apply Forall_map. Qed.

(** The count of the ranges of one particle type in one file (line 312). *)
Lemma count_ranges ptype (ranges : list read_t) : forall (nr_parts : gmap string Z) n,
  nr_parts !! ptype = Some n -> 0 <= n ->
  Forall (fun r : read_t => 0 <= r.2) ranges ->
  n + sum_Z (map (fun r : read_t => r.2) ranges) < 2 ^ 63 ->
  fold_result (fun (nr_parts : gmap string Z) (r : read_t) =>
                 let+ n := dict_get nr_parts ptype in
                 Ok (<[ptype := wrap64 (n + r.2)]> nr_parts)) ranges nr_parts
  = Ok (<[ptype := n + sum_Z (map (fun r : read_t => r.2) ranges)]> nr_parts).
Proof.
  induction ranges as [|r rest IH]; intros nr_parts n Hn Hnn Hall Hsum.
  - cbn. rewrite Z.add_0_r. now rewrite insert_id.
  - apply Forall_cons in Hall as [Hr Hall]. cbn [map sum_Z fold_result] in *.
    pose proof (sum_nonneg_reads rest Hall) as Hrest.
    unfold dict_get at 1. rewrite Hn. cbn [result_bind].
    rewrite wrap64_id by (unfold int64_ok; lia).
    rewrite (IH _ (n + r.2)); [|apply lookup_insert_eq|lia|exact Hall|lia].
    rewrite insert_insert_eq. f_equal. f_equal. lia.
Qed.

(** The count of one file over the particle types (lines 310-312). *)
Lemma count_types (reads_for_type : reads_for_type_t) file_nr (K : list string)
    (items : property_names_t) : forall (nr_parts : gmap string Z) (a : string -> Z),
  NoDup items.*1 ->
  (forall p, p ∈ items.*1 -> p ∈ K) ->
  (forall p, p ∈ K -> nr_parts !! p = Some (a p) /\ 0 <= a p) ->
  (forall p, p ∈ items.*1 ->
     is_Some (reads_for_type !! p ≫= (fun reads => reads !! file_nr))) ->
  (forall p, p ∈ items.*1 ->
     Forall (fun r : read_t => 0 <= r.2) (ranges_of reads_for_type p file_nr)) ->
  (forall p, p ∈ items.*1 -> a p + planned_count reads_for_type p [file_nr] < 2 ^ 63) ->
  exists nr_parts',
    fold_result (fun nr_parts (item : string * list string) =>
      let ptype := item.1 in
      let+ reads := dict_get reads_for_type ptype in
      let+ ranges := dict_get reads file_nr in
      fold_result (fun (nr_parts : gmap string Z) (r : read_t) =>
        let+ n := dict_get nr_parts ptype in
        Ok (<[ptype := wrap64 (n + r.2)]> nr_parts))
      ranges nr_parts) items nr_parts = Ok nr_parts'
    /\ forall p, p ∈ K ->
         nr_parts' !! p
         = Some (a p + if decide (p ∈ items.*1)
                       then planned_count reads_for_type p [file_nr] else 0).
Proof.
  induction items as [|item rest IH]; intros nr_parts a Hnd Hsub Hnr Hlook Hnn Hsum.
  - exists nr_parts. split; [reflexivity|]. intros p Hp.
    rewrite decide_False by (cbn; apply not_elem_of_nil).
    rewrite Z.add_0_r. now apply Hnr.
  - rewrite fmap_cons in *. apply NoDup_cons in Hnd as [Hnotin Hnd].
    assert (Hhere : item.1 ∈ item.1 :: rest.*1) by apply list_elem_of_here.
    destruct (Hlook _ Hhere) as [ranges Hranges].
    destruct (reads_for_type !! item.1) as [reads|] eqn:Ereads; [|discriminate].
    cbn in Hranges.
    assert (Hro : ranges_of reads_for_type item.1 file_nr = ranges).
    { unfold ranges_of. rewrite Ereads. cbn. now rewrite Hranges. }
    assert (Hpc : planned_count reads_for_type item.1 [file_nr]
                  = sum_Z (map (fun r : read_t => r.2) ranges)).
    { unfold planned_count. cbn. rewrite Hro. lia. }
    destruct (Hnr _ (Hsub _ Hhere)) as [Hn Ha].
    pose proof (Hnn _ Hhere) as Hall. rewrite Hro in Hall.
    pose proof (Hsum _ Hhere) as Hbound. rewrite Hpc in Hbound.
    cbn [fold_result]. unfold dict_get at 1. rewrite Ereads. cbn [result_bind].
    unfold dict_get at 1. rewrite Hranges. cbn [result_bind].
    rewrite (count_ranges item.1 ranges nr_parts (a item.1) Hn Ha Hall Hbound).
    cbn [result_bind].
    destruct (IH (<[item.1 := a item.1 + sum_Z (map (fun r : read_t => r.2) ranges)]> nr_parts)
                 (fun p => if decide (p = item.1)
                           then a p + sum_Z (map (fun r : read_t => r.2) ranges)
                           else a p))
      as (nr' & E & Hnr'); [exact Hnd| | | | | |].
    + intros p Hp. apply Hsub. now apply list_elem_of_further.
    + intros p Hp. destruct (decide (p = item.1)) as [->|Hne].
      * rewrite lookup_insert_eq. split; [reflexivity|].
        pose proof (sum_nonneg_reads ranges Hall). lia.
      * rewrite lookup_insert_ne by congruence. now apply Hnr.
    + intros p Hp. apply Hlook. now apply list_elem_of_further.
    + intros p Hp. apply Hnn. now apply list_elem_of_further.
    + intros p Hp. rewrite decide_False by (intros ->; contradiction).
      apply Hsum. now apply list_elem_of_further.
    + exists nr'. split; [exact E|]. intros p Hp. rewrite (Hnr' p Hp).
      destruct (decide (p = item.1)) as [->|Hne].
      * rewrite decide_False by exact Hnotin. rewrite decide_True by exact Hhere.
        rewrite Hpc. f_equal. lia.
      * destruct (decide (p ∈ rest.*1)) as [Hin|Hout].
        -- rewrite decide_True by now apply list_elem_of_further. reflexivity.
        -- rewrite decide_False; [reflexivity|].
           intros Hc. apply elem_of_cons in Hc as [?|?]; contradiction.
Qed.

Lemma planned_count_cons reads_for_type p f files :
  planned_count reads_for_type p (f :: files)
  = planned_count reads_for_type p [f] + planned_count reads_for_type p files.
Proof. unfold planned_count. cbn. lia. Qed.

Lemma planned_count_nonneg (reads_for_type : reads_for_type_t) p files :
  (forall f, f ∈ files -> Forall (fun r : read_t => 0 <= r.2) (ranges_of reads_for_type p f)) ->
  0 <= planned_count reads_for_type p files.
Proof.
  intros H. unfold planned_count. apply sum_Z_nonneg, Forall_map, Forall_forall.
  intros f Hf. apply sum_nonneg_reads, H. exact Hf.
Qed.

(** The count over the files (lines 308-312), when every particle type has
    ranges in every file. *)
Lemma count_files (reads_for_type : reads_for_type_t) (property_names : property_names_t)
    (files : list Z) : forall (nr_parts : gmap string Z) (a : string -> Z),
  NoDup property_names.*1 ->
  (forall p, p ∈ property_names.*1 -> nr_parts !! p = Some (a p) /\ 0 <= a p) ->
  (forall p f, p ∈ property_names.*1 -> f ∈ files ->
     is_Some (reads_for_type !! p ≫= (fun reads => reads !! f))) ->
  (forall p f, p ∈ property_names.*1 -> f ∈ files ->
     Forall (fun r : read_t => 0 <= r.2) (ranges_of reads_for_type p f)) ->
  (forall p, p ∈ property_names.*1 -> a p + planned_count reads_for_type p files < 2 ^ 63) ->
  exists nr_parts',
    fold_result (fun nr_parts file_nr =>
      fold_result (fun nr_parts (item : string * list string) =>
        let ptype := item.1 in
        let+ reads := dict_get reads_for_type ptype in
        let+ ranges := dict_get reads file_nr in
        fold_result (fun (nr_parts : gmap string Z) (r : read_t) =>
          let+ n := dict_get nr_parts ptype in
          Ok (<[ptype := wrap64 (n + r.2)]> nr_parts))
        ranges nr_parts)
      property_names nr_parts) files nr_parts = Ok nr_parts'
    /\ forall p, p ∈ property_names.*1 ->
         nr_parts' !! p = Some (a p + planned_count reads_for_type p files).
Proof.
  induction files as [|f files IH]; intros nr_parts a Hnd Hnr Hlook Hnn Hsum.
  - exists nr_parts. split; [reflexivity|]. intros p Hp.
    unfold planned_count. cbn. rewrite Z.add_0_r. now apply Hnr.
  - assert (Hrest : forall p, p ∈ property_names.*1 ->
                      0 <= planned_count reads_for_type p files).
    { intros p Hp. apply planned_count_nonneg. intros f' Hf'. apply Hnn; [exact Hp|].
      now apply list_elem_of_further. }
    destruct (count_types reads_for_type f property_names.*1 property_names nr_parts a)
      as (nr1 & E1 & Hnr1); [exact Hnd|auto|exact Hnr| | | |].
    + intros p Hp. apply Hlook; [exact Hp|apply list_elem_of_here].
    + intros p Hp. apply Hnn; [exact Hp|apply list_elem_of_here].
    + intros p Hp. specialize (Hsum p Hp). rewrite planned_count_cons in Hsum.
      specialize (Hrest p Hp). lia.
    + cbn [fold_result]. cbn zeta in E1. rewrite E1. cbn [result_bind].
      destruct (IH nr1 (fun p => a p + planned_count reads_for_type p [f]))
        as (nr' & E & Hnr'); [exact Hnd| | | | |].
      * intros p Hp. rewrite (Hnr1 p Hp), decide_True by exact Hp. split; [reflexivity|].
        destruct (Hnr p Hp) as [_ Ha].
        assert (0 <= planned_count reads_for_type p [f]).
        { apply planned_count_nonneg. intros f' Hf'. apply list_elem_of_singleton in Hf' as ->.
          apply Hnn; [exact Hp|apply list_elem_of_here]. }
        lia.
      * intros p f' Hp Hf'. apply Hlook; [exact Hp|now apply list_elem_of_further].
      * intros p f' Hp Hf'. apply Hnn; [exact Hp|now apply list_elem_of_further].
      * intros p Hp. specialize (Hsum p Hp). rewrite planned_count_cons in Hsum.
        cbv beta. lia.
      * exists nr'. split; [exact E|]. intros p Hp. rewrite (Hnr' p Hp), (planned_count_cons _ p f files).
        cbv beta. apply (f_equal Some). lia.
Qed.

(** A count that returns found ranges for every particle type in every
    file. *)
Lemma count_particles_lookups (property_names : property_names_t)
    (reads_for_type : reads_for_type_t) files nr_parts :
  count_particles property_names reads_for_type files = Ok nr_parts ->
  forall p f, p ∈ property_names.*1 -> f ∈ files ->
    is_Some (reads_for_type !! p ≫= (fun reads => reads !! f)).
Proof.
  unfold count_particles. intros H p f Hp Hf.
  destruct (fold_result_steps _ _ _ _ H f Hf) as (b1 & b2 & Hfile).
  apply list_elem_of_fmap in Hp as (item & -> & Hitem).
  destruct (fold_result_steps _ _ _ _ Hfile item Hitem) as (b3 & b4 & Hstep).
  cbn zeta in Hstep.
  apply result_bind_inv in Hstep as (reads & Er & Hstep). apply dict_get_inv in Er.
  apply result_bind_inv in Hstep as (ranges & Eg & _). apply dict_get_inv in Eg.
  rewrite Er. cbn. rewrite Eg. eauto.
Qed.

(** The count of the particles: when it returns, every particle type has
    ranges in every file, and the count of a type is the sum of the counts
    of its ranges. *)
Lemma count_particles_spec (property_names : property_names_t)
    (reads_for_type : reads_for_type_t) files nr_parts :
  NoDup property_names.*1 ->
  (forall p f, p ∈ property_names.*1 -> f ∈ files ->
     Forall (fun r : read_t => 0 <= r.2) (ranges_of reads_for_type p f)) ->
  (forall p, p ∈ property_names.*1 -> planned_count reads_for_type p files < 2 ^ 63) ->
  count_particles property_names reads_for_type files = Ok nr_parts ->
  forall p, p ∈ property_names.*1 ->
    nr_parts !! p = Some (planned_count reads_for_type p files).
Proof.
  intros Hnd Hnn Hsum H.
  pose proof (count_particles_lookups _ _ _ _ H) as Hlook.
  unfold count_particles in H.
  destruct (count_files reads_for_type property_names files
              (list_to_map (map (fun item : string * list string => (item.1, 0))
                                property_names))
              (fun _ => 0) Hnd) as (nr' & E & Hnr'); [|exact Hlook|exact Hnn| |].
  - intros p Hp. split; [now apply lookup_zero_counts|lia].
  - intros p Hp. specialize (Hsum p Hp). lia.
  - cbv zeta in H, E. rewrite E in H. injection H as <-. intros p Hp. rewrite (Hnr' p Hp). apply (f_equal Some). lia.
Qed.

(** The union of the file numbers (lines 302-305): ascending, without
    repetition, the files some requested particle type has reads in. *)
Lemma union_loop (reads_for_type : reads_for_type_t) (items : property_names_t) :
  forall acc files,
    fold_result (fun (all_file_nrs : list Z) (item : string * list string) =>
                   let+ reads := dict_get reads_for_type item.1 in
                   Ok (all_file_nrs ++ keys reads)) items acc = Ok files ->
    forall f, f ∈ files <->
      f ∈ acc \/ exists p reads, p ∈ items.*1 /\ reads_for_type !! p = Some reads
                                 /\ is_Some (reads !! f).
Proof.
  induction items as [|item rest IH]; intros acc files H f.
  - injection H as <-. split; [auto|]. intros [?|(p & reads & Hp & _)]; [done|].
    now apply elem_of_nil in Hp.
  - cbn [fold_result] in H. apply result_bind_inv in H as (acc1 & E1 & H).
    apply result_bind_inv in E1 as (reads & Er & E1). apply dict_get_inv in Er.
    injection E1 as <-. rewrite (IH _ _ H f), elem_of_app, elem_of_keys, fmap_cons. split.
    + intros [[Hacc|Hkey]|(p & reads' & Hp & Hr & Hf)]; [now left| |].
      * right. exists item.1, reads. split; [apply list_elem_of_here|]. now split.
      * right. exists p, reads'. split; [now apply list_elem_of_further|]. now split.
    + intros [Hacc|(p & reads' & Hp & Hr & Hf)]; [now left; left|].
      apply elem_of_cons in Hp as [->|Hp].
      * left. right. congruence.
      * right. exists p, reads'. now repeat split.
Qed.

Lemma union_of_file_nrs_spec (property_names : property_names_t)
    (reads_for_type : reads_for_type_t) files :
  union_of_file_nrs property_names reads_for_type = Ok files ->
  StronglySorted Z.lt files
  /\ forall f, f ∈ files <->
       exists p reads, p ∈ property_names.*1 /\ reads_for_type !! p = Some reads
                       /\ is_Some (reads !! f).
Proof.
  unfold union_of_file_nrs. intros H. apply result_bind_inv in H as (all & Hall & H).
  injection H as <-. split; [apply np_unique_sorted|].
  intros f. rewrite elem_of_np_unique, (union_loop _ _ _ _ Hall f). split.
  - intros [Hnil|?]; [now apply elem_of_nil in Hnil|assumption].
  - auto.
Qed.

(** The ranges of a plan hold particles, and together as many as the
    planned cells. *)
Lemma make_reads_ranges cells reads :
  Forall (fun c => 0 < count c) cells ->
  make_reads cells = Ok reads ->
  forall f rs (r : read_t), reads !! f = Some rs -> r ∈ rs -> 0 < r.2.
Proof.
  intros Hpos E f rs r Hrs Hr.
  destruct (make_reads_spec cells) as (reads' & E' & Hl). rewrite E in E'.
  injection E' as <-. rewrite Hl in Hrs. destruct (decide _); [|discriminate].
  injection Hrs as <-. apply elem_of_reads_of_file in Hr as (c & Hc & _ & _ & ->).
  rewrite Forall_forall in Hpos. now apply Hpos.
Qed.

Lemma make_reads_total cells reads :
  StronglySorted cell_le cells ->
  make_reads cells = Ok reads ->
  sum_Z (map (fun file_nr => sum_Z (map (fun r : read_t => r.2)
                                        (default [] (reads !! file_nr))))
             (np_unique (keys reads)))
  = sum_Z (map count cells).
Proof.
  intros Hs E. rewrite <- sum_reads_in_file_order.
  rewrite (make_reads_in_file_order cells reads Hs E). apply sum_with_offsets.
Qed.

Section PlanReads.

Context {quantity : Type}.

(** The loop of [plan_reads] (lines 297-299): it keeps the arrays of the
    store, gives every requested particle type an entry, and the entry of a
    type is the plan of the cells its grid holds. *)
Lemma plan_reads_loop (self : @SWIFTCellGrid quantity) (mask : mask_t)
    (items : property_names_t) : forall (acc : reads_for_type_t) (h : store) reads_for_type h',
  fold_M (fun (reads_for_type : reads_for_type_t) (item : string * list string) =>
            let ptype := item.1 in
            let* reads := prepare_read self ptype mask in
            ret (<[ptype := reads]> reads_for_type)) items acc h = Ok (reads_for_type, h') ->
  (forall a arr, h !! a = Some arr -> h' !! a = Some arr)
  /\ (forall p, is_Some (reads_for_type !! p) <-> is_Some (acc !! p) \/ p ∈ items.*1)
  /\ (forall p reads, reads_for_type !! p = Some reads ->
        acc !! p = Some reads
        \/ (p ∈ items.*1
            /\ exists grid cells,
                 cell self !! p = Some grid /\ h' !! grid = Some cells
                 /\ shape_is (dimension self) mask
                    && (length cells =? length (ravel mask))%nat = true
                 /\ make_reads (planned_cells max_size cells mask) = Ok reads)).
Proof.
  induction items as [|item rest IH]; intros acc h rft h' H.
  - injection H as <- <-. split; [auto|]. split.
    + intros p. split; [auto|]. intros [?|Hp]; [done|]. now apply elem_of_nil in Hp.
    + auto.
  - cbn [fold_M] in H. apply bind_inv in H as (acc1 & h1 & Hstep & H).
    cbn zeta in Hstep. apply bind_inv in Hstep as (reads1 & h1' & Hprep & Hret).
    injection Hret as <- <-.
    destruct (IH _ _ _ _ H) as (Hframe & Hkeys & Hplan).
    pose proof (prepare_read_frame self item.1 mask h h1' reads1 Hprep) as Hframe1.
    split; [auto|]. rewrite fmap_cons. split.
    + intros p. rewrite Hkeys, lookup_insert_is_Some, elem_of_cons.
      destruct (decide (item.1 = p)) as [->|Hne]; [tauto|]. split.
      * intros [[?|[_ ?]]|?]; [done| |]; auto.
      * intros [?|[?|?]]; [|congruence|]; auto.
    + intros p reads Hp. destruct (Hplan p reads Hp) as [Hacc|(Hin & Hcells)].
      * destruct (decide (item.1 = p)) as [<-|Hne].
        -- rewrite lookup_insert_eq in Hacc. injection Hacc as ->. right.
           split; [apply list_elem_of_here|].
           rewrite prepare_read_unfold in Hprep.
           destruct (cell self !! item.1) as [grid|]; [|discriminate].
           destruct (h !! grid) as [cells|] eqn:Ecells; [|discriminate].
           destruct (_ && _) eqn:Etest; [|discriminate].
           destruct (make_reads _) as [r|] eqn:Er; [|discriminate].
           injection Hprep as -> <-. exists grid, cells. split; [reflexivity|].
           split; [|now split]. apply Hframe. now apply lookup_app_l_Some.
        -- rewrite lookup_insert_ne in Hacc by exact Hne. now left.
      * right. split; [now apply list_elem_of_further|exact Hcells].
Qed.

(** What a run that returned knows of one requested particle type: its
    plan, that the files of the run are the files of the plan, and that its
    ranges hold the selected particles. *)
Lemma orchestrator_type (self : @SWIFTCellGrid quantity) (property_names : property_names_t)
    (mask : mask_t) (h h' : store) (reads_for_type : reads_for_type_t) files nr_parts
    p grid cells :
  plan_reads self property_names mask h = Ok (reads_for_type, h') ->
  union_of_file_nrs property_names reads_for_type = Ok files ->
  count_particles property_names reads_for_type files = Ok nr_parts ->
  p ∈ property_names.*1 ->
  cell self !! p = Some grid -> h !! grid = Some cells ->
  Forall (fun c => 0 <= count c) cells ->
  sum_Z (map count (select cells (ravel mask))) < 2 ^ 63 ->
  exists reads,
    reads_for_type !! p = Some reads
    /\ make_reads (planned_cells max_size cells mask) = Ok reads
    /\ files = np_unique (keys reads)
    /\ (forall f, ranges_of reads_for_type p f = default [] (reads !! f))
    /\ planned_count reads_for_type p files
       = sum_Z (map count (select cells (ravel mask))).
Proof.
  intros Hplan Hunion Hcount Hp Hcell Hcells Hnonneg Htotal.
  destruct (plan_reads_loop self mask property_names ∅ h reads_for_type h' Hplan)
    as (Hframe & Hkeys & Hentry).
  assert (Hsome : is_Some (reads_for_type !! p)) by (apply Hkeys; now right).
  destruct Hsome as [reads Hreads]. exists reads. split; [exact Hreads|].
  destruct (Hentry p reads Hreads) as [Hempty|(_ & grid' & cells' & Hc' & Hh' & _ & Hmake)];
    [now rewrite lookup_empty in Hempty|].
  assert (grid' = grid) as -> by congruence.
  assert (cells' = cells) as ->.
  { apply Hframe in Hcells. congruence. }
  split; [exact Hmake|].
  destruct (union_of_file_nrs_spec _ _ _ Hunion) as [Hsorted Hfiles].
  assert (Efiles : files = np_unique (keys reads)).
  { apply strictly_sorted_ext; [exact Hsorted|apply np_unique_sorted|].
    intros f. rewrite elem_of_np_unique, elem_of_keys. split.
    - intros Hf. pose proof (count_particles_lookups _ _ _ _ Hcount p f Hp Hf) as Hl.
      rewrite Hreads in Hl. exact Hl.
    - intros Hf. apply Hfiles. exists p, reads. auto. }
  split; [exact Efiles|].
  assert (Hro : forall f, ranges_of reads_for_type p f = default [] (reads !! f)).
  { intros f. unfold ranges_of. now rewrite Hreads. }
  split; [exact Hro|].
  unfold planned_count. rewrite (map_ext _ _ (fun f => f_equal (fun l => sum_Z (map _ l)) (Hro f))).
  rewrite Efiles, (make_reads_total _ _ (planned_cells_sorted _ _ _) Hmake).
  now apply planned_cells_sum.
Qed.

(** The counts of a run that returned are the selected particles. *)
Lemma orchestrator_counts (self : @SWIFTCellGrid quantity) (property_names : property_names_t)
    (mask : mask_t) (h h' : store) (reads_for_type : reads_for_type_t) files nr_parts :
  NoDup property_names.*1 ->
  (forall p, p ∈ property_names.*1 ->
     exists grid cells,
       cell self !! p = Some grid /\ h !! grid = Some cells
       /\ Forall (fun c => 0 <= count c) cells
       /\ sum_Z (map count (select cells (ravel mask))) < 2 ^ 63) ->
  plan_reads self property_names mask h = Ok (reads_for_type, h') ->
  union_of_file_nrs property_names reads_for_type = Ok files ->
  count_particles property_names reads_for_type files = Ok nr_parts ->
  forall p grid cells,
    p ∈ property_names.*1 -> cell self !! p = Some grid -> h !! grid = Some cells ->
    nr_parts !! p = Some (sum_Z (map count (select cells (ravel mask)))).
Proof.
  intros Hnd Hwf Hplan Hunion Hcount.
  assert (Htype : forall p, p ∈ property_names.*1 ->
            exists grid cells reads,
              cell self !! p = Some grid /\ h !! grid = Some cells
              /\ reads_for_type !! p = Some reads
              /\ make_reads (planned_cells max_size cells mask) = Ok reads
              /\ (forall f, ranges_of reads_for_type p f = default [] (reads !! f))
              /\ planned_count reads_for_type p files
                 = sum_Z (map count (select cells (ravel mask)))
              /\ sum_Z (map count (select cells (ravel mask))) < 2 ^ 63).
  { intros p Hp. destruct (Hwf p Hp) as (grid & cells & Hcell & Hcells & Hnn & Htot).
    destruct (orchestrator_type self property_names mask h h' reads_for_type files nr_parts
                p grid cells Hplan Hunion Hcount Hp Hcell Hcells Hnn Htot)
      as (reads & Hreads & Hmake & _ & Hro & Hpc).
    exists grid, cells, reads. auto 10. }
  assert (Hspec : forall p, p ∈ property_names.*1 ->
            nr_parts !! p = Some (planned_count reads_for_type p files)).
  { apply count_particles_spec; [exact Hnd| | |exact Hcount].
    - intros p f Hp _.
      destruct (Htype p Hp) as (grid & cells & reads & _ & _ & _ & Hmake & Hro & _).
      rewrite Hro. apply Forall_forall. intros r Hr.
      destruct (reads !! f) as [rs|] eqn:Ers; [|now apply elem_of_nil in Hr].
      pose proof (make_reads_ranges _ _ (discard_empty_positive _) Hmake f rs r Ers Hr). lia.
    - intros p Hp.
      destruct (Htype p Hp) as (grid & cells & reads & _ & _ & _ & _ & _ & -> & Htot).
      exact Htot. }
  intros p grid cells Hp Hcell Hcells. rewrite (Hspec p Hp).
  destruct (Htype p Hp) as (grid' & cells' & reads & Hcell' & Hcells' & _ & _ & _ & -> & _).
  assert (grid' = grid) as -> by congruence. congruence.
Qed.

(** X14: the plans of a request are independent of each other: when
    [plan_reads] returns, the arrays the store held are unchanged, the
    mapping has an entry for exactly the requested particle types, and the
    entry of a type is the mapping [prepare_read] returns for that type on
    the store as it was before the request. *)
Theorem plan_reads_per_type (self : @SWIFTCellGrid quantity) (property_names : property_names_t)
    (mask : mask_t) (h h' : store) (reads_for_type : reads_for_type_t) :
  plan_reads self property_names mask h = Ok (reads_for_type, h') ->
  (forall a arr, h !! a = Some arr -> h' !! a = Some arr)
  /\ (forall p, is_Some (reads_for_type !! p) <-> p ∈ property_names.*1)
  /\ (forall p grid reads,
        reads_for_type !! p = Some reads ->
        cell self !! p = Some grid -> is_Some (h !! grid) ->
        exists h1, prepare_read self p mask h = Ok (reads, h1)).
Proof.
  intros Hplan.
  destruct (plan_reads_loop self mask property_names ∅ h reads_for_type h' Hplan)
    as (Hframe & Hkeys & Hentry).
  split; [exact Hframe|]. split.
  - intros p. rewrite Hkeys, lookup_empty. split; [|auto].
    intros [[? ?]|?]; [discriminate|assumption].
  - intros p grid reads Hreads Hcell [cells Hcells].
    destruct (Hentry p reads Hreads) as [Hempty|(_ & grid' & cells' & Hc' & Hh' & Htest & Hmake)];
      [now rewrite lookup_empty in Hempty|].
    assert (grid' = grid) as -> by congruence.
    assert (cells' = cells) as ->.
    { apply Hframe in Hcells. congruence. }
    rewrite prepare_read_unfold, Hcell, Hcells, Htest, Hmake. eauto.
Qed.

End PlanReads.

Section Orchestrator.

Context {quantity : Type}.
Context (format_file_nr : string -> Z -> string).

(** One pass of task creation, when it returns: the tasks by file, then by
    particle type, then by dataset, then by range. *)
Lemma create_tasks_spec (filename : string) (metadata : gmap string (gmap string dataset_meta))
    (property_names : property_names_t) (reads_for_type : reads_for_type_t)
    (files : list Z) : forall all_tasks tasks,
  create_tasks format_file_nr filename metadata property_names reads_for_type files all_tasks
  = Ok tasks ->
  tasks = all_tasks
          ++ tasks_of format_file_nr filename metadata property_names reads_for_type files.
Proof.
  unfold create_tasks, tasks_of.
  induction files as [|f files IHf]; intros all_tasks tasks H.
  - injection H as <-. cbn. now rewrite app_nil_r.
  - cbn [fold_result flat_map] in *. apply result_bind_inv in H as (tasks1 & E1 & H).
    rewrite (IHf _ _ H), app_assoc. f_equal. clear H IHf.
    revert all_tasks tasks1 E1.
    induction property_names as [|item rest IHp]; intros all_tasks tasks1 E1.
    + injection E1 as <-. cbn. now rewrite app_nil_r.
    + cbn [fold_result flat_map] in *. apply result_bind_inv in E1 as (tasks2 & E2 & E1).
      rewrite (IHp _ _ E1), app_assoc. f_equal. clear E1 IHp.
      revert all_tasks tasks2 E2.
      induction (item.2) as [|dataset names IHd]; intros all_tasks tasks2 E2.
      * injection E2 as <-. cbn. now rewrite app_nil_r.
      * cbn [fold_result flat_map] in *. apply result_bind_inv in E2 as (tasks3 & E3 & E2).
        rewrite (IHd _ _ E2), app_assoc. f_equal. clear E2 IHd.
        destruct (bool_decide (is_Some (metadata !! dataset))).
        -- apply result_bind_inv in E3 as (reads & Er & E3). apply dict_get_inv in Er.
           apply result_bind_inv in E3 as (ranges & Eg & E3). apply dict_get_inv in Eg.
           injection E3 as <-. unfold ranges_of. rewrite Er. cbn. now rewrite Eg.
        -- injection E3 as <-. now rewrite app_nil_r.
Qed.

Lemma elem_of_tasks_of filename (metadata : gmap string (gmap string dataset_meta))
    (property_names : property_names_t) (reads_for_type : reads_for_type_t) files t :
  t ∈ tasks_of format_file_nr filename metadata property_names reads_for_type files
  <-> exists f names r,
        f ∈ files /\ (task_ptype t, names) ∈ property_names /\ task_dataset t ∈ names
        /\ is_Some (metadata !! task_dataset t)
        /\ r ∈ ranges_of reads_for_type (task_ptype t) f
        /\ t = mk_task (format_file_nr filename f) (task_ptype t) (task_dataset t)
                       r.1.1 r.1.2 r.2.
Proof.
  unfold tasks_of. rewrite list_elem_of_In, in_flat_map. split.
  - intros (f & Hf & Ht). apply in_flat_map in Ht as ([ptype names] & Hitem & Ht).
    apply in_flat_map in Ht as (dataset & Hd & Ht). cbn [fst snd] in *.
    case_bool_decide as Hmeta; [|destruct Ht].
    apply in_map_iff in Ht as (r & <- & Hr). cbn.
    exists f, names, r. rewrite !list_elem_of_In. auto 10.
  - intros (f & names & r & Hf & Hitem & Hd & Hmeta & Hr & Et).
    exists f. split; [now apply list_elem_of_In|].
    apply in_flat_map. exists (task_ptype t, names). split; [now apply list_elem_of_In|].
    apply in_flat_map. exists (task_dataset t). split; [now apply list_elem_of_In|].
    cbn [fst snd]. rewrite bool_decide_eq_true_2 by exact Hmeta.
    apply in_map_iff. exists r. split; [now symmetry|now apply list_elem_of_In].
Qed.

(** The steps of a run of the orchestrator that returned. *)
Lemma orchestrator_inv (self : @SWIFTCellGrid quantity) (property_names : property_names_t)
    (mask : mask_t) comm_size (h h' : store) queues nr_parts :
  read_masked_cells_to_shared_memory format_file_nr self property_names mask comm_size h
  = Ok ((queues, nr_parts), h') ->
  exists reads_for_type files all_tasks,
    plan_reads self property_names mask h = Ok (reads_for_type, h')
    /\ union_of_file_nrs property_names reads_for_type = Ok files
    /\ count_particles property_names reads_for_type files = Ok nr_parts
    /\ all_tasks
       = tasks_of format_file_nr (snap_filename self) (snap_metadata self)
                  property_names reads_for_type files
         ++ match extra_filename self, extra_metadata self with
            | Some extra, Some metadata =>
                tasks_of format_file_nr extra metadata property_names reads_for_type files
            | _, _ => []
            end
    /\ share_tasks all_tasks comm_size = Ok queues.
Proof.
  unfold read_masked_cells_to_shared_memory. intros H.
  apply bind_inv in H as (rft & h1 & Hplan & H). unfold lift_result in H.
  destruct (result_bind _ _) as [[tasks nr]|e] eqn:E; [|discriminate].
  injection H as -> -> ->.
  apply result_bind_inv in E as (files & Hunion & E).
  apply result_bind_inv in E as (nr & Hcount & E).
  apply result_bind_inv in E as (snap_tasks & Hsnap & E).
  apply result_bind_inv in E as (all_tasks & Hextra & E).
  apply result_bind_inv in E as (tasks & Hshare & E).
  injection E as -> ->.
  apply create_tasks_spec in Hsnap. cbn [app] in Hsnap. subst snap_tasks.
  exists rft, files, all_tasks. repeat split; try assumption.
  destruct (extra_filename self) as [extra|].
  - destruct (extra_metadata self) as [metadata|]; [|discriminate].
    now apply create_tasks_spec in Hextra.
  - injection Hextra as <-. now rewrite app_nil_r.
Qed.

(** X15: the counts the shared arrays are sized from are the numbers of
    selected particles: when the orchestrator returns (the request naming
    each particle type once, the counts of the cells not negative and fewer
    than 2^63 particles selected per type), [nr_parts[ptype]] is the sum of
    the counts of the cells of [ptype] that the mask selects. *)
Theorem nr_parts_counts_selected (self : @SWIFTCellGrid quantity)
    (property_names : property_names_t) (mask : mask_t) (comm_size : Z) (h h' : store)
    (queues : list (list ReadTask)) (nr_parts : gmap string Z) :
  NoDup property_names.*1 ->
  (forall p, p ∈ property_names.*1 ->
     exists grid cells,
       cell self !! p = Some grid /\ h !! grid = Some cells
       /\ Forall (fun c => 0 <= count c) cells
       /\ sum_Z (map count (select cells (ravel mask))) < 2 ^ 63) ->
  read_masked_cells_to_shared_memory format_file_nr self property_names mask comm_size h
  = Ok ((queues, nr_parts), h') ->
  forall p grid cells,
    p ∈ property_names.*1 -> cell self !! p = Some grid -> h !! grid = Some cells ->
    nr_parts !! p = Some (sum_Z (map count (select cells (ravel mask)))).
Proof.
  intros Hnd Hwf Hrun.
  destruct (orchestrator_inv _ _ _ _ _ _ _ _ Hrun)
    as (rft & files & all_tasks & Hplan & Hunion & Hcount & _).
  exact (orchestrator_counts self property_names mask h h' rft files nr_parts
           Hnd Hwf Hplan Hunion Hcount).
Qed.

(** X16: every task writes inside the array it is handed: when the
    orchestrator returns (under the conditions of X15), each task of each
    queue copies at least one row, and its memory range
    [[mem_offset, mem_offset + count)] lies within [[0, nr_parts[ptype])],
    the length the shared arrays of its particle type are given. *)
Theorem tasks_within_arrays (self : @SWIFTCellGrid quantity)
    (property_names : property_names_t) (mask : mask_t) (comm_size : Z) (h h' : store)
    (queues : list (list ReadTask)) (nr_parts : gmap string Z) :
  NoDup property_names.*1 ->
  (forall p, p ∈ property_names.*1 ->
     exists grid cells,
       cell self !! p = Some grid /\ h !! grid = Some cells
       /\ Forall (fun c => 0 <= count c) cells
       /\ sum_Z (map count (select cells (ravel mask))) < 2 ^ 63) ->
  read_masked_cells_to_shared_memory format_file_nr self property_names mask comm_size h
  = Ok ((queues, nr_parts), h') ->
  forall queue t, queue ∈ queues -> t ∈ queue ->
    exists n,
      nr_parts !! task_ptype t = Some n
      /\ 0 <= task_mem_offset t /\ 0 < task_count t
      /\ task_mem_offset t + task_count t <= n.
Proof.
  intros Hnd Hwf Hrun queue t Hqueue Ht.
  destruct (orchestrator_inv _ _ _ _ _ _ _ _ Hrun)
    as (rft & files & all_tasks & Hplan & Hunion & Hcount & Hall & Hshare).
  assert (Hin : t ∈ all_tasks).
  { rewrite <- (share_tasks_concat _ _ _ Hshare). apply list_elem_of_In, in_concat.
    exists queue. split; now apply list_elem_of_In. }
  assert (Hrange : exists f names r,
            (task_ptype t, names) ∈ property_names
            /\ r ∈ ranges_of rft (task_ptype t) f
            /\ task_mem_offset t = r.1.2 /\ task_count t = r.2).
  { rewrite Hall in Hin. apply elem_of_app in Hin as [Hin|Hin].
    - apply elem_of_tasks_of in Hin as (f & names & r & _ & Hitem & _ & _ & Hr & Et).
      exists f, names, r. rewrite Et. auto.
    - destruct (extra_filename self) as [extra|]; [|now apply elem_of_nil in Hin].
      destruct (extra_metadata self) as [metadata|]; [|now apply elem_of_nil in Hin].
      apply elem_of_tasks_of in Hin as (f & names & r & _ & Hitem & _ & _ & Hr & Et).
      exists f, names, r. rewrite Et. auto. }
  destruct Hrange as (f & names & r & Hitem & Hr & -> & ->).
  assert (Hp : task_ptype t ∈ property_names.*1).
  { apply list_elem_of_fmap. now exists (task_ptype t, names). }
  destruct (Hwf _ Hp) as (grid & cells & Hcell & Hcells & Hnn & Htot).
  destruct (orchestrator_type self property_names mask h h' rft files nr_parts
              _ grid cells Hplan Hunion Hcount Hp Hcell Hcells Hnn Htot)
    as (reads & Hreads & Hmake & _ & Hro & _).
  exists (sum_Z (map count (select cells (ravel mask)))).
  split.
  { exact (orchestrator_counts self property_names mask h h' rft files nr_parts
             Hnd Hwf Hplan Hunion Hcount _ grid cells Hp Hcell Hcells). }
  rewrite Hro in Hr. destruct (reads !! f) as [rs|] eqn:Ers; [|now apply elem_of_nil in Hr].
  cbn in Hr. destruct (make_reads_spec (planned_cells max_size cells mask))
    as (reads' & E' & Hl). rewrite Hmake in E'. injection E' as <-.
  rewrite Hl in Ers. destruct (decide _); [|discriminate]. injection Ers as <-.
  assert (Hr' : r ∈ map snd (with_offsets 0 (planned_cells max_size cells mask))).
  { unfold reads_of_file in Hr. apply list_elem_of_In, in_map_iff in Hr as (x & <- & Hx).
    apply filter_In in Hx as [Hx _]. apply list_elem_of_In, in_map. exact Hx. }
  pose proof (planned_cells_sum max_size cells mask Hnn Htot) as Hsum.
  pose proof (with_offsets_contiguous (planned_cells max_size cells mask) 0 ltac:(lia)
                (discard_empty_positive _) ltac:(lia)) as Hcont.
  destruct (contiguous_bounds _ _ _ Hcont) as [_ Hb]. specialize (Hb r Hr'). lia.
Qed.

(** X17: the ranks are handed the tasks in the order of lines 315-333: the
    queues, rank after rank, hold the tasks of the snapshot files and then
    those of the extra files, each pass by ascending file number (each file
    once: the files some requested type has reads in), then by particle
    type, then by dataset, then by range; a dataset gets tasks when its name
    is a key of the metadata dict of the pass. *)
Theorem tasks_in_file_order (self : @SWIFTCellGrid quantity)
    (property_names : property_names_t) (mask : mask_t) (comm_size : Z) (h h' : store)
    (queues : list (list ReadTask)) (nr_parts : gmap string Z) :
  read_masked_cells_to_shared_memory format_file_nr self property_names mask comm_size h
  = Ok ((queues, nr_parts), h') ->
  exists reads_for_type files,
    plan_reads self property_names mask h = Ok (reads_for_type, h')
    /\ StronglySorted Z.lt files
    /\ (forall f, f ∈ files <->
          exists p reads, p ∈ property_names.*1 /\ reads_for_type !! p = Some reads
                          /\ is_Some (reads !! f))
    /\ concat queues
       = tasks_of format_file_nr (snap_filename self) (snap_metadata self)
                  property_names reads_for_type files
         ++ match extra_filename self, extra_metadata self with
            | Some extra, Some metadata =>
                tasks_of format_file_nr extra metadata property_names reads_for_type files
            | _, _ => []
            end.
Proof.
  intros Hrun.
  destruct (orchestrator_inv _ _ _ _ _ _ _ _ Hrun)
    as (rft & files & all_tasks & Hplan & Hunion & _ & Hall & Hshare).
  destruct (union_of_file_nrs_spec _ _ _ Hunion) as [Hsorted Hfiles].
  exists rft, files. split; [exact Hplan|]. split; [exact Hsorted|]. split; [exact Hfiles|].
  rewrite (share_tasks_concat _ _ _ Hshare). exact Hall.
Qed.

End Orchestrator.

(** Gas and stars are planned in one request; the plan of the stars is the
    plan [prepare_read] makes for the stars alone. *)
Lemma plan_reads_per_type_witness :
  exists reads_for_type h' reads h1,
    plan_reads gas_and_stars_grid [("PartType0", ["Masses"]); ("PartType4", ["Masses"])]
      [[[true]]] gas_and_stars_store = Ok (reads_for_type, h')
    /\ reads_for_type !! "PartType4" = Some reads
    /\ prepare_read gas_and_stars_grid "PartType4" [[[true]]] gas_and_stars_store
       = Ok (reads, h1)
    /\ h' !! 0%nat = Some [mk_cell (0, 0, 0) 5 0 0 0].
Proof.
  destruct (plan_reads gas_and_stars_grid
              [("PartType0", ["Masses"]); ("PartType4", ["Masses"])] [[[true]]]
              gas_and_stars_store) as [[reads_for_type h']|e] eqn:E;
    [|vm_compute in E; discriminate].
  destruct (plan_reads_per_type gas_and_stars_grid _ _ _ _ _ E) as (Hframe & Hkeys & Hentry).
  destruct (proj2 (Hkeys "PartType4")) as [reads Hreads].
  { apply list_elem_of_further, list_elem_of_here. }
  destruct (Hentry "PartType4" 1%nat reads Hreads eq_refl ltac:(eexists; reflexivity))
    as [h1 Hprep].
  exists reads_for_type, h', reads, h1. split; [reflexivity|]. split; [exact Hreads|].
  split; [exact Hprep|]. apply Hframe. reflexivity.
Defined.

(** Five gas particles and three stars, all in file 0, on two ranks: the
    counts are 5 and 3. *)
Lemma nr_parts_counts_selected_witness :
  exists queues nr_parts h',
    read_masked_cells_to_shared_memory numbered gas_and_stars_grid
      [("PartType0", ["Masses"]); ("PartType4", ["Masses"])] [[[true]]] 2
      [[mk_cell (0, 0, 0) 5 0 0 0]; [mk_cell (0, 0, 0) 3 0 0 0]]
    = Ok ((queues, nr_parts), h')
    /\ nr_parts !! "PartType0" = Some 5 /\ nr_parts !! "PartType4" = Some 3.
Proof.
  destruct (read_masked_cells_to_shared_memory numbered gas_and_stars_grid
              [("PartType0", ["Masses"]); ("PartType4", ["Masses"])] [[[true]]] 2
              [[mk_cell (0, 0, 0) 5 0 0 0]; [mk_cell (0, 0, 0) 3 0 0 0]])
    as [[[queues nr_parts] h']|e] eqn:E; [|vm_compute in E; discriminate].
  exists queues, nr_parts, h'. split; [reflexivity|].
  assert (Hnd : NoDup ([("PartType0", ["Masses"]); ("PartType4", ["Masses"])].*1)).
  { cbn. repeat (constructor; [rewrite ?elem_of_cons, ?elem_of_nil; intuition discriminate|]).
    constructor. }
  assert (Hwf : forall p, p ∈ [("PartType0", ["Masses"]); ("PartType4", ["Masses"])].*1 ->
            exists grid cells,
              cell gas_and_stars_grid !! p = Some grid
              /\ [[mk_cell (0, 0, 0) 5 0 0 0]; [mk_cell (0, 0, 0) 3 0 0 0]] !! grid = Some cells
              /\ Forall (fun c => 0 <= count c) cells
              /\ sum_Z (map count (select cells (ravel [[[true]]]))) < 2 ^ 63).
  { intros p Hp. cbn in Hp. apply elem_of_cons in Hp as [->|Hp].
    - exists 0%nat, [mk_cell (0, 0, 0) 5 0 0 0]. repeat split.
      repeat constructor; cbn; lia.
    - apply list_elem_of_singleton in Hp as ->.
      exists 1%nat, [mk_cell (0, 0, 0) 3 0 0 0]. repeat split.
      repeat constructor; cbn; lia. }
  pose proof (nr_parts_counts_selected numbered gas_and_stars_grid _ _ _ _ _ _ _
                Hnd Hwf E) as Hcount.
  split.
  - apply (Hcount "PartType0" 0%nat [mk_cell (0, 0, 0) 5 0 0 0]);
      [apply list_elem_of_here|reflexivity|reflexivity].
  - apply (Hcount "PartType4" 1%nat [mk_cell (0, 0, 0) 3 0 0 0]);
      [apply list_elem_of_further, list_elem_of_here|reflexivity|reflexivity].
Defined.

(** One cell of five gas particles, one dataset that passes the test of
    line 321, one rank: the task writes rows 0 to 4 of an array of 5 rows. *)
Lemma tasks_within_arrays_witness :
  exists queues nr_parts h' queue t,
    read_masked_cells_to_shared_memory numbered masses_grid
      [("PartType0", ["PartType0"])] [[[true]]] 1 masses_store
    = Ok ((queues, nr_parts), h')
    /\ queues !! 0%nat = Some queue /\ queue !! 0%nat = Some t
    /\ nr_parts !! "PartType0" = Some 5
    /\ 0 <= task_mem_offset t /\ task_mem_offset t + task_count t <= 5.
Proof.
  destruct (read_masked_cells_to_shared_memory numbered masses_grid
              [("PartType0", ["PartType0"])] [[[true]]] 1 masses_store)
    as [[[queues nr_parts] h']|e] eqn:E; [|vm_compute in E; discriminate].
  assert (Hnd : NoDup ([("PartType0", ["PartType0"])].*1)).
  { cbn. repeat (constructor; [rewrite ?elem_of_cons, ?elem_of_nil; intuition discriminate|]).
    constructor. }
  assert (Hwf : forall p, p ∈ [("PartType0", ["PartType0"])].*1 ->
            exists grid cells,
              cell masses_grid !! p = Some grid
              /\ masses_store !! grid = Some cells
              /\ Forall (fun c => 0 <= count c) cells
              /\ sum_Z (map count (select cells (ravel [[[true]]]))) < 2 ^ 63).
  { intros p Hp. cbn in Hp. apply list_elem_of_singleton in Hp as ->.
    exists 0%nat, [mk_cell (0, 0, 0) 5 0 0 0]. repeat split.
    repeat constructor; cbn; lia. }
  pose proof (tasks_within_arrays numbered masses_grid _ _ _ _ _ _ _ Hnd Hwf E) as Hb.
  assert (Hq : queues = [[mk_task "snap.0" "PartType0" "PartType0" 0 0 5]]).
  { vm_compute in E. now injection E as <- _ _. }
  set (t := mk_task "snap.0" "PartType0" "PartType0" 0 0 5) in *.
  destruct (Hb [t] t) as (n & Hn & Hlo & _ & Hhi);
    [rewrite Hq; apply list_elem_of_here|apply list_elem_of_here|].
  assert (Hfive : nr_parts !! "PartType0" = Some 5).
  { vm_compute in E. injection E as _ <- _. reflexivity. }
  exists queues, nr_parts, h', [t], t. split; [reflexivity|]. rewrite Hq.
  split; [reflexivity|]. split; [reflexivity|]. split; [exact Hfive|].
  change (task_ptype t) with "PartType0" in Hn. rewrite Hfive in Hn. injection Hn as <-.
  split; [exact Hlo|exact Hhi].
Defined.

(** Two files, two particle types, three datasets asked for the gas and one
    for the dark matter, two passes and three ranks: fifteen tasks, five
    for each rank, in the order of the two passes; the masses get no task,
    [Masses] being no key of the metadata dicts. *)
Lemma tasks_in_file_order_witness :
  exists queues nr_parts h',
    read_masked_cells_to_shared_memory numbered busy_grid busy_request
      [[[true; true; true; true]]] 3 busy_store
    = Ok ((queues, nr_parts), h')
    /\ concat queues
       = tasks_of numbered "snap" (snap_metadata busy_grid) busy_request busy_reads [0; 1]
         ++ tasks_of numbered "extra"
              {[ "PartType1" := {[ "Potentials" := mk_meta [] "float32" "km2/s2" ]} ]}
              busy_request busy_reads [0; 1]
    /\ map (map brief) queues
       = [[("snap.0", "PartType0", "PartType1", 0); ("snap.0", "PartType0", "PartType1", 5);
           ("snap.0", "PartType0", "PartType0", 0); ("snap.0", "PartType0", "PartType0", 5);
           ("snap.0", "PartType1", "PartType1", 0)];
          [("snap.1", "PartType0", "PartType1", 0); ("snap.1", "PartType0", "PartType0", 0);
           ("snap.1", "PartType1", "PartType1", 2); ("snap.1", "PartType1", "PartType1", 7);
           ("extra.0", "PartType0", "PartType1", 0)];
          [("extra.0", "PartType0", "PartType1", 5); ("extra.0", "PartType1", "PartType1", 0);
           ("extra.1", "PartType0", "PartType1", 0);
           ("extra.1", "PartType1", "PartType1", 2); ("extra.1", "PartType1", "PartType1", 7)]].
Proof.
  pose proof (eq_refl :
    match read_masked_cells_to_shared_memory numbered busy_grid busy_request
            [[[true; true; true; true]]] 3 busy_store with
    | Ok (plan, _) => Some (map (map brief) plan.1)
    | Raise _ => None
    end
    = Some [[("snap.0", "PartType0", "PartType1", 0); ("snap.0", "PartType0", "PartType1", 5);
             ("snap.0", "PartType0", "PartType0", 0); ("snap.0", "PartType0", "PartType0", 5);
             ("snap.0", "PartType1", "PartType1", 0)];
            [("snap.1", "PartType0", "PartType1", 0); ("snap.1", "PartType0", "PartType0", 0);
             ("snap.1", "PartType1", "PartType1", 2); ("snap.1", "PartType1", "PartType1", 7);
             ("extra.0", "PartType0", "PartType1", 0)];
            [("extra.0", "PartType0", "PartType1", 5); ("extra.0", "PartType1", "PartType1", 0);
             ("extra.1", "PartType0", "PartType1", 0);
             ("extra.1", "PartType1", "PartType1", 2);
             ("extra.1", "PartType1", "PartType1", 7)]]) as Hqueues.
  pose proof (eq_refl :
    match plan_reads busy_grid busy_request [[[true; true; true; true]]] busy_store with
    | Ok (reads_for_type, _) => Some reads_for_type
    | Raise _ => None
    end = Some busy_reads) as Hreads.
  destruct (read_masked_cells_to_shared_memory numbered busy_grid busy_request
              [[[true; true; true; true]]] 3 busy_store)
    as [[[queues nr_parts] h']|e]  eqn:E; [|discriminate].
  destruct (tasks_in_file_order numbered busy_grid _ _ _ _ _ _ _ E)
    as (rft & files & Hplan & Hsorted & Hfiles & Hconcat).
  rewrite Hplan in Hreads. injection Hreads as ->.
  assert (files = [0; 1]) as ->.
  { apply strictly_sorted_ext; [exact Hsorted|repeat constructor; lia|].
    intros f. rewrite Hfiles. split.
    - intros (p & reads & Hp & Hreads & [rs Hrs]).
      destruct (decide (f = 0)) as [->|H0]; [apply list_elem_of_here|].
      destruct (decide (f = 1)) as [->|H1]; [apply list_elem_of_further, list_elem_of_here|].
      exfalso. cbn in Hp. unfold busy_reads in Hreads.
      apply elem_of_cons in Hp as [->|Hp]; [|apply list_elem_of_singleton in Hp as ->].
      + rewrite lookup_insert_eq in Hreads. injection Hreads as <-.
        rewrite lookup_insert_ne, lookup_singleton_ne in Hrs by congruence. discriminate.
      + rewrite lookup_insert_ne, lookup_singleton_eq in Hreads by discriminate.
        injection Hreads as <-.
        rewrite lookup_insert_ne, lookup_singleton_ne in Hrs by congruence. discriminate.
    - intros Hf. exists "PartType0", {[ 0 := [(0, 0, 2); (5, 2, 1)]; 1 := [(0, 3, 4)] ]}.
      split; [apply list_elem_of_here|]. split; [reflexivity|].
      apply elem_of_cons in Hf as [->|Hf]; [|apply list_elem_of_singleton in Hf as ->].
      + now rewrite lookup_insert_eq.
      + rewrite lookup_insert_ne, lookup_singleton_eq by lia. eauto. }
  exists queues, nr_parts, h'. split; [reflexivity|]. split; [exact Hconcat|].
  cbn [fst] in Hqueues. now injection Hqueues.
Defined.

(** ** The scan for the datasets of a snapshot *)

Section ScanProofs.

Context (format_file_nr : string -> Z -> string).
Context (units_from_attributes : h5_dset -> string).
Context (newbyteorder : string -> string).

Lemma enter_loop ptype (items : list (string * h5_dset)) :
  forall (metadata : gmap string (gmap string dataset_meta)) found,
    metadata !! ptype = Some found ->
    fold_result (fun metadata (item : string * h5_dset) =>
      let '(name, dset) := item in
      if bool_decide (is_Some (dset_attrs dset !! "a-scale exponent")) then
        let units := units_from_attributes dset in
        let dtype := newbyteorder (dset_dtype dset) in
        let+ found := dict_get metadata ptype in
        Ok (<[ptype := <[name := mk_meta (tail (dset_shape dset)) dtype units]> found]> metadata)
      else Ok metadata) items metadata
    = Ok (<[ptype := fold_left (enter_step units_from_attributes newbyteorder) items found]>
            metadata).
Proof.
  induction items as [|[name dset] rest IH]; intros metadata found Hfound.
  - cbn. now rewrite insert_id.
  - cbn [fold_result fold_left]. unfold enter_step at 2, meta_of. cbn [fst snd].
    case_bool_decide.
    + cbn zeta. unfold dict_get. rewrite Hfound. cbn [result_bind].
      rewrite (IH _ _ (lookup_insert_eq _ _ _)). now rewrite insert_insert_eq.
    + cbn [result_bind]. now apply IH.
Qed.

Lemma enter_step_lookup (items : list (string * h5_dset)) :
  forall found name,
    NoDup items.*1 ->
    fold_left (enter_step units_from_attributes newbyteorder) items found !! name
    = match (list_to_map items : gmap string h5_dset) !! name
            ≫= meta_of units_from_attributes newbyteorder with
      | Some meta => Some meta
      | None => found !! name
      end.
Proof.
  induction items as [|[name0 dset] rest IH]; intros found name Hnd; [reflexivity|].
  rewrite fmap_cons in Hnd. apply NoDup_cons in Hnd as [Hnotin Hnd].
  cbn [fold_left]. rewrite (IH _ name Hnd), list_to_map_cons. unfold enter_step at 1.
  cbn [fst snd]. destruct (decide (name = name0)) as [->|Hne].
  - rewrite lookup_insert_eq. cbn.
    rewrite (not_elem_of_list_to_map_1 _ _ Hnotin). cbn.
    destruct (meta_of _ _ dset); [now rewrite lookup_insert_eq|reflexivity].
  - rewrite lookup_insert_ne by congruence.
    destruct (_ ≫= _); [reflexivity|].
    destruct (meta_of _ _ dset); [now rewrite lookup_insert_ne by congruence|reflexivity].
Qed.

(** The datasets entered for a group, into an entry that was empty. *)
Lemma enter_datasets_spec ptype group (metadata : gmap string (gmap string dataset_meta)) :
  metadata !! ptype = Some ∅ ->
  enter_datasets units_from_attributes newbyteorder ptype (group_members group) metadata
  = Ok (<[ptype := schema_of units_from_attributes newbyteorder group]> metadata).
Proof.
  intros Hempty. unfold enter_datasets. rewrite (enter_loop _ _ _ _ Hempty). do 2 f_equal.
  apply map_eq. intros name.
  rewrite enter_step_lookup by apply NoDup_fst_map_to_list.
  rewrite list_to_map_to_list. unfold schema_of. rewrite lookup_omap, lookup_empty.
  now destruct (_ ≫= _).
Qed.

(** One particle type in one file, when the step returns. *)
Lemma scan_type_ok groups (md md' : gmap string (gmap string dataset_meta))
    (tf tf' : gmap string bool) nl nl' p :
  (tf !! p = Some true -> md !! p = Some ∅) ->
  scan_type units_from_attributes newbyteorder groups (md, tf, nl) p = Ok (md', tf', nl') ->
  (tf !! p = Some false /\ md' = md /\ tf' = tf /\ nl' = nl)
  \/ (tf !! p = Some true
      /\ exists group, populated groups p = Some group
           /\ md' = <[p := schema_of units_from_attributes newbyteorder group]> md
           /\ tf' = <[p := false]> tf /\ nl' = nl)
  \/ (tf !! p = Some true /\ populated groups p = None
      /\ md' = md /\ tf' = tf /\ nl' = nl + 1).
Proof.
  intros Hinv. unfold scan_type, populated.
  intros H. apply result_bind_inv in H as (wanted & Ew & H). apply dict_get_inv in Ew.
  destruct wanted.
  - right. cbn zeta in H. destruct (groups !! p) as [group|]; cbn.
    + apply result_bind_inv in H as (number & En & H). apply dict_get_inv in En.
      apply result_bind_inv in H as (first & Ef & H). rewrite En.
      destruct number as [|n rest]; [discriminate|]. injection Ef as ->.
      destruct (0 <? first).
      * apply result_bind_inv in H as (md1 & Emd & H).
        rewrite (enter_datasets_spec p group md (Hinv Ew)) in Emd.
        injection Emd as <-. injection H as <- <- <-. left. eauto 10.
      * injection H as <- <- <-. right. auto.
    + injection H as <- <- <-. right. auto.
  - injection H as <- <- <-. left. auto.
Qed.


(** One file over the particle types (lines 106-119), when the loop returns:
    the types still to find that the file has particles of are found, the
    others are left as they were, and [nr_left] counts the types still to
    find. *)
Lemma scan_types_ok groups (ps : list string) :
  forall (md md' : gmap string (gmap string dataset_meta)) (tf tf' : gmap string bool) nl nl',
    (forall p, tf !! p = Some true -> md !! p = Some ∅) ->
    fold_result (scan_type units_from_attributes newbyteorder groups) ps (md, tf, nl)
    = Ok (md', tf', nl') ->
    (forall p, tf' !! p = Some true -> md' !! p = Some ∅)
    /\ (forall p, is_Some (md' !! p) <-> is_Some (md !! p))
    /\ (forall p, is_Some (tf' !! p) <-> is_Some (tf !! p))
    /\ (forall p, p ∈ ps -> is_Some (tf !! p))
    /\ (forall p, tf !! p ≠ Some true \/ p ∉ ps ->
          tf' !! p = tf !! p /\ md' !! p = md !! p)
    /\ (forall p, p ∈ ps -> tf !! p = Some true ->
          match populated groups p with
          | Some group =>
              tf' !! p = Some false
              /\ md' !! p = Some (schema_of units_from_attributes newbyteorder group)
          | None => tf' !! p = Some true /\ md' !! p = md !! p
          end)
    /\ nl <= nl' /\ (nl' = nl <-> forall p, p ∈ ps -> tf' !! p = Some false).
Proof.
  induction ps as [|p0 rest IH]; intros md md' tf tf' nl nl' Hinv H.
  - injection H as <- <- <-. split; [exact Hinv|]. split; [tauto|]. split; [tauto|].
    split; [intros p Hp; now apply elem_of_nil in Hp|]. split; [auto|].
    split; [intros p Hp; now apply elem_of_nil in Hp|]. split; [lia|].
    split; [intros _ p Hp; now apply elem_of_nil in Hp|reflexivity].
  - cbn [fold_result] in H. apply result_bind_inv in H as ([[md1 tf1] nl1] & Estep & H).
    destruct (scan_type_ok _ _ _ _ _ _ _ _ (Hinv p0) Estep)
      as [(Hp0 & -> & -> & ->)|[(Hp0 & group & Hpop & -> & -> & ->)|(Hp0 & Hpop & -> & -> & ->)]].
    + (* not wanted *)
      destruct (IH _ _ _ _ _ _ Hinv H) as (Hf & He1 & He2 & He3 & Hab & Hc & Hle & Hd).
      split; [exact Hf|]. split; [exact He1|]. split; [exact He2|]. split; [|split; [|split]].
      * intros p Hp. apply elem_of_cons in Hp as [->|Hp]; [now rewrite Hp0|now apply He3].
      * intros p [Hp|Hp]; apply Hab; [now left|right].
        intros Hin. apply Hp. now apply list_elem_of_further.
      * intros p Hp Htrue. apply Hc; [|exact Htrue].
        apply elem_of_cons in Hp as [->|Hp]; [congruence|exact Hp].
      * split; [exact Hle|]. rewrite Hd. split.
        -- intros Hall p Hp. apply elem_of_cons in Hp as [->|Hp]; [|now apply Hall].
           destruct (Hab p0) as [-> _]; [left; congruence|exact Hp0].
        -- intros Hall p Hp. apply Hall. now apply list_elem_of_further.
    + (* found in this file *)
      assert (Hinv1 : forall p, <[p0 := false]> tf !! p = Some true ->
                <[p0 := schema_of units_from_attributes newbyteorder group]> md !! p = Some ∅).
      { intros p. destruct (decide (p = p0)) as [->|Hne].
        - rewrite lookup_insert_eq. discriminate.
        - rewrite !lookup_insert_ne by congruence. apply Hinv. }
      destruct (IH _ _ _ _ _ _ Hinv1 H) as (Hf & He1 & He2 & He3 & Hab & Hc & Hle & Hd).
      assert (Hhere : tf' !! p0 = Some false
                      /\ md' !! p0 = Some (schema_of units_from_attributes newbyteorder group)).
      { destruct (Hab p0) as [-> ->]; [left; rewrite lookup_insert_eq; discriminate|].
        now rewrite !lookup_insert_eq. }
      split; [exact Hf|]. split; [|split; [|split; [|split; [|split]]]].
      * intros p. rewrite He1, lookup_insert_is_Some.
        destruct (decide (p0 = p)) as [<-|Hne]; [|tauto].
        rewrite (Hinv _ Hp0). split; [eauto|tauto].
      * intros p. rewrite He2, lookup_insert_is_Some.
        destruct (decide (p0 = p)) as [<-|Hne]; [|tauto].
        rewrite Hp0. split; [eauto|tauto].
      * intros p Hp. apply elem_of_cons in Hp as [->|Hp]; [now rewrite Hp0|].
        specialize (He3 p Hp). apply lookup_insert_is_Some in He3 as [<-|[_ ?]]; [|done].
        now rewrite Hp0.
      * intros p Hp.
        assert (Hne : p ≠ p0).
        { intros ->. destruct Hp as [Hp|Hp]; [congruence|]. apply Hp, list_elem_of_here. }
        destruct (Hab p) as [-> ->].
        -- rewrite lookup_insert_ne by congruence. destruct Hp as [Hp|Hp]; [now left|right].
           intros Hin. apply Hp. now apply list_elem_of_further.
        -- now rewrite !lookup_insert_ne by congruence.
      * intros p Hp Htrue. destruct (decide (p = p0)) as [->|Hne].
        -- now rewrite Hpop.
        -- apply elem_of_cons in Hp as [->|Hp]; [done|].
           specialize (Hc p Hp). rewrite !lookup_insert_ne in Hc by congruence.
           now apply Hc.
      * split; [exact Hle|]. rewrite Hd. split.
        -- intros Hall p Hp. apply elem_of_cons in Hp as [->|Hp]; [apply Hhere|now apply Hall].
        -- intros Hall p Hp. apply Hall. now apply list_elem_of_further.
    + (* still to find *)
      destruct (IH _ _ _ _ _ _ Hinv H) as (Hf & He1 & He2 & He3 & Hab & Hc & Hle & Hd).
      assert (Hhere : tf' !! p0 = Some true /\ md' !! p0 = md !! p0).
      { destruct (decide (p0 ∈ rest)) as [Hin|Hout].
        - specialize (Hc p0 Hin Hp0). now rewrite Hpop in Hc.
        - destruct (Hab p0) as [-> ->]; [now right|]. now split. }
      split; [exact Hf|]. split; [exact He1|]. split; [exact He2|]. split; [|split; [|split]].
      * intros p Hp. apply elem_of_cons in Hp as [->|Hp]; [now rewrite Hp0|now apply He3].
      * intros p [Hp|Hp]; apply Hab; [now left|right].
        intros Hin. apply Hp. now apply list_elem_of_further.
      * intros p Hp Htrue. destruct (decide (p = p0)) as [->|Hne].
        -- now rewrite Hpop.
        -- apply elem_of_cons in Hp as [->|Hp]; [done|]. now apply Hc.
      * split; [lia|]. split; [lia|].
        intros Hall. specialize (Hall p0 (list_elem_of_here _ _)).
        destruct Hhere as [Htrue _]. congruence.
Qed.

(** One turn of the loop over the files (lines 104-123): the file is opened
    and closed again, and the loop goes on when a type is left to find. *)
Lemma scan_files_step filename ptypes k rest
    (md md' : gmap string (gmap string dataset_meta)) (tf tf' : gmap string bool) w w' :
  scan_files format_file_nr units_from_attributes newbyteorder filename ptypes (k :: rest)
    (md, tf) w = Ok ((md', tf'), w') ->
  exists groups md1 tf1 nl1,
    sw_files w !! format_file_nr filename k = Some groups
    /\ fold_result (scan_type units_from_attributes newbyteorder groups) ptypes (md, tf, 0)
       = Ok (md1, tf1, nl1)
    /\ let w2 := mk_scan (sw_files w) (delete (sw_next w) (sw_open w)) (S (sw_next w))
                   (sw_log w ++ [EvOpen (sw_next w) (format_file_nr filename k);
                                 EvClose (sw_next w)]) in
       if nl1 =? 0 then md' = md1 /\ tf' = tf1 /\ w' = w2
       else scan_files format_file_nr units_from_attributes newbyteorder filename ptypes rest
              (md1, tf1) w2 = Ok ((md', tf'), w').
Proof.
  intros H. cbn [scan_files] in H.
  apply bind_inv in H as (fid & w1 & Hopen & H). unfold scan_open in Hopen.
  destruct (sw_files w !! format_file_nr filename k) as [groups|] eqn:Efile; [|discriminate].
  injection Hopen as <- <-.
  apply bind_inv in H as (groups' & w1' & Hgroups & H). unfold scan_groups in Hgroups.
  cbn [sw_open sw_files] in Hgroups. rewrite lookup_insert_eq in Hgroups. cbn in Hgroups.
  rewrite Efile in Hgroups. injection Hgroups as <- <-.
  apply bind_inv in H as ([[md1 tf1] nl1] & w1' & Hscan & H). unfold lift_result in Hscan.
  cbn [fst snd] in Hscan.
  destruct (fold_result _ ptypes _) as [st|e] eqn:Etypes; [|discriminate].
  injection Hscan as -> <-.
  apply bind_inv in H as ([] & w2 & Hclose & H). unfold scan_close in Hclose.
  injection Hclose as <-. cbn [sw_files sw_open sw_next sw_log fst snd] in H.
  rewrite delete_insert_eq, <- app_assoc in H.
  cbn [app] in H. exists groups, md1, tf1, nl1. split; [reflexivity|]. split; [exact Etypes|].
  cbn zeta. destruct (nl1 =? 0); [|exact H]. unfold ret in H. now injection H as <- <- <-.
Qed.

(** The loop over the files, when it returns. *)
Lemma scan_files_ok filename ptypes (fs : list Z) :
  forall (md md' : gmap string (gmap string dataset_meta)) (tf tf' : gmap string bool) w w',
    (forall p, tf !! p = Some true -> md !! p = Some ∅) ->
    scan_files format_file_nr units_from_attributes newbyteorder filename ptypes fs (md, tf) w
    = Ok ((md', tf'), w') ->
    (sw_files w' = sw_files w /\ (handles_fresh w -> sw_open w' = sw_open w)
     /\ exists n : nat,
          (n <= length fs)%nat /\ sw_next w' = (sw_next w + n)%nat
          /\ sw_log w' = sw_log w ++ scan_events format_file_nr filename (sw_next w) (take n fs)
          /\ (fs ≠ [] -> (0 < n)%nat)
          /\ ((n < length fs)%nat -> forall p, p ∈ ptypes -> tf' !! p = Some false)
          /\ (forall m : nat, (0 < m < n)%nat ->
                exists p, p ∈ ptypes /\ tf !! p = Some true
                  /\ forall (j : nat) k, (j < m)%nat -> fs !! j = Some k ->
                       file_group w (format_file_nr filename k) p = None))
    /\ (forall p, tf' !! p = Some true -> md' !! p = Some ∅)
    /\ (forall p, is_Some (md' !! p) <-> is_Some (md !! p))
    /\ (forall p, is_Some (tf' !! p) <-> is_Some (tf !! p))
    /\ (forall p, tf !! p ≠ Some true \/ p ∉ ptypes ->
          tf' !! p = tf !! p /\ md' !! p = md !! p)
    /\ (forall p, p ∈ ptypes -> tf !! p = Some true ->
          (exists (i : nat) k group,
              fs !! i = Some k
              /\ file_group w (format_file_nr filename k) p = Some group
              /\ (forall (j : nat) k', (j < i)%nat -> fs !! j = Some k' ->
                    file_group w (format_file_nr filename k') p = None)
              /\ tf' !! p = Some false
              /\ md' !! p = Some (schema_of units_from_attributes newbyteorder group))
          \/ ((forall k, k ∈ fs -> file_group w (format_file_nr filename k) p = None)
              /\ tf' !! p = Some true /\ md' !! p = md !! p)).
Proof.
  induction fs as [|k rest IH]; intros md md' tf tf' w w' Hinv H.
  - injection H as <- <- <-. split.
    + split; [reflexivity|]. split; [reflexivity|]. exists 0%nat. cbn.
      split; [lia|]. split; [lia|]. split; [now rewrite app_nil_r|]. split; [done|].
      split; [lia|]. intros m Hm. lia.
    + split; [exact Hinv|]. split; [tauto|]. split; [tauto|]. split; [auto|].
      intros p Hp Htrue. right. split; [|auto]. intros k Hk. now apply elem_of_nil in Hk.
  - destruct (scan_files_step _ _ _ _ _ _ _ _ _ _ H)
      as (groups & md1 & tf1 & nl1 & Efile & Etypes & Hnext).
    destruct (scan_types_ok _ _ _ _ _ _ _ _ Hinv Etypes)
      as (Hf1 & He1 & He2 & He3 & Hab1 & Hc1 & Hle1 & Hd1).
    assert (Hgroup : forall p, file_group w (format_file_nr filename k) p = populated groups p).
    { intros p. unfold file_group. now rewrite Efile. }
    cbn zeta in Hnext. destruct (Z.eqb_spec nl1 0) as [Hzero|Hnonzero].
    + (* nothing left to find: the loop is left *)
      destruct Hnext as (-> & -> & ->). cbn [sw_files sw_open sw_next sw_log].
      pose proof (proj1 Hd1 Hzero) as Hall. split.
      * split; [reflexivity|].
        split; [intros Hfresh; apply delete_id, Hfresh; lia|]. exists 1%nat. cbn [length take].
        split; [lia|]. split; [lia|]. split; [now rewrite take_0|]. split; [lia|].
        split; [intros _; exact Hall|]. intros m Hm. lia.
      * split; [exact Hf1|]. split; [exact He1|]. split; [exact He2|]. split; [exact Hab1|].
        intros p Hp Htrue. left. specialize (Hc1 p Hp Htrue).
        destruct (populated groups p) as [group|] eqn:Epop.
        -- exists 0%nat, k, group. split; [reflexivity|]. rewrite Hgroup.
           split; [exact Epop|]. split; [intros j k' Hj; lia|exact Hc1].
        -- destruct Hc1 as [Htf _]. rewrite (Hall p Hp) in Htf. discriminate.
    + (* a type is left to find: the loop goes on *)
      set (w2 := mk_scan (sw_files w) (delete (sw_next w) (sw_open w)) (S (sw_next w))
                   (sw_log w ++ [EvOpen (sw_next w) (format_file_nr filename k);
                                 EvClose (sw_next w)])) in *.
      assert (Hfresh2 : handles_fresh w -> handles_fresh w2 /\ sw_open w2 = sw_open w).
      { intros Hfresh. assert (Hdel : delete (sw_next w) (sw_open w) = sw_open w).
        { apply delete_id, Hfresh. lia. }
        split; [|exact Hdel]. intros fid Hfid. cbn [w2 sw_open sw_next] in *.
        rewrite Hdel. apply Hfresh. lia. }
      destruct (IH _ _ _ _ _ _ Hf1 Hnext)
        as ((Hfiles & Hopen & n & Hn & Hnextfid & Hlog & Hpos & Hstop & Hmin)
            & Hf & He1' & He2' & Hab & Hc).
      assert (Hgroup2 : forall name p, file_group w2 name p = file_group w name p) by done.
      assert (Hleft : exists p, p ∈ ptypes /\ tf !! p = Some true /\ populated groups p = None).
      { assert (Hex : Exists (fun p => ~ tf1 !! p = Some false) ptypes).
        { apply (not_Forall_Exists (fun p => tf1 !! p = Some false)).
          intros Hall. apply Hnonzero, Hd1. now apply Forall_forall. }
        apply Exists_exists in Hex as (p & Hp & Hnot). exists p. split; [exact Hp|].
        destruct (He3 p Hp) as [[|] Htf].
        - split; [exact Htf|]. specialize (Hc1 p Hp Htf).
          destruct (populated groups p); [now destruct Hc1|reflexivity].
        - destruct (Hab1 p) as [Htf1 _]; [left; congruence|]. congruence. }
      split.
      * split; [exact Hfiles|].
        split; [intros Hfresh; destruct (Hfresh2 Hfresh) as [Hf2 <-]; now apply Hopen|].
        exists (S n). cbn [length take scan_events].
        split; [lia|]. split; [rewrite Hnextfid; cbn; lia|].
        split; [rewrite Hlog; cbn [sw_log sw_next w2]; now rewrite <- app_assoc|].
        split; [lia|]. split; [intros Hlt; apply Hstop; lia|].
        intros m Hm. destruct (decide (m = 1%nat)) as [->|Hm1].
        -- destruct Hleft as (p & Hp & Htrue & Hnone). exists p. split; [exact Hp|].
           split; [exact Htrue|]. intros j k' Hj Hk'. destruct j as [|j]; [|lia].
           injection Hk' as <-. now rewrite Hgroup.
        -- destruct (Hmin (m - 1)%nat ltac:(lia)) as (p & Hp & Htrue1 & Hnone).
           assert (Htrue : tf !! p = Some true).
           { destruct (He3 p Hp) as [[|] Htf]; [exact Htf|].
             destruct (Hab1 p) as [Htf1 _]; [left; congruence|]. congruence. }
           exists p. split; [exact Hp|]. split; [exact Htrue|].
           intros j k' Hj Hk'. destruct j as [|j].
           ++ injection Hk' as <-. rewrite Hgroup. specialize (Hc1 p Hp Htrue).
              destruct (populated groups p); [|reflexivity].
              destruct Hc1 as [Hfalse _]. congruence.
           ++ rewrite <- Hgroup2. apply (Hnone j); [lia|exact Hk'].
      * split; [exact Hf|]. split; [intros p; now rewrite He1', He1|].
        split; [intros p; now rewrite He2', He2|]. split.
        -- intros p Hp. destruct (Hab1 p Hp) as [Htf1 Hmd1].
           destruct (Hab p) as [-> ->]; [|now split].
           destruct Hp as [Hp|Hp]; [left; congruence|now right].
        -- intros p Hp Htrue. specialize (Hc1 p Hp Htrue).
           destruct (populated groups p) as [group|] eqn:Epop.
           ++ destruct Hc1 as [Hfalse Hmd]. left. exists 0%nat, k, group.
              split; [reflexivity|]. rewrite Hgroup. split; [exact Epop|].
              split; [intros j k' Hj; lia|].
              destruct (Hab p) as [-> ->]; [left; congruence|]. now split.
           ++ destruct Hc1 as [Htrue1 Hmd]. destruct (Hc p Hp Htrue1)
                as [(i & k' & group & Hi & Hg & Hbefore & Hfalse & Hschema)
                   |(Hnone & Htf' & Hmd')].
              ** left. exists (S i), k', group. split; [exact Hi|].
                 split; [now rewrite <- Hgroup2|]. split; [|now split].
                 intros j k'' Hj Hk''. destruct j as [|j].
                 --- injection Hk'' as <-. now rewrite Hgroup.
                 --- rewrite <- Hgroup2. apply (Hbefore j); [lia|exact Hk''].
              ** right. split; [|split; [exact Htf'|congruence]].
                 intros k' Hk'. apply elem_of_cons in Hk' as [->|Hk'].
                 --- now rewrite Hgroup.
                 --- rewrite <- Hgroup2. now apply Hnone.
Qed.

Lemma lookup_range lo hi (i : nat) k :
  range lo hi !! i = Some k <-> k = lo + Z.of_nat i /\ lo + Z.of_nat i < hi.
Proof.
  unfold range. rewrite list_lookup_fmap. split.
  - destruct (seq 0 (Z.to_nat (hi - lo)) !! i) as [n|] eqn:E; [|discriminate].
    apply lookup_seq in E as [-> Hn]. intros [= <-]. lia.
  - intros [-> Hi]. rewrite (lookup_seq_lt 0 _ i) by lia. reflexivity.
Qed.

Lemma take_range (n : nat) hi :
  (n <= Z.to_nat hi)%nat -> take n (range 0 hi) = range 0 (Z.of_nat n).
Proof.
  intros Hn. unfold range. rewrite <- fmap_take. f_equal.
  rewrite take_seq. f_equal. lia.
Qed.

(** The flags of line 101. *)
Lemma to_find_init (total : gmap string Z) (ptypes : list string) :
  forall (acc to_find : gmap string bool),
    fold_result (fun (to_find : gmap string bool) ptype =>
                   let+ total := dict_get total ptype in
                   Ok (<[ptype := 0 <? total]> to_find)) ptypes acc = Ok to_find ->
    (forall p, p ∈ ptypes -> exists n, total !! p = Some n /\ to_find !! p = Some (0 <? n))
    /\ (forall p, p ∉ ptypes -> to_find !! p = acc !! p).
Proof.
  induction ptypes as [|p0 rest IH]; intros acc to_find H.
  - injection H as <-. split; [|auto]. intros p Hp. now apply elem_of_nil in Hp.
  - cbn [fold_result] in H. apply result_bind_inv in H as (acc1 & E1 & H).
    apply result_bind_inv in E1 as (n0 & En & E1). apply dict_get_inv in En.
    injection E1 as <-. destruct (IH _ _ H) as [Hin Hout]. split.
    + intros p Hp. destruct (decide (p ∈ rest)) as [Hrest|Hrest]; [now apply Hin|].
      apply elem_of_cons in Hp as [->|Hp]; [|done].
      exists n0. split; [exact En|]. rewrite (Hout _ Hrest). apply lookup_insert_eq.
    + intros p Hp. apply not_elem_of_cons in Hp as [Hne Hp].
      rewrite (Hout _ Hp). now apply lookup_insert_ne.
Qed.

Lemma to_find_missing (total : gmap string Z) (ptypes : list string) p :
  p ∈ ptypes -> total !! p = None ->
  forall acc : gmap string bool,
    fold_result (fun (to_find : gmap string bool) ptype =>
                   let+ total := dict_get total ptype in
                   Ok (<[ptype := 0 <? total]> to_find)) ptypes acc = Raise KeyError.
Proof.
  intros Hp Hnone. induction ptypes as [|p0 rest IH]; intros acc;
    [now apply elem_of_nil in Hp|].
  cbn [fold_result]. unfold dict_get at 1.
  destruct (total !! p0) as [n0|] eqn:E0; cbn [result_bind]; [|reflexivity].
  apply IH. apply elem_of_cons in Hp as [->|Hp]; [congruence|exact Hp].
Qed.

Lemma to_find_ok (total : gmap string Z) (ptypes : list string) :
  (forall p, p ∈ ptypes -> is_Some (total !! p)) ->
  forall acc : gmap string bool,
    exists to_find,
      fold_result (fun (to_find : gmap string bool) ptype =>
                     let+ total := dict_get total ptype in
                     Ok (<[ptype := 0 <? total]> to_find)) ptypes acc = Ok to_find.
Proof.
  induction ptypes as [|p0 rest IH]; intros Hall acc; [now exists acc|].
  cbn [fold_result]. destruct (Hall p0 (list_elem_of_here _ _)) as [n0 E0].
  unfold dict_get at 1. rewrite E0. cbn [result_bind].
  apply IH. intros p Hp. apply Hall. now apply list_elem_of_further.
Qed.

(** The dict of line 98. *)
Lemma metadata_init (ptypes : list string) p :
  (list_to_map (map (fun ptype => (ptype, ∅)) ptypes)
     : gmap string (gmap string dataset_meta)) !! p
  = if decide (p ∈ ptypes) then Some ∅ else None.
Proof.
  induction ptypes as [|p0 rest IH]; [reflexivity|].
  cbn [map]. rewrite list_to_map_cons. cbn [fst snd].
  destruct (decide (p = p0)) as [->|Hne].
  - rewrite lookup_insert_eq. now rewrite decide_True by apply list_elem_of_here.
  - rewrite lookup_insert_ne by congruence. rewrite IH.
    destruct (decide (p ∈ rest)) as [Hin|Hout].
    + now rewrite decide_True by now apply list_elem_of_further.
    + rewrite decide_False; [reflexivity|].
      intros Hc. apply elem_of_cons in Hc as [?|?]; contradiction.
Qed.

(** A scan that returned, taken apart. *)
Lemma identify_datasets_inv filename nr_files ptypes (total : gmap string Z) w w'
    (metadata : gmap string (gmap string dataset_meta)) :
  identify_datasets format_file_nr units_from_attributes newbyteorder filename nr_files
    ptypes total w = Ok (metadata, w') ->
  exists to_find to_find',
    (forall p, p ∈ ptypes -> exists n, total !! p = Some n /\ to_find !! p = Some (0 <? n))
    /\ (forall p, p ∉ ptypes -> to_find !! p = None)
    /\ scan_files format_file_nr units_from_attributes newbyteorder filename ptypes
         (range 0 nr_files)
         (list_to_map (map (fun ptype => (ptype, ∅)) ptypes), to_find) w
       = Ok ((metadata, to_find'), w').
Proof.
  unfold identify_datasets. intros H.
  apply bind_inv in H as (to_find & w1 & Hflags & H). unfold lift_result in Hflags.
  destruct (fold_result _ ptypes ∅) as [tf|e] eqn:Etf; [|discriminate].
  injection Hflags as -> <-.
  apply bind_inv in H as ([md tf'] & w2 & Hscan & H). injection H as <- <-.
  destruct (to_find_init _ _ _ _ Etf) as [Hin Hout].
  exists to_find, tf'. split; [exact Hin|]. split; [|exact Hscan].
  intros p Hp. now rewrite (Hout p Hp).
Qed.

(** A particle type without a total stops the scan before the first file. *)
Lemma identify_datasets_missing_total filename nr_files ptypes (total : gmap string Z) w :
  (exists p, p ∈ ptypes /\ total !! p = None) ->
  identify_datasets format_file_nr units_from_attributes newbyteorder filename nr_files
    ptypes total w = Raise KeyError.
Proof.
  intros (p & Hp & Hnone). unfold identify_datasets, bind, lift_result.
  now rewrite (to_find_missing _ _ p Hp Hnone).
Qed.

(** X18: the scan returns an entry for exactly the particle types it was
    given, and the entry of a type without particles in the snapshot is
    empty, whatever the files hold. *)
Theorem identify_datasets_keys (filename : string) (nr_files : Z) (ptypes : list string)
    (total_nr_particles : gmap string Z) (w w' : scan_world)
    (metadata : gmap string (gmap string dataset_meta)) :
  identify_datasets format_file_nr units_from_attributes newbyteorder filename nr_files
    ptypes total_nr_particles w = Ok (metadata, w') ->
  (forall p, is_Some (metadata !! p) <-> p ∈ ptypes)
  /\ (forall p n, p ∈ ptypes -> total_nr_particles !! p = Some n -> n <= 0 ->
        metadata !! p = Some ∅).
Proof.
  intros H. destruct (identify_datasets_inv _ _ _ _ _ _ _ H) as (tf & tf' & Hin & Hout & Hscan).
  assert (Hinv : forall p, tf !! p = Some true ->
            (list_to_map (map (fun ptype => (ptype, ∅)) ptypes)
               : gmap string (gmap string dataset_meta)) !! p = Some ∅).
  { intros p Hp. rewrite metadata_init. destruct (decide (p ∈ ptypes)); [reflexivity|].
    rewrite Hout in Hp by assumption. discriminate. }
  destruct (scan_files_ok _ _ _ _ _ _ _ _ _ Hinv Hscan) as (_ & _ & Hkeys & _ & Hsame & _).
  split.
  - intros p. rewrite Hkeys, metadata_init. destruct (decide (p ∈ ptypes)); [|split].
    + split; [done|eauto].
    + now intros [? ?].
    + done.
  - intros p n Hp Hn Hle. destruct (Hin p Hp) as (n' & Hn' & Htf).
    assert (n' = n) as -> by congruence.
    destruct (Hsame p) as [_ ->].
    + left. rewrite Htf. destruct (Z.ltb_spec 0 n); [lia|discriminate].
    + rewrite metadata_init. now rewrite decide_True.
Qed.

(** X19: the entry of a particle type with particles is read from the
    first file, in the order 0, 1, ..., that has a group of that type whose
    attribute [NumberOfParticles] starts with a positive number: the
    datasets of that group that carry the attribute [a-scale exponent], each
    with its shape without the first axis, its dtype in native byte order
    and its units.  When no file below [nr_files] has such a group the entry
    is empty. *)
Theorem identify_datasets_first_file (filename : string) (nr_files : Z)
    (ptypes : list string) (total_nr_particles : gmap string Z) (w w' : scan_world)
    (metadata : gmap string (gmap string dataset_meta)) (p : string) (n : Z) :
  identify_datasets format_file_nr units_from_attributes newbyteorder filename nr_files
    ptypes total_nr_particles w = Ok (metadata, w') ->
  p ∈ ptypes -> total_nr_particles !! p = Some n -> 0 < n ->
  (exists k group,
      0 <= k < nr_files
      /\ file_group w (format_file_nr filename k) p = Some group
      /\ (forall j, 0 <= j < k -> file_group w (format_file_nr filename j) p = None)
      /\ metadata !! p = Some (schema_of units_from_attributes newbyteorder group))
  \/ ((forall k, 0 <= k < nr_files -> file_group w (format_file_nr filename k) p = None)
      /\ metadata !! p = Some ∅).
Proof.
  intros H Hp Hn Hpos.
  destruct (identify_datasets_inv _ _ _ _ _ _ _ H) as (tf & tf' & Hin & Hout & Hscan).
  assert (Hinv : forall p, tf !! p = Some true ->
            (list_to_map (map (fun ptype => (ptype, ∅)) ptypes)
               : gmap string (gmap string dataset_meta)) !! p = Some ∅).
  { intros q Hq. rewrite metadata_init. destruct (decide (q ∈ ptypes)); [reflexivity|].
    rewrite Hout in Hq by assumption. discriminate. }
  destruct (scan_files_ok _ _ _ _ _ _ _ _ _ Hinv Hscan) as (_ & _ & _ & _ & _ & Hfound).
  assert (Htrue : tf !! p = Some true).
  { destruct (Hin p Hp) as (n' & Hn' & ->). assert (n' = n) as -> by congruence.
    destruct (Z.ltb_spec 0 n); [reflexivity|lia]. }
  destruct (Hfound p Hp Htrue)
    as [(i & k & group & Hi & Hg & Hbefore & _ & Hmd)|(Hnone & _ & Hmd)].
  - left. apply lookup_range in Hi as [-> Hi]. exists (Z.of_nat i), group.
    split; [lia|]. split; [exact Hg|]. split; [|exact Hmd].
    intros j Hj. apply (Hbefore (Z.to_nat j)); [lia|]. apply lookup_range. lia.
  - right. split.
    + intros k Hk. apply Hnone, elem_of_range. lia.
    + rewrite Hmd, metadata_init. now rewrite decide_True.
Qed.

(** X20: the scan closes every file it opens and opens no more than it
    needs: when it returns, the files and the open handles are as before,
    the calls made are an open and a close of files 0, 1, ..., n - 1 in this
    order for some n up to [nr_files], file 0 is opened whenever
    [nr_files] is positive, and a file after the first is opened only when
    some type with particles was in none of the files before it. *)
Theorem identify_datasets_closes_files (filename : string) (nr_files : Z)
    (ptypes : list string) (total_nr_particles : gmap string Z) (w w' : scan_world)
    (metadata : gmap string (gmap string dataset_meta)) :
  handles_fresh w ->
  identify_datasets format_file_nr units_from_attributes newbyteorder filename nr_files
    ptypes total_nr_particles w = Ok (metadata, w') ->
  sw_files w' = sw_files w /\ sw_open w' = sw_open w
  /\ exists n : nat,
       Z.of_nat n <= Z.max 0 nr_files
       /\ sw_log w'
          = sw_log w ++ scan_events format_file_nr filename (sw_next w) (range 0 (Z.of_nat n))
       /\ (0 < nr_files -> (0 < n)%nat)
       /\ (forall m : nat, (0 < m < n)%nat ->
             exists p total,
               p ∈ ptypes /\ total_nr_particles !! p = Some total /\ 0 < total
               /\ forall j, 0 <= j < Z.of_nat m ->
                    file_group w (format_file_nr filename j) p = None).
Proof.
  intros Hfresh H.
  destruct (identify_datasets_inv _ _ _ _ _ _ _ H) as (tf & tf' & Hin & Hout & Hscan).
  assert (Hinv : forall p, tf !! p = Some true ->
            (list_to_map (map (fun ptype => (ptype, ∅)) ptypes)
               : gmap string (gmap string dataset_meta)) !! p = Some ∅).
  { intros q Hq. rewrite metadata_init. destruct (decide (q ∈ ptypes)); [reflexivity|].
    rewrite Hout in Hq by assumption. discriminate. }
  destruct (scan_files_ok _ _ _ _ _ _ _ _ _ Hinv Hscan)
    as ((Hfiles & Hopen & n & Hn & _ & Hlog & Hpos & _ & Hmin) & _).
  rewrite length_range in Hn.
  split; [exact Hfiles|]. split; [now apply Hopen|]. exists n.
  split; [lia|]. split; [|split].
  - rewrite Hlog. do 2 f_equal. apply take_range. lia.
  - intros Hfilespos. apply Hpos. rewrite range_cons by lia. discriminate.
  - intros m Hm. destruct (Hmin m Hm) as (p & Hp & Htrue & Hnone).
    destruct (Hin p Hp) as (total & Htotal & Htf). exists p, total.
    split; [exact Hp|]. split; [exact Htotal|]. split.
    + rewrite Htrue in Htf. destruct (Z.ltb_spec 0 total); [assumption|discriminate].
    + intros j Hj. apply (Hnone (Z.to_nat j)); [lia|]. apply lookup_range. lia.
Qed.

(** X21: the scan fails before it touches a file when a particle type has
    no entry in [total_nr_particles] (KeyError, whatever the files are);
    with every total known, it fails with OSError when file 0 is to be read
    and does not exist, and with no file to read ([nr_files <= 0]) it
    returns an empty entry for every type without opening anything. *)
Theorem identify_datasets_edges (filename : string) (nr_files : Z)
    (ptypes : list string) (total_nr_particles : gmap string Z) (w : scan_world) :
  ((exists p, p ∈ ptypes /\ total_nr_particles !! p = None) ->
   identify_datasets format_file_nr units_from_attributes newbyteorder filename nr_files
     ptypes total_nr_particles w = Raise KeyError)
  /\ ((forall p, p ∈ ptypes -> is_Some (total_nr_particles !! p)) ->
      (0 < nr_files -> sw_files w !! format_file_nr filename 0 = None ->
       identify_datasets format_file_nr units_from_attributes newbyteorder filename nr_files
         ptypes total_nr_particles w = Raise OSError)
      /\ (nr_files <= 0 ->
          identify_datasets format_file_nr units_from_attributes newbyteorder filename nr_files
            ptypes total_nr_particles w
          = Ok (list_to_map (map (fun ptype => (ptype, ∅)) ptypes), w))).
Proof.
  split.
  - apply identify_datasets_missing_total.
  - intros Hall. destruct (to_find_ok _ _ Hall ∅) as [tf Etf]. split.
    + intros Hpos Hmissing. unfold identify_datasets, bind, lift_result. rewrite Etf.
      rewrite range_cons by lia. cbn [scan_files]. unfold bind, scan_open.
      now rewrite Hmissing.
    + intros Hle. unfold identify_datasets, bind, lift_result. rewrite Etf.
      now rewrite range_nil by lia.
Qed.

End ScanProofs.

(** The snapshot of two files: gas and stars both get an entry, and the
    entry of the stars, of which there are none, is empty. *)
Lemma identify_datasets_keys_witness :
  exists metadata w',
    identify_datasets numbered units_attr id "snap" 2 ["PartType0"; "PartType4"]
      example_totals scan_example = Ok (metadata, w')
    /\ is_Some (metadata !! "PartType0") /\ metadata !! "PartType4" = Some ∅.
Proof.
  destruct (identify_datasets numbered units_attr id "snap" 2 ["PartType0"; "PartType4"]
              example_totals scan_example) as [[metadata w']|e] eqn:E;
    [|vm_compute in E; discriminate].
  destruct (identify_datasets_keys numbered units_attr id _ _ _ _ _ _ _ E) as [Hkeys Hempty].
  exists metadata, w'. split; [reflexivity|]. split.
  - apply Hkeys, list_elem_of_here.
  - apply (Hempty "PartType4" 0); [apply list_elem_of_further, list_elem_of_here|reflexivity|lia].
Defined.

(** The gas group of file 0 is empty, so the entry of the gas is read from
    file 1: masses and coordinates, without the particle IDs. *)
Lemma identify_datasets_first_file_witness :
  exists metadata w',
    identify_datasets numbered units_attr id "snap" 2 ["PartType0"; "PartType4"]
      example_totals scan_example = Ok (metadata, w')
    /\ metadata !! "PartType0" = Some (schema_of units_attr id (gas_group 7))
    /\ schema_of units_attr id (gas_group 7)
       = {[ "Masses" := mk_meta [] "<f4" "Msun"; "Coordinates" := mk_meta [3] "<f8" "Mpc" ]}.
Proof.
  destruct (identify_datasets numbered units_attr id "snap" 2 ["PartType0"; "PartType4"]
              example_totals scan_example) as [[metadata w']|e] eqn:E;
    [|vm_compute in E; discriminate].
  exists metadata, w'. split; [reflexivity|]. split; [|vm_compute; reflexivity].
  destruct (identify_datasets_first_file numbered units_attr id _ _ _ _ _ _ _
              "PartType0" 7 E (list_elem_of_here _ _) eq_refl ltac:(lia))
    as [(k & group & Hk & Hgroup & _ & Hmd)|[Hnone _]].
  - assert (k = 0 \/ k = 1) as [->| ->] by lia.
    + vm_compute in Hgroup. discriminate.
    + vm_compute in Hgroup. injection Hgroup as <-. exact Hmd.
  - specialize (Hnone 1 ltac:(lia)). vm_compute in Hnone. discriminate.
Defined.

(** After the scan of the two files no handle is open. *)
Lemma identify_datasets_closes_files_witness :
  exists metadata w',
    identify_datasets numbered units_attr id "snap" 2 ["PartType0"; "PartType4"]
      example_totals scan_example = Ok (metadata, w')
    /\ sw_open w' = ∅ /\ sw_files w' = sw_files scan_example.
Proof.
  destruct (identify_datasets numbered units_attr id "snap" 2 ["PartType0"; "PartType4"]
              example_totals scan_example) as [[metadata w']|e] eqn:E;
    [|vm_compute in E; discriminate].
  assert (Hfresh : handles_fresh scan_example) by (intros fid _; reflexivity).
  destruct (identify_datasets_closes_files numbered units_attr id _ _ _ _ _ _ _ Hfresh E)
    as (Hfiles & Hopen & _).
  exists metadata, w'. split; [reflexivity|]. split; [exact Hopen|exact Hfiles].
Defined.

(** A type the totals do not list, a snapshot whose file 0 does not exist,
    and a snapshot of no file. *)
Lemma identify_datasets_edges_witness :
  identify_datasets numbered units_attr id "snap" 2 ["PartType0"; "PartType9"]
    example_totals scan_example = Raise KeyError
  /\ identify_datasets numbered units_attr id "other" 2 ["PartType0"; "PartType4"]
       example_totals scan_example = Raise OSError
  /\ identify_datasets numbered units_attr id "snap" 0 ["PartType0"; "PartType4"]
       example_totals scan_example
     = Ok ({[ "PartType0" := ∅; "PartType4" := ∅ ]}, scan_example).
Proof.
  assert (Hall : forall p, p ∈ ["PartType0"; "PartType4"] -> is_Some (example_totals !! p)).
  { intros p Hp. apply elem_of_cons in Hp as [->|Hp]; [now eexists|].
    apply list_elem_of_singleton in Hp as ->. now eexists. }
  split; [|split].
  - apply (proj1 (identify_datasets_edges numbered units_attr id "snap" 2
                    ["PartType0"; "PartType9"] example_totals scan_example)).
    exists "PartType9". split; [apply list_elem_of_further, list_elem_of_here|reflexivity].
  - apply (proj1 (proj2 (identify_datasets_edges numbered units_attr id "other" 2
                           ["PartType0"; "PartType4"] example_totals scan_example) Hall));
      [lia|reflexivity].
  - rewrite (proj2 (proj2 (identify_datasets_edges numbered units_attr id "snap" 0
                             ["PartType0"; "PartType4"] example_totals scan_example) Hall)
               ltac:(lia)).
    reflexivity.
Defined.

(** ** The totals of the header *)

Lemma part_type_name_inj i j : part_type_name i = part_type_name j -> i = j.
Proof.
  unfold part_type_name. intros H. apply (inj (String.app "PartType")) in H.
  now apply (inj pretty) in H.
Qed.

(** A low word below 2^32 and a high word below 2^31 combine without
    wrap-around. *)
Lemma combine_words l h :
  0 <= l < 2 ^ 32 -> 0 <= h < 2 ^ 31 ->
  wrap64 (wrap64 l + wrap64 (Z.shiftl (wrap64 h) 32)) = l + h * 2 ^ 32
  /\ 0 <= l + h * 2 ^ 32 < 2 ^ 63.
Proof.
  intros Hl Hh. rewrite (wrap64_id l), (wrap64_id h) by (unfold int64_ok; lia).
  rewrite Z.shiftl_mul_pow2 by lia.
  rewrite (wrap64_id (h * 2 ^ 32)) by (unfold int64_ok; lia).
  split; [|lia]. apply wrap64_id. unfold int64_ok. lia.
Qed.

Lemma header_totals_zip (lows : list Z) : forall highs,
  length highs = length lows ->
  Forall (fun l => 0 <= l < 2 ^ 32) lows -> Forall (fun h => 0 <= h < 2 ^ 31) highs ->
  header_totals lows highs = Ok (zip_with (fun l h => l + h * 2 ^ 32) lows highs).
Proof.
  intros highs Hlen Hlows Hhighs. unfold header_totals, iadd_int64, astype_int64, shift_left_32.
  rewrite !length_map, Hlen, Nat.eqb_refl. f_equal.
  revert highs Hlen Hhighs. induction Hlows as [|l lows Hl Hlows IH]; intros highs Hlen Hhighs.
  - destruct highs; [reflexivity|discriminate].
  - destruct highs as [|h highs]; [discriminate|].
    apply Forall_cons in Hhighs as [Hh Hhighs]. cbn [map zip_with].
    rewrite (proj1 (combine_words l h Hl Hh)). f_equal.
    apply IH; [now injection Hlen|exact Hhighs].
Qed.

(** The loop of lines 163-166 over the type indices [indices]. *)
Lemma totals_loop (ptypes : list string) (totals : list Z) (indices : list Z) :
  forall d : gmap string Z,
    NoDup indices ->
    (forall i, i ∈ indices -> 0 <= i < Z.of_nat (length totals)) ->
    exists d',
      fold_result (fun (self_total_nr_particles : gmap string Z) i =>
                     let ptype := part_type_name i in
                     if bool_decide (ptype ∈ ptypes) then
                       match totals !! Z.to_nat i with
                       | Some total => Ok (<[ptype := total]> self_total_nr_particles)
                       | None => Raise IndexError
                       end
                     else Ok self_total_nr_particles) indices d = Ok d'
      /\ forall p,
           d' !! p
           = match List.find (fun i => bool_decide (part_type_name i = p)) indices with
             | Some i => if bool_decide (p ∈ ptypes) then totals !! Z.to_nat i else d !! p
             | None => d !! p
             end.
Proof.
  induction indices as [|i rest IH]; intros d Hnd Hin.
  - exists d. now split.
  - apply NoDup_cons in Hnd as [Hnotin Hnd].
    assert (Hi : 0 <= i < Z.of_nat (length totals)) by (apply Hin, list_elem_of_here).
    assert (Hsome : is_Some (totals !! Z.to_nat i)) by (apply lookup_lt_is_Some; lia).
    destruct Hsome as [t Ht].
    assert (Hrest : forall p, part_type_name i = p ->
              List.find (fun j => bool_decide (part_type_name j = p)) rest = None).
    { intros p <-. destruct (List.find _ rest) as [j|] eqn:Ej; [|reflexivity].
      apply find_some in Ej as [Hj Hname]. apply bool_decide_eq_true_1 in Hname.
      apply part_type_name_inj in Hname as ->. apply list_elem_of_In in Hj. contradiction. }
    cbn [fold_result List.find]. cbn zeta. case_bool_decide as Hp.
    + rewrite Ht. cbn [result_bind].
      destruct (IH (<[part_type_name i := t]> d) Hnd) as (d' & E & Hd').
      { intros j Hj. apply Hin. now apply list_elem_of_further. }
      exists d'. split; [cbn zeta in E; exact E|]. intros p. rewrite Hd'.
      destruct (decide (part_type_name i = p)) as [Hname|Hname].
      * rewrite (bool_decide_eq_true_2 _ Hname), (Hrest p Hname). subst p.
        rewrite lookup_insert_eq. now rewrite bool_decide_eq_true_2.
      * rewrite (bool_decide_eq_false_2 _ Hname).
        rewrite lookup_insert_ne by exact Hname. reflexivity.
    + cbn [result_bind]. destruct (IH d Hnd) as (d' & E & Hd').
      { intros j Hj. apply Hin. now apply list_elem_of_further. }
      exists d'. split; [cbn zeta in E; exact E|]. intros p. rewrite Hd'.
      destruct (decide (part_type_name i = p)) as [Hname|Hname].
      * rewrite (bool_decide_eq_true_2 _ Hname), (Hrest p Hname). subst p.
        now rewrite bool_decide_eq_false_2.
      * now rewrite (bool_decide_eq_false_2 _ Hname).
Qed.

Lemma NoDup_range lo hi : NoDup (range lo hi).
Proof.
  unfold range. apply NoDup_fmap_2; [|apply NoDup_seq]. intros a b H. lia.
Qed.

Lemma find_part_type indices i :
  i ∈ indices ->
  List.find (fun j => bool_decide (part_type_name j = part_type_name i)) indices = Some i.
Proof.
  induction indices as [|j rest IH]; intros Hi; [now apply elem_of_nil in Hi|].
  cbn [List.find]. case_bool_decide as Hname.
  - now apply part_type_name_inj in Hname as ->.
  - apply IH. apply elem_of_cons in Hi as [->|Hi]; [done|exact Hi].
Qed.

(** The dict of the totals, entry by entry. *)
Lemma total_nr_particles_lookup (ptypes : list string) (lows highs totals : list Z) :
  header_totals lows highs = Ok totals -> length totals = length lows ->
  exists d,
    total_nr_particles ptypes lows highs = Ok d
    /\ (forall i, 0 <= i < Z.of_nat (length lows) ->
          d !! part_type_name i
          = if bool_decide (part_type_name i ∈ ptypes) then totals !! Z.to_nat i else None)
    /\ (forall p, is_Some (d !! p) ->
          exists i, 0 <= i < Z.of_nat (length lows) /\ p = part_type_name i /\ p ∈ ptypes).
Proof.
  intros Htotals Hlen. unfold total_nr_particles. rewrite Htotals. cbn [result_bind].
  destruct (totals_loop ptypes totals (range 0 (Z.of_nat (length lows))) ∅ (NoDup_range _ _))
    as (d & E & Hd).
  { intros i Hi. apply elem_of_range in Hi. lia. }
  exists d. split; [exact E|]. split.
  - intros i Hi. rewrite Hd, find_part_type by (apply elem_of_range; lia).
    case_bool_decide; [reflexivity|apply lookup_empty].
  - intros p [t Ht]. rewrite Hd in Ht.
    destruct (List.find _ _) as [i|] eqn:Ei; [|now rewrite lookup_empty in Ht].
    apply find_some in Ei as [Hi Hname]. apply bool_decide_eq_true_1 in Hname.
    apply list_elem_of_In, elem_of_range in Hi.
    case_bool_decide as Hp; [|now rewrite lookup_empty in Ht].
    exists i. split; [lia|]. now split.
Qed.

(** X22: the totals of the header are put together from their two words
    without loss: for low words below 2^32 and high words below 2^31, as many
    of the ones as of the others, [self.total_nr_particles] has an entry for
    exactly the names [PartType<i>] that are in [ptypes], [i] below the number
    of types of the header, and the entry is [low + high * 2^32], a number
    from which both words can be read back. *)
Theorem total_nr_particles_combines_words (ptypes : list string) (lows highs : list Z) :
  length highs = length lows ->
  Forall (fun l => 0 <= l < 2 ^ 32) lows -> Forall (fun h => 0 <= h < 2 ^ 31) highs ->
  exists d,
    total_nr_particles ptypes lows highs = Ok d
    /\ (forall (i : nat) l h,
          lows !! i = Some l -> highs !! i = Some h ->
          part_type_name (Z.of_nat i) ∈ ptypes ->
          d !! part_type_name (Z.of_nat i) = Some (l + h * 2 ^ 32)
          /\ 0 <= l + h * 2 ^ 32 < 2 ^ 63
          /\ (l + h * 2 ^ 32) mod 2 ^ 32 = l /\ (l + h * 2 ^ 32) / 2 ^ 32 = h)
    /\ (forall p, is_Some (d !! p) <->
          exists i, 0 <= i < Z.of_nat (length lows) /\ p = part_type_name i /\ p ∈ ptypes).
Proof.
  intros Hlen Hlows Hhighs.
  pose proof (header_totals_zip lows highs Hlen Hlows Hhighs) as Htotals.
  destruct (total_nr_particles_lookup ptypes lows highs _ Htotals) as (d & E & Hentry & Hkeys).
  { rewrite length_zip_with. lia. }
  exists d. split; [exact E|]. split.
  - intros i l h Hl Hh Hp.
    assert (Hi : (i < length lows)%nat) by (eapply lookup_lt_Some; eassumption).
    rewrite Hentry by lia. rewrite bool_decide_eq_true_2 by exact Hp.
    rewrite Nat2Z.id, lookup_zip_with, Hl, Hh. cbn.
    pose proof (Forall_lookup_1 _ _ _ _ Hlows Hl) as Hlr.
    pose proof (Forall_lookup_1 _ _ _ _ Hhighs Hh) as Hhr. cbn in Hlr, Hhr.
    split; [reflexivity|]. split; [lia|]. split.
    + rewrite Z_mod_plus_full. apply Z.mod_small. lia.
    + rewrite Z_div_plus_full by lia. rewrite Z.div_small by lia. lia.
  - intros p. split; [apply Hkeys|].
    intros (i & Hi & -> & Hp). rewrite Hentry by lia.
    rewrite bool_decide_eq_true_2 by exact Hp.
    apply lookup_lt_is_Some. rewrite length_zip_with. lia.
Qed.

Section InitMetadataProofs.

Context (format_file_nr : string -> Z -> string).
Context (units_from_attributes : h5_dset -> string).
Context (newbyteorder : string -> string).

(** X23: the set-up of the metadata fails for a cell grid with a particle
    type the header does not count: when [ptypes] holds a name that is not
    [PartType<i>] for an [i] below the number of types of the header, the
    scan of the snapshot raises KeyError, before it opens a file.  The
    header arrays are as in X22. *)
Theorem init_snap_metadata_unknown_type (snap_filename : string) (nr_files : Z)
    (ptypes : list string) (lows highs : list Z) (w : scan_world) (p : string) :
  length highs = length lows ->
  Forall (fun l => 0 <= l < 2 ^ 32) lows -> Forall (fun h => 0 <= h < 2 ^ 31) highs ->
  p ∈ ptypes ->
  (forall i, 0 <= i < Z.of_nat (length lows) -> p ≠ part_type_name i) ->
  init_snap_metadata format_file_nr units_from_attributes newbyteorder snap_filename nr_files
    ptypes lows highs w = Raise KeyError.
Proof.
  intros Hlen Hlows Hhighs Hp Hunknown.
  pose proof (header_totals_zip lows highs Hlen Hlows Hhighs) as Htotals.
  destruct (total_nr_particles_lookup ptypes lows highs _ Htotals) as (d & E & _ & Hkeys).
  { rewrite length_zip_with. lia. }
  unfold init_snap_metadata, bind, lift_result. rewrite E.
  apply identify_datasets_missing_total.
  exists p. split; [exact Hp|]. apply eq_None_not_Some. intros Hsome.
  destruct (Hkeys p Hsome) as (i & Hi & Hname & _). exact (Hunknown i Hi Hname).
Qed.

End InitMetadataProofs.

(** Five billion gas particles: the low word is 705032704 and the high word
    is 1. *)
Lemma total_nr_particles_combines_words_witness :
  exists d,
    total_nr_particles ["PartType0"; "PartType1"] [705032704; 3] [1; 0] = Ok d
    /\ d !! "PartType0" = Some 5000000000.
Proof.
  destruct (total_nr_particles_combines_words ["PartType0"; "PartType1"]
              [705032704; 3] [1; 0]) as (d & E & Hentry & _).
  - reflexivity.
  - repeat constructor; lia.
  - repeat constructor; lia.
  - exists d. split; [exact E|].
    destruct (Hentry 0%nat 705032704 1 eq_refl eq_refl) as [Hd _].
    + vm_compute. apply list_elem_of_here.
    + exact Hd.
Defined.

(** A cell grid with a particle type that is not one of the two types of
    the header. *)
Lemma init_snap_metadata_unknown_type_witness :
  init_snap_metadata numbered units_attr id "snap" 2 ["PartType0"; "Stars"]
    [7; 0] [0; 0] scan_example = Raise KeyError.
Proof.
  apply (init_snap_metadata_unknown_type numbered units_attr id "snap" 2
           ["PartType0"; "Stars"] [7; 0] [0; 0] scan_example "Stars").
  - reflexivity.
  - repeat constructor; lia.
  - repeat constructor; lia.
  - apply list_elem_of_further, list_elem_of_here.
  - intros i Hi. assert (i = 0 \/ i = 1) as [-> | ->] by (cbn in Hi; lia);
      vm_compute; discriminate.
Defined.

(** ** The order values the ordering loop finds, and the metadata of the arrays *)

Lemma forget_order_lookup (cells cells' : list swift_cell_t) i :
  map forget_order cells = map forget_order cells' ->
  match cells !! i, cells' !! i with
  | Some c, Some c' =>
      file c' = file c /\ offset c' = offset c /\ forall k, set_order c' k = set_order c k
  | None, None => True
  | _, _ => False
  end.
Proof.
  intros H. assert (Hi : forget_order <$> cells !! i = forget_order <$> cells' !! i).
  { rewrite <- !list_lookup_fmap. now f_equal. }
  destruct (cells !! i) as [c|], (cells' !! i) as [c'|]; try discriminate; [|exact I].
  destruct c as [ce n o f k], c' as [ce' n' o' f' k']. unfold forget_order, set_order in Hi.
  cbn in Hi. injection Hi as -> -> -> ->. cbn. auto.
Qed.

Lemma lexsort_insert_ext (cells cells' : list swift_cell_t) i sorted :
  map forget_order cells = map forget_order cells' ->
  lexsort_insert cells i sorted = lexsort_insert cells' i sorted.
Proof.
  intros H. induction sorted as [|j rest IH]; [reflexivity|]. cbn [lexsort_insert].
  pose proof (forget_order_lookup cells cells' i H) as Hi.
  pose proof (forget_order_lookup cells cells' j H) as Hj.
  destruct (cells !! i) as [ci|], (cells' !! i) as [ci'|]; try contradiction;
    destruct (cells !! j) as [cj|], (cells' !! j) as [cj'|]; try contradiction;
    try reflexivity.
  destruct Hi as (Hfi & Hoi & _), Hj as (Hfj & Hoj & _).
  unfold key_lt. rewrite Hfi, Hoi, Hfj, Hoj, IH. reflexivity.
Qed.

Lemma lexsort_ext (cells cells' : list swift_cell_t) :
  map forget_order cells = map forget_order cells' -> lexsort cells = lexsort cells'.
Proof.
  intros H. unfold lexsort.
  assert (Hlen : length cells = length cells').
  { rewrite <- (length_map forget_order cells), H. apply length_map. }
  rewrite Hlen. induction (seq 0 (length cells')) as [|i rest IH]; [reflexivity|].
  cbn [foldr]. rewrite IH. now apply lexsort_insert_ext.
Qed.

Lemma ordered_cells_ext (cells cells' : list swift_cell_t) :
  map forget_order cells = map forget_order cells' ->
  ordered_cells cells = ordered_cells cells'.
Proof.
  intros H.
  assert (Hlen : length cells = length cells').
  { rewrite <- (length_map forget_order cells), H. apply length_map. }
  assert (Hl : length (ordered_cells cells) = length cells)
    by apply length_fold_assign_order.
  assert (Hl' : length (ordered_cells cells') = length cells')
    by apply length_fold_assign_order.
  apply list_eq_same_length with (length cells); [lia|lia|].
  intros i x y Hi Hx Hy.
  destruct (lexsort_position_of cells i Hi) as [p Hp].
  pose proof (forget_order_lookup cells cells' i H) as Hc.
  destruct (cells !! i) as [c|] eqn:Ec; [|apply lookup_ge_None in Ec; lia].
  destruct (cells' !! i) as [c'|] eqn:Ec'; [|contradiction].
  rewrite (ordered_cells_lookup cells p i c Hp Ec) in Hx.
  rewrite (lexsort_ext cells cells' H) in Hp.
  rewrite (ordered_cells_lookup cells' p i c' Hp Ec') in Hy.
  destruct Hc as (_ & _ & Hset). rewrite Hset in Hy. congruence.
Qed.

(** X24: the ordering loop leaves no order value as it found it: run on two
    arrays that agree in every field but [order] (the arrays come from
    [np.ndarray], which does not initialise them), it succeeds on both and
    leaves the same array. *)
Theorem determine_ordering_overwrites_orders (h h' : store) (cellgrid : nat)
    (cells cells' : list swift_cell_t) :
  h !! cellgrid = Some cells -> h' !! cellgrid = Some cells' ->
  map forget_order cells = map forget_order cells' ->
  exists ordered,
    determine_ordering cellgrid h = Ok (tt, <[cellgrid := ordered]> h)
    /\ determine_ordering cellgrid h' = Ok (tt, <[cellgrid := ordered]> h').
Proof.
  intros Hc Hc' Hsame. exists (ordered_cells cells).
  split; [now apply determine_ordering_ok|].
  rewrite (ordered_cells_ext cells cells' Hsame). now apply determine_ordering_ok.
Qed.

(** Two cells of one file, once with orders 77 and -3 and once with orders
    0 and 0: the loop leaves the orders 1 and 0 in both cases. *)
Lemma determine_ordering_overwrites_orders_witness :
  exists ordered,
    determine_ordering 0 [[mk_cell (0, 0, 0) 4 8 0 77; mk_cell (0, 0, 0) 8 0 0 (-3)]]
    = Ok (tt, [ordered])
    /\ determine_ordering 0 [[mk_cell (0, 0, 0) 4 8 0 0; mk_cell (0, 0, 0) 8 0 0 0]]
       = Ok (tt, [ordered])
    /\ map order ordered = [1; 0].
Proof.
  destruct (determine_ordering_overwrites_orders
              [[mk_cell (0, 0, 0) 4 8 0 77; mk_cell (0, 0, 0) 8 0 0 (-3)]]
              [[mk_cell (0, 0, 0) 4 8 0 0; mk_cell (0, 0, 0) 8 0 0 0]] 0%nat
              _ _ eq_refl eq_refl eq_refl) as (ordered & E1 & E2).
  exists ordered. split; [exact E1|]. split; [exact E2|].
  vm_compute in E2. injection E2 as <-. reflexivity.
Defined.

Section AllocateProofs.

Context {quantity : Type}.

(** X25: the metadata of a shared array is taken from the snapshot only
    when the name of the dataset is a key of [self.snap_metadata] (whose
    keys are the particle types), and from the extra files otherwise: when
    the allocation returns, every requested dataset has its entry in the
    dict so chosen, and a grid without extra files has been asked only for
    datasets whose names are keys of [self.snap_metadata]. *)
Theorem allocate_arrays_metadata_source (self : @SWIFTCellGrid quantity)
    (property_names : property_names_t) (nr_parts : gmap string Z) (comm_size comm_rank : Z)
    (data : gmap string (gmap string shared_array_args)) :
  allocate_arrays self property_names nr_parts comm_size comm_rank = Ok data ->
  forall ptype names name,
    (ptype, names) ∈ property_names -> name ∈ names ->
    match snap_metadata self !! name with
    | Some _ =>
        exists datasets meta,
          snap_metadata self !! ptype = Some datasets /\ datasets !! name = Some meta
    | None =>
        exists metadata datasets meta,
          extra_metadata self = Some metadata
          /\ metadata !! ptype = Some datasets /\ datasets !! name = Some meta
    end.
Proof.
  unfold allocate_arrays. intros H ptype names name Hitem Hname.
  destruct (fold_result_steps _ _ _ _ H _ Hitem) as (data1 & data2 & Hstep).
  cbn zeta in Hstep. cbn [fst snd] in Hstep.
  destruct (fold_result_steps _ _ _ _ Hstep _ Hname) as (data3 & data4 & Hinner).
  apply result_bind_inv in Hinner as (meta & Hmeta & _).
  unfold array_metadata in Hmeta. case_bool_decide as Hkey.
  - destruct Hkey as [x Hx]. rewrite Hx.
    apply result_bind_inv in Hmeta as (datasets & Hd & Hm).
    apply dict_get_inv in Hd, Hm. eauto.
  - apply eq_None_not_Some in Hkey. rewrite Hkey.
    destruct (extra_metadata self) as [metadata|]; [|discriminate].
    apply result_bind_inv in Hmeta as (datasets & Hd & Hm).
    apply dict_get_inv in Hd, Hm. eauto 10.
Qed.

End AllocateProofs.

(** On the grid with an extra file the densities are allocated from the
    metadata of the extra file. *)
Lemma allocate_arrays_metadata_source_witness :
  exists data metadata datasets,
    allocate_arrays extra_grid [("PartType0", ["Densities"])] {[ "PartType0" := 5 ]} 2 0
    = Ok data
    /\ extra_metadata extra_grid = Some metadata
    /\ metadata !! "PartType0" = Some datasets
    /\ is_Some (datasets !! "Densities").
Proof.
  destruct (allocate_arrays extra_grid [("PartType0", ["Densities"])] {[ "PartType0" := 5 ]}
              2 0) as [data|e] eqn:E; [|vm_compute in E; discriminate].
  pose proof (allocate_arrays_metadata_source extra_grid _ _ _ _ _ E
                "PartType0" ["Densities"] "Densities"
                (list_elem_of_here _ _) (list_elem_of_here _ _)) as H.
  change (snap_metadata extra_grid !! "Densities") with (@None (gmap string dataset_meta)) in H.
  destruct H as (metadata & datasets & meta & Hextra & Hd & Hm).
  exists data, metadata, datasets. split; [reflexivity|]. split; [exact Hextra|].
  split; [exact Hd|]. now exists meta.
Defined.
